(** * GrowTalk tutoring orchestrator: a shallow embedding of the session
      controllers and of the WhatsApp dispatcher.

    The Python program keeps four module-level dictionaries
    ([vocab_sessions], [reading_sessions], [open_reading_sessions],
    [last_sent_messages]) and talks to three outside parties: the Google
    sheets (student rows and content tables), the chat-completion service
    and the local WhatsApp bot.  Everything is embedded as a state and
    exception monad over one record, [World], that holds the dictionaries,
    the sheets, the behaviour of the two remote services, and a log of the
    outgoing effects. *)

From Stdlib Require Import ZArith String Ascii List Lia Bool.
From stdpp Require Import base option gmap strings list fin_maps.

Local Open Scope string_scope.
Local Open Scope list_scope.
Local Open Scope Z_scope.

(** ** Python string primitives *)

Module PyStr.

(** Strings are byte strings.  [lower] and [strip] act on the ASCII
    letters and the ASCII white space; text outside ASCII travels as UTF-8
    bytes and is left alone, which is how the command words and the
    markers of the judge, all ASCII, are matched.  Python's [str.lower]
    also folds the capitals outside ASCII, and [str.strip] also removes
    the blanks outside ASCII (U+0085, U+00A0, U+1680, U+2000 to U+200A,
    U+2028, U+2029, U+202F, U+205F, U+3000): on text with such characters
    the bytes computed here differ from Python's.  What is proved about
    containment is stated for needles whose edges are ASCII, for which the
    two agree. *)

Definition dquote : ascii := "034"%char.

(** [s.lower()] on the ASCII letters. *)
Definition lower_ascii (c : ascii) : ascii :=
  let n := nat_of_ascii c in
  if (Nat.leb 65 n && Nat.leb n 90)%bool then ascii_of_nat (n + 32)%nat else c.

Fixpoint lower (s : string) : string :=
  match s with
  | EmptyString => EmptyString
  | String c r => String (lower_ascii c) (lower r)
  end.

(** Python's ASCII white space: tab, line feed, vertical tab, form feed,
    carriage return, the four separators 28..31 and the blank. *)
Definition is_space (c : ascii) : bool :=
  let n := nat_of_ascii c in
  ((Nat.leb 9 n && Nat.leb n 13) || (Nat.leb 28 n && Nat.leb n 32))%bool.

Fixpoint lstrip (s : string) : string :=
  match s with
  | EmptyString => EmptyString
  | String c r => if is_space c then lstrip r else s
  end.

Fixpoint rstrip (s : string) : string :=
  match s with
  | EmptyString => EmptyString
  | String c r =>
      match rstrip r with
      | EmptyString => if is_space c then EmptyString else String c EmptyString
      | r' => String c r'
      end
  end.

(** [s.strip()] *)
Definition strip (s : string) : string := rstrip (lstrip s).

Fixpoint starts_with (needle hay : string) : bool :=
  match needle, hay with
  | EmptyString, _ => true
  | String a n, String b h => if Ascii.eqb a b then starts_with n h else false
  | String _ _, EmptyString => false
  end.

(** [needle in hay] *)
Fixpoint contains (needle hay : string) : bool :=
  if starts_with needle hay then true
  else match hay with
       | EmptyString => false
       | String _ h => contains needle h
       end.

(** Truthiness of a string: [if s]. *)
Definition truthy (s : string) : bool :=
  match s with EmptyString => false | _ => true end.

End PyStr.

Import PyStr.

(** ** The sheets *)

(** A row of the user sheet ("User List" / "Sheet1"). *)
Record UserRow := mkUserRow {
  phone_no : Z;
  eng_name : string;
  day_of_training : Z;
  current_question_number : Z;
  current_vocab_number : Z;
  current_open_question_number : Z
}.

(** The columns of the user sheet that the program writes: the training
    day and the three cursors. *)
Inductive Column :=
| col_day_of_training
| col_current_question_number
| col_current_vocab_number
| col_current_open_question_number.

(** A row of the vocabulary sheet. *)
Record VocabRow := mkVocabRow {
  Day : Z;
  Vocabulary : string;
  PartOfSpeech : string;
  Examples : string;
  ChineseExplaination : string;
  Tips : string;
  Roots : string;
  MemStories : string
}.

(** A row of the closed-ended comprehension sheet. *)
Record ClosedRow := mkClosedRow {
  c_day_of_training : Z;
  c_question_id : Z;
  c_question_text : string;
  c_answer_text : string;
  c_passage_text : string
}.

(** A row of the open-ended question sheet. *)
Record OpenRow := mkOpenRow {
  o_day_of_training : Z;
  o_question_id : Z;
  o_question_text : string;
  o_learning_objective : string;
  o_answer_text : string
}.

(** ** Sessions *)

(** [{"attempt": 1, "last_vocab": vocab_row}] *)
Record VocabSession := mkVocabSession {
  v_attempt : Z;
  last_vocab : VocabRow
}.

(** [{"passage", "question", "attempt", "mode", "last_user_answer"}];
    [mode] is the empty string or ["reflection"]. *)
Record ReadingSession := mkReadingSession {
  r_passage : string;
  r_question : string;
  r_attempt : Z;
  r_mode : string;
  last_user_answer : string
}.

(** [{"question": question}] *)
Record OpenSession := mkOpenSession {
  o_question : string
}.

(** ** The remote services *)

(** One constructor per function of [llm_utils] that calls the
    chat-completion client, carrying the values that function splices into
    its prompt.  The prompt text is a function of these values, so a
    service that answers by request answers by prompt as well. *)
Inductive LLMRequest :=
| ReqGreet (student_name : string)
| ReqEvaluateAnswer (user_answer correct_answer : string)
| ReqIsAnswering (user_reply question_prompt : string)
| ReqIsRelevant (user_reply current_question : string)
| ReqAnswerQuestion (user_question : string)
| ReqIrrelevant (user_input : string)
| ReqQuestionMessage (question student_name prior_learning : string)
| ReqHint (user_answer correct_answer question_text passage : string) (attempt : Z)
| ReqWhyCorrect (question_text user_answer passage : string)
| ReqReflection (reflection_text question_text correct_answer passage : string)
| ReqOpenQuestion (question : string)
| ReqOpenAnswer (user_reply question learning_objective answer : string)
| ReqVocabQuestion (vocab_row : VocabRow)
| ReqVocabCorrect (vocab_row : VocabRow)
| ReqVocabHint (vocab_row : VocabRow) (user_answer : string) (attempt : Z).

(** What [requests.post] does: answer 200, answer another status (whose
    body may or may not decode as JSON), or raise. *)
Inductive TransportReply :=
| Status200
| StatusOther (body_is_json : bool)
| TransportRaises.

(** ** Exceptions *)

Inductive ValueErrorKind :=
| PhoneNotFound            (* get_row_index_by_phone *)
| StudentNotFound          (* get_student_name_by_phone *)
| NoPassageForDay          (* get_passage *)
| CannotFindQuestion       (* get_current_question, get_current_answer *)
| CannotFindOpenQuestion   (* get_open_question *)
| CannotFindObjective      (* get_open_question_objective *)
| CannotFindOpenAnswer     (* get_open_question_ans *)
| UnexpectedLLMResponse (reply : string)   (* evaluate_answer *)
| AttemptNotBetween1And3   (* give_hint_or_explanation *)
| AttemptNotEither1Or2.    (* give_vocab_hint_or_explanation *)

Inductive Exn :=
| ValueError (k : ValueErrorKind)
| KeyError
| IndexError
| ClientError              (* the chat-completion client raised *)
| RequestException         (* requests.post raised *)
| JSONDecodeError.         (* response.json() raised *)

Inductive Result (A : Type) :=
| Ok (a : A)
| Raise (e : Exn).
Arguments Ok {A} a.
Arguments Raise {A} e.

(** ** Outgoing effects *)

Inductive Effect :=
| Post (phone_number : Z) (message : string) (reply : TransportReply)
| UpdateCell (row_index : Z) (column : Column) (data : Z)
| ChatCompletion (request : LLMRequest).

(** ** The world *)

Record World := mkWorld {
  user_sheet : list UserRow;
  vocab_sheet : list VocabRow;
  close_reading_sheet : list ClosedRow;
  open_reading_sheet : list OpenRow;
  vocab_sessions : gmap Z VocabSession;
  reading_sessions : gmap Z ReadingSession;
  open_reading_sessions : gmap Z OpenSession;
  last_sent_messages : gmap Z string;
  (** number of calls made so far to the chat-completion service and to
      the bot; they may answer the same request differently at different
      times *)
  clock : nat;
  (** the chat-completion service: [None] when the client raises *)
  llm : nat -> LLMRequest -> option string;
  (** the WhatsApp bot behind [WHATSAPP_API_URL] *)
  transport : nat -> Z -> string -> TransportReply;
  (** everything sent out, oldest first *)
  effects : list Effect
}.

(** ** The state and exception monad *)

Definition M (A : Type) : Type := World -> Result A * World.

Definition ret {A} (a : A) : M A := fun w => (Ok a, w).

Definition raise {A} (e : Exn) : M A := fun w => (Raise e, w).

Definition bind {A B} (m : M A) (f : A -> M B) : M B :=
  fun w =>
    match m w with
    | (Ok a, w') => f a w'
    | (Raise e, w') => (Raise e, w')
    end.

(** [try: m except Exception: h] *)
Definition try_except {A} (m : M A) (h : Exn -> M A) : M A :=
  fun w =>
    match m w with
    | (Ok a, w') => (Ok a, w')
    | (Raise e, w') => h e w'
    end.

Definition get : M World := fun w => (Ok w, w).

Definition modify (f : World -> World) : M unit := fun w => (Ok tt, f w).

Notation "'do' x <- m ; k" := (bind m (fun x => k))
  (at level 10, x name, m at level 100, k at level 200, only parsing).
Notation "'run' m ; k" := (bind m (fun _ => k))
  (at level 10, m at level 100, k at level 200, only parsing).

(** Field updates of the world. *)

Definition set_user_sheet (f : list UserRow -> list UserRow) (w : World) : World :=
  mkWorld (f (user_sheet w)) (vocab_sheet w) (close_reading_sheet w)
    (open_reading_sheet w) (vocab_sessions w) (reading_sessions w)
    (open_reading_sessions w) (last_sent_messages w) (clock w) (llm w)
    (transport w) (effects w).

Definition set_vocab_sessions
    (f : gmap Z VocabSession -> gmap Z VocabSession) (w : World) : World :=
  mkWorld (user_sheet w) (vocab_sheet w) (close_reading_sheet w)
    (open_reading_sheet w) (f (vocab_sessions w)) (reading_sessions w)
    (open_reading_sessions w) (last_sent_messages w) (clock w) (llm w)
    (transport w) (effects w).

Definition set_reading_sessions
    (f : gmap Z ReadingSession -> gmap Z ReadingSession) (w : World) : World :=
  mkWorld (user_sheet w) (vocab_sheet w) (close_reading_sheet w)
    (open_reading_sheet w) (vocab_sessions w) (f (reading_sessions w))
    (open_reading_sessions w) (last_sent_messages w) (clock w) (llm w)
    (transport w) (effects w).

Definition set_open_reading_sessions
    (f : gmap Z OpenSession -> gmap Z OpenSession) (w : World) : World :=
  mkWorld (user_sheet w) (vocab_sheet w) (close_reading_sheet w)
    (open_reading_sheet w) (vocab_sessions w) (reading_sessions w)
    (f (open_reading_sessions w)) (last_sent_messages w) (clock w) (llm w)
    (transport w) (effects w).

Definition set_last_sent_messages
    (f : gmap Z string -> gmap Z string) (w : World) : World :=
  mkWorld (user_sheet w) (vocab_sheet w) (close_reading_sheet w)
    (open_reading_sheet w) (vocab_sessions w) (reading_sessions w)
    (open_reading_sessions w) (f (last_sent_messages w)) (clock w) (llm w)
    (transport w) (effects w).

(** A remote call: the clock advances and the effect is logged. *)
Definition emit (tick : nat) (e : Effect) (w : World) : World :=
  mkWorld (user_sheet w) (vocab_sheet w) (close_reading_sheet w)
    (open_reading_sheet w) (vocab_sessions w) (reading_sessions w)
    (open_reading_sessions w) (last_sent_messages w) (tick + clock w)%nat
    (llm w) (transport w) (effects w ++ [e]).

(** ** Python containers *)

(** [l[i]] on a list, with negative indices counting from the end. *)
Definition py_getitem {A} (l : list A) (i : Z) : M A :=
  let n := Z.of_nat (length l) in
  let j := if i <? 0 then i + n else i in
  if (j <? 0) || (n <=? j) then raise IndexError
  else match l !! Z.to_nat j with
       | Some x => ret x
       | None => raise IndexError
       end.

(** [del d[k]] *)
Definition py_del {V} (d : gmap Z V) (k : Z) : Result (gmap Z V) :=
  match d !! k with
  | Some _ => Ok (delete k d)
  | None => Raise KeyError
  end.

(** ** sheet_utils *)

(** The sheet handles that the Python functions take ([sheet_user],
    [sheet_vocab], ...) are always the module-level handles of
    [whatsapp_webhook]; here they are the fields of the world.  Reading a
    sheet ([get_all_records]) is taken to succeed. *)

Fixpoint find_row_index (data : list UserRow) (phone_number : Z) (i : Z)
  : option Z :=
  match data with
  | [] => None
  | row :: rest =>
      if phone_no row =? phone_number then Some i
      else find_row_index rest phone_number (i + 1)
  end.

(** [for i, row in enumerate(data, start=2)] *)
Definition get_row_index_by_phone (phone_number : Z) : M Z :=
  do w <- get;
  match find_row_index (user_sheet w) phone_number 2 with
  | Some i => ret i
  | None => raise (ValueError PhoneNotFound)
  end.

Definition set_column (column : Column) (data : Z) (row : UserRow) : UserRow :=
  match column with
  | col_day_of_training =>
      mkUserRow (phone_no row) (eng_name row) data
        (current_question_number row) (current_vocab_number row)
        (current_open_question_number row)
  | col_current_question_number =>
      mkUserRow (phone_no row) (eng_name row) (day_of_training row)
        data (current_vocab_number row) (current_open_question_number row)
  | col_current_vocab_number =>
      mkUserRow (phone_no row) (eng_name row) (day_of_training row)
        (current_question_number row) data (current_open_question_number row)
  | col_current_open_question_number =>
      mkUserRow (phone_no row) (eng_name row) (day_of_training row)
        (current_question_number row) (current_vocab_number row) data
  end.

(** [sheet.update_cell(row_index, col_index, data)]: sheet row [row_index]
    is record [row_index - 2]. *)
Definition update_cell (row_index : Z) (column : Column) (data : Z) : M unit :=
  modify (fun w =>
    emit 0 (UpdateCell row_index column data)
      (set_user_sheet
         (alter (set_column column data) (Z.to_nat (row_index - 2))) w)).

Definition update_sheet (phone_number : Z) (column : Column) (data : Z)
  : M unit :=
  do row_index <- get_row_index_by_phone phone_number;
  update_cell row_index column data.

Definition get_student_name_by_phone (phone_number : Z) : M string :=
  do w <- get;
  match List.find (fun row => phone_no row =? phone_number) (user_sheet w) with
  | Some row => ret (eng_name row)
  | None => raise (ValueError StudentNotFound)
  end.

(** The two lines every reader starts with:
    [row_index = get_row_index_by_phone(sheet_user, phone_number)] and
    [user_data = sheet_user.get_all_records()[row_index - 2]]. *)
Definition get_user_data (phone_number : Z) : M UserRow :=
  do row_index <- get_row_index_by_phone phone_number;
  do w <- get;
  py_getitem (user_sheet w) (row_index - 2).

Definition get_passage (phone_number : Z) : M string :=
  do user_data <- get_user_data phone_number;
  let day := day_of_training user_data in
  do w <- get;
  match List.find (fun row => c_day_of_training row =? day)
          (close_reading_sheet w) with
  | Some row => ret (c_passage_text row)
  | None => raise (ValueError NoPassageForDay)
  end.

Definition get_current_question (phone_number : Z) : M string :=
  do user_data <- get_user_data phone_number;
  let day := day_of_training user_data in
  let q_num := current_question_number user_data in
  do w <- get;
  match List.find (fun row => (c_day_of_training row =? day)
                              && (c_question_id row =? q_num))
          (close_reading_sheet w) with
  | Some row => ret (c_question_text row)
  | None => raise (ValueError CannotFindQuestion)
  end.

Definition get_current_answer (phone_number : Z) : M string :=
  do user_data <- get_user_data phone_number;
  let day := day_of_training user_data in
  let q_num := current_question_number user_data in
  do w <- get;
  match List.find (fun row => (c_day_of_training row =? day)
                              && (c_question_id row =? q_num))
          (close_reading_sheet w) with
  | Some row => ret (c_answer_text row)
  | None => raise (ValueError CannotFindQuestion)
  end.

Definition advance_question_progress (phone_number : Z) : M unit :=
  do data <- get_user_data phone_number;
  let current_number := current_question_number data in
  let new_number := current_number + 1 in
  update_sheet phone_number col_current_question_number new_number.

Definition get_open_question (phone_number : Z) : M string :=
  do user_data <- get_user_data phone_number;
  let day := day_of_training user_data in
  let q_num := current_open_question_number user_data in
  do w <- get;
  match List.find (fun row => (o_day_of_training row =? day)
                              && (o_question_id row =? q_num))
          (open_reading_sheet w) with
  | Some row => ret (o_question_text row)
  | None => raise (ValueError CannotFindOpenQuestion)
  end.

Definition get_open_question_objective (phone_number : Z) : M string :=
  do user_data <- get_user_data phone_number;
  let day := day_of_training user_data in
  let q_num := current_open_question_number user_data in
  do w <- get;
  match List.find (fun row => (o_day_of_training row =? day)
                              && (o_question_id row =? q_num))
          (open_reading_sheet w) with
  | Some row => ret (o_learning_objective row)
  | None => raise (ValueError CannotFindObjective)
  end.

Definition get_open_question_ans (phone_number : Z) : M string :=
  do user_data <- get_user_data phone_number;
  let day := day_of_training user_data in
  let q_num := current_open_question_number user_data in
  do w <- get;
  match List.find (fun row => (o_day_of_training row =? day)
                              && (o_question_id row =? q_num))
          (open_reading_sheet w) with
  | Some row => ret (o_answer_text row)
  | None => raise (ValueError CannotFindOpenAnswer)
  end.

Definition advance_open_question_progress (phone_number : Z) : M unit :=
  do user_data <- get_user_data phone_number;
  let current_number := current_open_question_number user_data in
  let new_number := current_number + 1 in
  update_sheet phone_number col_current_open_question_number new_number.

(** Returns [None] when no vocabulary is left for the day. *)
Definition get_current_vocab_row (phone_number : Z) : M (option VocabRow) :=
  do user_data <- get_user_data phone_number;
  let day := day_of_training user_data in
  let vocab_index := current_vocab_number user_data in
  do w <- get;
  let vocab_data := List.filter (fun v => Day v =? day) (vocab_sheet w) in
  if Z.of_nat (length vocab_data) <=? vocab_index then ret None
  else do v <- py_getitem vocab_data vocab_index; ret (Some v).

Definition advance_vocab_index (phone_number : Z) : M unit :=
  do user_data <- get_user_data phone_number;
  let current_index := current_vocab_number user_data in
  update_sheet phone_number col_current_vocab_number (current_index + 1).

(** ** whatsapp_utils *)

(** [requests.post(WHATSAPP_API_URL, json=...)] *)
Definition requests_post (phone_number : Z) (message : string)
  : M TransportReply :=
  fun w =>
    let reply := transport w (clock w) phone_number message in
    let w' := emit 1 (Post phone_number message reply) w in
    match reply with
    | TransportRaises => (Raise RequestException, w')
    | _ => (Ok reply, w')
    end.

Definition send_whatsapp_message (phone_number : Z) (message : string)
  : M bool :=
  try_except
    (run modify (set_last_sent_messages (insert phone_number message));
     do response <- requests_post phone_number message;
     match response with
     | Status200 => ret true
     | StatusOther body_is_json =>
         (* print("Failed to send:", response.json()) *)
         if body_is_json then ret false else raise JSONDecodeError
     | TransportRaises => raise RequestException
     end)
    (fun _ => ret false).

(** ** llm_utils *)

(** [client.chat.completions.create(...)] followed by
    [response.choices[0].message.content]. *)
Definition chat_completion (request : LLMRequest) : M string :=
  fun w =>
    let w' := emit 1 (ChatCompletion request) w in
    match llm w (clock w) request with
    | Some content => (Ok content, w')
    | None => (Raise ClientError, w')
    end.

Definition newline : string := String "010"%char EmptyString.

Definition greet_student (student_name : string) : M string :=
  do content <- chat_completion (ReqGreet student_name);
  ret (strip content).

Definition marker_is_correct_true : string :=
  String dquote ("is_correct" +:+ String dquote ": true").

Definition marker_is_correct_false : string :=
  String dquote ("is_correct" +:+ String dquote ": false").

Definition marker_answered_true : string :=
  String dquote ("answered" +:+ String dquote ": true").

Definition marker_relevant_true : string :=
  String dquote ("relevant" +:+ String dquote ": true").

Definition evaluate_answer (user_answer correct_answer : string) : M bool :=
  do content <- chat_completion (ReqEvaluateAnswer user_answer correct_answer);
  let reply := strip content in
  (* the except clause prints and raises the same exception again *)
  try_except
    (if contains marker_is_correct_true (lower reply) then ret true
     else if contains marker_is_correct_false (lower reply) then ret false
     else raise (ValueError (UnexpectedLLMResponse reply)))
    (fun e => raise e).

Definition is_student_answering_question (user_reply question_prompt : string)
  : M bool :=
  do content <- chat_completion (ReqIsAnswering user_reply question_prompt);
  let reply := lower content in
  ret (contains marker_answered_true reply).

Definition is_reply_relevant_to_learning (user_reply current_question : string)
  : M bool :=
  do content <- chat_completion (ReqIsRelevant user_reply current_question);
  let reply := lower content in
  ret (contains marker_relevant_true reply).

Definition generate_answer_to_student_question (user_question : string)
  : M string :=
  do content <- chat_completion (ReqAnswerQuestion user_question);
  ret (strip content).

Definition irrelevant_fallback : string :=
  "呢個問題好有趣，不過我哋而家專心學英文先啦 😊".

Definition handle_irrelevant_input_with_llm (user_input : string) : M string :=
  try_except
    (do content <- chat_completion (ReqIrrelevant user_input);
     ret (strip content))
    (fun _ => ret irrelevant_fallback).

Definition generate_question_message
    (question student_name prior_learning : string) : M string :=
  let prior_learning :=
    if truthy prior_learning then prior_learning else EmptyString in
  do content <-
    chat_completion (ReqQuestionMessage question student_name prior_learning);
  let encouragement := strip content in
  let full_message :=
    newline +:+ "    " +:+ encouragement +:+ newline +:+ question
            +:+ newline +:+ "    " in
  ret (strip full_message).

Definition give_hint_or_explanation
    (user_answer correct_answer question_text passage : string) (attempt : Z)
  : M string :=
  if (attempt <? 1) || (3 <? attempt)
  then raise (ValueError AttemptNotBetween1And3)
  else
    do content <-
      chat_completion
        (ReqHint user_answer correct_answer question_text passage attempt);
    ret (strip content).

Definition ask_why_correct (question_text user_answer passage : string)
  : M string :=
  do content <- chat_completion (ReqWhyCorrect question_text user_answer passage);
  ret (strip content).

Definition respond_to_reflection
    (reflection_text question_text correct_answer passage : string) : M string :=
  do content <-
    chat_completion
      (ReqReflection reflection_text question_text correct_answer passage);
  ret (strip content).

Definition ask_open_question (question : string) : M string :=
  do content <- chat_completion (ReqOpenQuestion question);
  ret (strip content).

Definition open_answer_fallback : string :=
  "多謝你嘅分享，我哋而家一齊望一望今日嘅學習重點啦～😊".

Definition respond_to_open_answer
    (user_reply question learning_objective answer : string) : M string :=
  try_except
    (do content <-
       chat_completion
         (ReqOpenAnswer user_reply question learning_objective answer);
     ret (strip content))
    (fun _ => ret open_answer_fallback).

Definition ask_vocab_meaning_question (vocab_row : VocabRow) : M string :=
  do content <- chat_completion (ReqVocabQuestion vocab_row);
  ret (strip content).

Definition give_vocab_correct_reply (vocab_row : VocabRow) : M string :=
  do content <- chat_completion (ReqVocabCorrect vocab_row);
  ret (strip content).

Definition give_vocab_hint_or_explanation
    (vocab_row : VocabRow) (user_answer : string) (attempt : Z) : M string :=
  if negb ((attempt =? 1) || (attempt =? 2))
  then raise (ValueError AttemptNotEither1Or2)
  else
    do content <- chat_completion (ReqVocabHint vocab_row user_answer attempt);
    ret (strip content).

(** ** vocab_session_controller *)

Definition vocab_all_done : string :=
  "🎉 你已經完成哂今日所有生字啦，做得好叻！輸入 'warm up' 開始今日既 Reading Warm-up Exercise 啦~".

Definition vocab_reentry : string :=
  "各位同學今朝俾咗大家幾個生字，唔知道大家記得幾多呢？無論你學咗幾多都唔緊要，跟住落嚟我哋一齊去背呢幾隻生字啦！"
  +:+ newline +:+ "            " +:+ newline
  +:+ "            你準備好嘅時候請先輸入 'vocab' 開始今日生字學習 ✍️".

Definition start_vocab_session (phone_number : Z) : M unit :=
  do vocab_row <- get_current_vocab_row phone_number;
  match vocab_row with
  | None =>
      run send_whatsapp_message phone_number vocab_all_done;
      ret tt
  | Some vocab_row =>
      do message <- ask_vocab_meaning_question vocab_row;
      run modify (set_vocab_sessions
                    (insert phone_number (mkVocabSession 1 vocab_row)));
      run send_whatsapp_message phone_number message;
      ret tt
  end.

(** [del vocab_sessions[phone_number]] *)
Definition del_vocab_session (phone_number : Z) : M unit :=
  fun w =>
    match py_del (vocab_sessions w) phone_number with
    | Ok d => (Ok tt, set_vocab_sessions (fun _ => d) w)
    | Raise e => (Raise e, w)
    end.

(** [vocab_sessions[phone_number]["attempt"] = a] *)
Definition set_vocab_attempt (phone_number : Z) (a : Z) : M unit :=
  fun w =>
    match vocab_sessions w !! phone_number with
    | Some session =>
        (Ok tt,
         set_vocab_sessions
           (insert phone_number (mkVocabSession a (last_vocab session))) w)
    | None => (Raise KeyError, w)
    end.

Definition handle_vocab_reply (phone_number : Z) (user_reply : string)
  : M unit :=
  do w <- get;
  match vocab_sessions w !! phone_number with
  | None =>
      run send_whatsapp_message phone_number vocab_reentry;
      ret tt
  | Some session =>
      let vocab_row := last_vocab session in
      let correct_answer := ChineseExplaination vocab_row in
      let attempt := v_attempt session in
      do is_correct <- evaluate_answer user_reply correct_answer;
      if is_correct then
        do msg <- give_vocab_correct_reply vocab_row;
        run send_whatsapp_message phone_number msg;
        run advance_vocab_index phone_number;
        run del_vocab_session phone_number;
        start_vocab_session phone_number
      else if attempt =? 1 then
        do msg <- give_vocab_hint_or_explanation vocab_row user_reply 1;
        run set_vocab_attempt phone_number 2;
        run send_whatsapp_message phone_number msg;
        ret tt
      else
        do msg <- give_vocab_hint_or_explanation vocab_row user_reply 2;
        run advance_vocab_index phone_number;
        run del_vocab_session phone_number;
        run send_whatsapp_message phone_number msg;
        start_vocab_session phone_number
  end.

(** ** reading_session_controller *)

Definition reading_reentry : string :=
  "請先輸入 'reading' 開始今日閱讀任務 ✍️".

Definition try_again_prefix : string := "❓再試吓回答呢條問題啦：".

Definition start_reading_session
    (phone_number : Z) (prior_learning : option string) : M unit :=
  do passage <- get_passage phone_number;
  do question <- get_current_question phone_number;
  do student_name <- get_student_name_by_phone phone_number;
  let prior_learning :=
    match prior_learning with
    | Some p => if truthy p then p else EmptyString
    | None => EmptyString
    end in
  do full_message <- generate_question_message question student_name prior_learning;
  run modify (set_reading_sessions
                (insert phone_number
                   (mkReadingSession passage question 1
                      EmptyString EmptyString)));
  run send_whatsapp_message phone_number full_message;
  ret tt.

(** [del reading_sessions[phone_number]] *)
Definition del_reading_session (phone_number : Z) : M unit :=
  fun w =>
    match py_del (reading_sessions w) phone_number with
    | Ok d => (Ok tt, set_reading_sessions (fun _ => d) w)
    | Raise e => (Raise e, w)
    end.

(** [session] is the dictionary stored under [phone_number], so the
    assignments to [session["mode"]], [session["last_user_answer"]] and
    [session["attempt"]] change the stored session. *)
Definition enter_reflection (user_reply : string) (s : ReadingSession)
  : ReadingSession :=
  mkReadingSession (r_passage s) (r_question s) (r_attempt s)
    "reflection" user_reply.

Definition increment_attempt (s : ReadingSession) : ReadingSession :=
  mkReadingSession (r_passage s) (r_question s) (r_attempt s + 1)
    (r_mode s) (last_user_answer s).

Definition handle_reading_reply (phone_number : Z) (user_reply : string)
  : M unit :=
  do w <- get;
  match reading_sessions w !! phone_number with
  | None =>
      run send_whatsapp_message phone_number reading_reentry;
      ret tt
  | Some session =>
      if String.eqb (r_mode session) "reflection" then
        let reflection_reply := user_reply in
        let question := r_question session in
        do correct_answer <- get_current_answer phone_number;
        let passage := r_passage session in
        do response <-
          respond_to_reflection reflection_reply question correct_answer passage;
        run send_whatsapp_message phone_number response;
        run advance_question_progress phone_number;
        run del_reading_session phone_number;
        start_reading_session phone_number (Some reflection_reply)
      else
        let passage := r_passage session in
        let question := r_question session in
        let attempt := r_attempt session in
        do correct_answer <- get_current_answer phone_number;
        do answering <- is_student_answering_question user_reply question;
        if negb answering then
          do relevant <- is_reply_relevant_to_learning user_reply question;
          if relevant then
            do reply <- generate_answer_to_student_question user_reply;
            run send_whatsapp_message phone_number reply;
            ret tt
          else
            do response <- handle_irrelevant_input_with_llm user_reply;
            run send_whatsapp_message phone_number response;
            ret tt
        else
          do is_correct <- evaluate_answer user_reply correct_answer;
          if is_correct then
            do why_msg <- ask_why_correct question user_reply passage;
            run send_whatsapp_message phone_number why_msg;
            run modify (set_reading_sessions
                          (alter (enter_reflection user_reply) phone_number));
            ret tt
          else if attempt <? 3 then
            do hint_msg <-
              give_hint_or_explanation
                user_reply correct_answer question passage attempt;
            run modify (set_reading_sessions
                          (alter increment_attempt phone_number));
            run send_whatsapp_message phone_number hint_msg;
            run send_whatsapp_message phone_number (try_again_prefix +:+ question);
            ret tt
          else
            do explanation <-
              give_hint_or_explanation
                user_reply correct_answer question passage 3;
            run send_whatsapp_message phone_number explanation;
            run advance_question_progress phone_number;
            run del_reading_session phone_number;
            start_reading_session phone_number None
  end.

(** ** open_reading_session_controller *)

Definition open_reentry : string :=
  "請先輸入 'Warm up' 開始開放式閱讀任務 ✍️".

Definition open_redirect : string :=
  "呢個問題好有趣，但不如我哋先集中討論文章內容 😄".

Definition start_open_reading_session (phone_number : Z) : M unit :=
  do question <- get_open_question phone_number;
  run modify (set_open_reading_sessions
                (insert phone_number (mkOpenSession question)));
  do message <- ask_open_question question;
  run send_whatsapp_message phone_number message;
  ret tt.

(** [del open_reading_sessions[phone_number]] *)
Definition del_open_reading_session (phone_number : Z) : M unit :=
  fun w =>
    match py_del (open_reading_sessions w) phone_number with
    | Ok d => (Ok tt, set_open_reading_sessions (fun _ => d) w)
    | Raise e => (Raise e, w)
    end.

Definition handle_open_reading_reply (phone_number : Z) (user_reply : string)
  : M unit :=
  do w <- get;
  match open_reading_sessions w !! phone_number with
  | None =>
      run send_whatsapp_message phone_number open_reentry;
      ret tt
  | Some session =>
      let question := o_question session in
      do relevant <- is_reply_relevant_to_learning user_reply question;
      if negb relevant then
        run send_whatsapp_message phone_number open_redirect;
        ret tt
      else
        do learning_objective <- get_open_question_objective phone_number;
        do answer <- get_open_question_ans phone_number;
        do reply <-
          respond_to_open_answer user_reply question learning_objective answer;
        run send_whatsapp_message phone_number reply;
        run advance_open_question_progress phone_number;
        run del_open_reading_session phone_number;
        start_open_reading_session phone_number
  end.

(** ** whatsapp_webhook *)

(** [last_sent_messages.get] with the empty string as default. *)
Definition last_sent_or_empty (w : World) (phone_number : Z) : string :=
  match last_sent_messages w !! phone_number with
  | Some m => m
  | None => EmptyString
  end.

(** Step 3 of [receive_message], the default fallback: the message is
    judged against the last message sent to the student. *)
Definition default_fallback
    (phone_number : Z) (message question_prompt : string) : M unit :=
  do answering <- is_student_answering_question message question_prompt;
  if answering then
    handle_vocab_reply phone_number message
  else
    do relevant <- is_reply_relevant_to_learning message question_prompt;
    if relevant then
      do response <- generate_answer_to_student_question message;
      run send_whatsapp_message phone_number response;
      start_vocab_session phone_number
    else
      do response <- handle_irrelevant_input_with_llm message;
      run send_whatsapp_message phone_number response;
      ret tt.

(** [receive_message]: [phone_number] and [raw_message] are
    [data["phone_number"]] and [data["message"]]. *)
Definition receive_message (phone_number : Z) (raw_message : string) : M unit :=
  let message := lower (strip raw_message) in
  do student_name <- get_student_name_by_phone phone_number;
  (* 1. Command-based triggers *)
  if contains "start" message then
    do greet <- greet_student student_name;
    run send_whatsapp_message phone_number greet;
    ret tt
  else if contains "vocab" message then
    start_vocab_session phone_number
  else if contains "reading" message then
    start_reading_session phone_number None
  else if contains "warm up" message then
    start_open_reading_session phone_number
  else
    do w <- get;
    (* 2. Ongoing session check *)
    if bool_decide (is_Some (open_reading_sessions w !! phone_number)) then
      handle_open_reading_reply phone_number message
    else if bool_decide (is_Some (reading_sessions w !! phone_number)) then
      handle_reading_reply phone_number message
    else
      (* 3. Default fallback *)
      let question_prompt := last_sent_or_empty w phone_number in
      default_fallback phone_number message question_prompt.

(** ** The three tracks, uniformly *)

Inductive Track := vocab | closed | open.

Definition track_column (t : Track) : Column :=
  match t with
  | vocab => col_current_vocab_number
  | closed => col_current_question_number
  | open => col_current_open_question_number
  end.

Definition cursor (t : Track) (row : UserRow) : Z :=
  match t with
  | vocab => current_vocab_number row
  | closed => current_question_number row
  | open => current_open_question_number row
  end.

Definition start_session (t : Track) (phone_number : Z)
    (prior_learning : option string) : M unit :=
  match t with
  | vocab => start_vocab_session phone_number
  | closed => start_reading_session phone_number prior_learning
  | open => start_open_reading_session phone_number
  end.

Definition handle_reply (t : Track) (phone_number : Z) (user_reply : string)
  : M unit :=
  match t with
  | vocab => handle_vocab_reply phone_number user_reply
  | closed => handle_reading_reply phone_number user_reply
  | open => handle_open_reading_reply phone_number user_reply
  end.

(** Whether the student has a session in the track. *)
Definition has_session (t : Track) (phone_number : Z) (w : World) : bool :=
  match t with
  | vocab => bool_decide (is_Some (vocab_sessions w !! phone_number))
  | closed => bool_decide (is_Some (reading_sessions w !! phone_number))
  | open => bool_decide (is_Some (open_reading_sessions w !! phone_number))
  end.

(** The messages handed to the WhatsApp bot, and the cells written. *)
Definition is_post (e : Effect) : bool :=
  match e with Post _ _ _ => true | _ => false end.

Definition is_update (e : Effect) : bool :=
  match e with UpdateCell _ _ _ => true | _ => false end.

Definition posts (w : World) : list Effect := List.filter is_post (effects w).

Definition cell_updates (w : World) : list Effect :=
  List.filter is_update (effects w).

(** ** A small classroom, for running the program *)

Module Classroom.

Definition amy : Z := 85254069056.
Definition ben : Z := 85291234567.

Definition users : list UserRow :=
  [ mkUserRow ben "Ben" 1 1 0 1;
    mkUserRow amy "Amy" 1 1 0 1 ].

Definition adapt : VocabRow :=
  mkVocabRow 1 "adapt" "verb" "Animals adapt to cold weather." "適應"
    "think of a chameleon" "apt" "a story".

Definition fragile : VocabRow :=
  mkVocabRow 1 "fragile" "adjective" "The vase is fragile." "易碎"
    "handle with care" "frag" "another story".

Definition vocabulary : list VocabRow := [adapt; fragile].

Definition closed_questions : list ClosedRow :=
  [ mkClosedRow 1 1 "Where does Tom live?" "in london" "Tom lives in London." ;
    mkClosedRow 1 2 "Who is Tom?" "a student" "Tom lives in London." ].

Definition open_questions : list OpenRow :=
  [ mkOpenRow 1 1 "What would you do?" "empathy" "help him" ].

Definition verdict (field : string) (b : bool) : string :=
  "{" +:+ String dquote (field +:+ String dquote
    (if b then ": true}" else ": false}")).

(** A scripted judge: an answer is correct when it equals the model
    answer, a message with a question mark is not an answer, and a
    message that mentions english is relevant. *)
Definition judge (_ : nat) (request : LLMRequest) : option string :=
  match request with
  | ReqEvaluateAnswer a c => Some (verdict "is_correct" (String.eqb a c))
  | ReqIsAnswering r _ => Some (verdict "answered" (negb (contains "?" r)))
  | ReqIsRelevant r _ => Some (verdict "relevant" (contains "english" r))
  | ReqGreet n => Some ("Hello " +:+ n)
  | ReqAnswerQuestion _ => Some "direct answer"
  | ReqIrrelevant _ => Some "back to english"
  | ReqQuestionMessage _ _ _ => Some "ready?"
  | ReqHint _ _ _ _ _ => Some "a hint"
  | ReqWhyCorrect _ _ _ => Some "why?"
  | ReqReflection _ _ _ _ => Some "well reasoned"
  | ReqOpenQuestion q => Some q
  | ReqOpenAnswer _ _ _ _ => Some "good thinking"
  | ReqVocabQuestion v => Some ("do you know " +:+ Vocabulary v)
  | ReqVocabCorrect _ => Some "well done"
  | ReqVocabHint _ _ _ => Some "a vocab hint"
  end.

(** A judge whose verdict on correctness carries both markers. *)
Definition two_faced (_ : nat) (request : LLMRequest) : option string :=
  match request with
  | ReqEvaluateAnswer _ _ =>
      Some (verdict "is_correct" true +:+ " or " +:+ verdict "is_correct" false)
  | _ => Some "text"
  end.

Definition delivers (_ : nat) (_ : Z) (_ : string) : TransportReply := Status200.
Definition offline (_ : nat) (_ : Z) (_ : string) : TransportReply :=
  TransportRaises.

Definition fresh (us : list UserRow)
    (tr : nat -> Z -> string -> TransportReply) : World :=
  mkWorld us vocabulary closed_questions open_questions
    ∅ ∅ ∅ ∅ 0%nat judge tr [].

(** The first day, nothing started. *)
Definition morning : World := fresh users delivers.

(** Amy has used up every item of the day in every track. *)
Definition finished_users : list UserRow :=
  [ mkUserRow ben "Ben" 1 1 0 1;
    mkUserRow amy "Amy" 1 3 2 2 ].

Definition evening : World := fresh finished_users delivers.

End Classroom.

(** ** Vocabulary of the properties *)

(** The attempt counters of the stored sessions: 1 or 2 for a vocabulary
    session, 1 to 3 for a closed-reading session that is not in reflection
    mode. *)
Definition attempt_bounds (w : World) : Prop :=
  (forall p s, vocab_sessions w !! p = Some s ->
               v_attempt s = 1 \/ v_attempt s = 2)
  /\ (forall p s, reading_sessions w !! p = Some s ->
                  r_mode s <> "reflection" -> 1 <= r_attempt s <= 3).

(** Amy in the middle of the morning: a vocabulary session and a
    closed-reading session on their first attempt. *)
Definition midmorning : World :=
  set_vocab_sessions (insert Classroom.amy (mkVocabSession 1 Classroom.adapt))
    (set_reading_sessions
       (insert Classroom.amy
          (mkReadingSession "Tom lives in London." "Where does Tom live?"
             1 EmptyString EmptyString))
       Classroom.morning).

(** The verdict that [send_whatsapp_message] returns for a reply of the
    bot. *)
Definition delivered (reply : TransportReply) : bool :=
  match reply with Status200 => true | _ => false end.

(** The world once [send_whatsapp_message phone_number message] is over. *)
Definition sent (phone_number : Z) (message : string) (w : World) : World :=
  emit 1 (Post phone_number message
            (transport w (clock w) phone_number message))
    (set_last_sent_messages (insert phone_number message) w).

(** The function that moves the cursor of a track. *)
Definition advance_cursor (t : Track) (phone_number : Z) : M unit :=
  match t with
  | vocab => advance_vocab_index phone_number
  | closed => advance_question_progress phone_number
  | open => advance_open_question_progress phone_number
  end.

(** The student is on the user sheet. *)
Definition registered (w : World) (phone_number : Z) : Prop :=
  is_Some (find_row_index (user_sheet w) phone_number 2).

(** [us'] is [us] with the cursor of track [t] one further in the row of
    the student, and nothing else changed. *)
Definition cursor_advanced
    (t : Track) (phone_number : Z) (us us' : list UserRow) : Prop :=
  exists i row,
    find_row_index us phone_number 2 = Some i
    /\ us !! Z.to_nat (i - 2) = Some row
    /\ us' = <[Z.to_nat (i - 2) :=
                 set_column (track_column t) (cursor t row + 1) row]> us.

(** The sessions and the progress store are as before: what a call to
    the judge or to the bot leaves behind. *)
Definition calm (w w' : World) : Prop :=
  user_sheet w' = user_sheet w
  /\ vocab_sheet w' = vocab_sheet w
  /\ close_reading_sheet w' = close_reading_sheet w
  /\ open_reading_sheet w' = open_reading_sheet w
  /\ vocab_sessions w' = vocab_sessions w
  /\ reading_sessions w' = reading_sessions w
  /\ open_reading_sessions w' = open_reading_sessions w
  /\ cell_updates w' = cell_updates w.

(** [del sessions[phone_number]] for the session map of a track. *)
Definition drop_session (t : Track) (phone_number : Z) (w : World) : World :=
  match t with
  | vocab => set_vocab_sessions (delete phone_number) w
  | closed => set_reading_sessions (delete phone_number) w
  | open => set_open_reading_sessions (delete phone_number) w
  end.

(** The world once an item of track [t] is closed for the student found at
    sheet row [i] with record [row]: the cursor cell is written, then the
    session is deleted. *)
Definition closed_out
    (t : Track) (phone_number i : Z) (row : UserRow) (w : World) : World :=
  drop_session t phone_number
    (emit 0 (UpdateCell i (track_column t) (cursor t row + 1))
       (set_user_sheet
          (fun us => <[Z.to_nat (i - 2) :=
                        set_column (track_column t) (cursor t row + 1) row]> us)
          w)).

(** The progress store is as before: same user sheet, no cell written. *)
Definition store_kept (w w' : World) : Prop :=
  user_sheet w' = user_sheet w /\ cell_updates w' = cell_updates w.

(** The five ways a reply completes an item, each given by the session the
    handler finds and by what the judge answers on its way. *)
Inductive completion_event : Track -> Z -> string -> World -> Prop :=
| vocab_answered_correctly p reply w s w1 msg w2 :
    registered w p ->
    vocab_sessions w !! p = Some s ->
    evaluate_answer reply (ChineseExplaination (last_vocab s)) w
      = (Ok true, w1) ->
    give_vocab_correct_reply (last_vocab s) w1 = (Ok msg, w2) ->
    completion_event vocab p reply w
| vocab_second_attempt_wrong p reply w s w1 msg w2 :
    registered w p ->
    vocab_sessions w !! p = Some s ->
    v_attempt s = 2 ->
    evaluate_answer reply (ChineseExplaination (last_vocab s)) w
      = (Ok false, w1) ->
    give_vocab_hint_or_explanation (last_vocab s) reply 2 w1 = (Ok msg, w2) ->
    completion_event vocab p reply w
| closed_third_attempt_wrong p reply w s answer w1 w2 explanation w3 :
    registered w p ->
    reading_sessions w !! p = Some s ->
    r_mode s <> "reflection" ->
    r_attempt s = 3 ->
    get_current_answer p w = (Ok answer, w) ->
    is_student_answering_question reply (r_question s) w = (Ok true, w1) ->
    evaluate_answer reply answer w1 = (Ok false, w2) ->
    give_hint_or_explanation reply answer (r_question s) (r_passage s) 3 w2
      = (Ok explanation, w3) ->
    completion_event closed p reply w
| closed_reflection_handled p reply w s answer response w1 :
    registered w p ->
    reading_sessions w !! p = Some s ->
    r_mode s = "reflection" ->
    get_current_answer p w = (Ok answer, w) ->
    respond_to_reflection reply (r_question s) answer (r_passage s) w
      = (Ok response, w1) ->
    completion_event closed p reply w
| open_reply_relevant p reply w s w1 objective answer :
    registered w p ->
    open_reading_sessions w !! p = Some s ->
    is_reply_relevant_to_learning reply (o_question s) w = (Ok true, w1) ->
    get_open_question_objective p w1 = (Ok objective, w1) ->
    get_open_question_ans p w1 = (Ok answer, w1) ->
    completion_event open p reply w.

(** A world in which the bot is unreachable and Amy is on her second
    attempt at the first word. *)
Definition second_try_offline : World :=
  set_vocab_sessions (insert Classroom.amy (mkVocabSession 2 Classroom.adapt))
    (Classroom.fresh Classroom.users Classroom.offline).

(** Whether a message carries one of the four command words. *)
Definition has_trigger (message : string) : bool :=
  contains "start" message || contains "vocab" message
  || contains "reading" message || contains "warm up" message.

(** The effects of [w] start with [l]. *)
Definition extends (l : list Effect) (w : World) : Prop :=
  exists rest, effects w = l ++ rest.

(** Amy with an open-reading and a closed-reading session at once. *)
Definition both_readings : World :=
  set_open_reading_sessions
    (insert Classroom.amy (mkOpenSession "What would you do?"))
    midmorning.

(** The first morning with the bot unreachable. *)
Definition offline_morning : World :=
  Classroom.fresh Classroom.users Classroom.offline.

(** The first morning with a judge that puts both verdicts in its reply. *)
Definition double_verdict : World :=
  mkWorld Classroom.users Classroom.vocabulary Classroom.closed_questions
    Classroom.open_questions ∅ ∅ ∅ ∅ 0%nat Classroom.two_faced
    Classroom.delivers [].

(** No content item is left for the student in a track: the lookup that
    the start of the track relies on finds nothing. *)
Definition no_content_remaining (t : Track) (p : Z) (w : World) : Prop :=
  match t with
  | vocab => fst (get_current_vocab_row p w) = Ok None
  | closed =>
      fst (get_current_question p w) = Raise (ValueError CannotFindQuestion)
  | open =>
      fst (get_open_question p w) = Raise (ValueError CannotFindOpenQuestion)
  end.

(** The three session maps are as before. *)
Definition sessions_kept (w w' : World) : Prop :=
  vocab_sessions w' = vocab_sessions w
  /\ reading_sessions w' = reading_sessions w
  /\ open_reading_sessions w' = open_reading_sessions w.

(** Starting the track returns normally, creates no session and hands
    exactly one message for the student to the bot. *)
Definition starts_with_one_notice
    (t : Track) (p : Z) (l : option string) (w : World) : Prop :=
  let out := start_session t p l w in
  fst out = Ok tt
  /\ sessions_kept w (snd out)
  /\ exists text reply, posts (snd out) = posts w ++ [Post p text reply].

(** Amy on her third attempt at the first word, a state that the handler
    itself never produces. *)
Definition third_try : World :=
  set_vocab_sessions (insert Classroom.amy (mkVocabSession 3 Classroom.adapt))
    Classroom.morning.

(** [preserves P m]: whatever [m] does, and however it ends, a world in [P]
    is left in [P]. *)
Definition preserves {A} (P : World -> Prop) (m : M A) : Prop :=
  forall w, P w -> P (snd (m w)).

(** [never_raises e m]: [m] does not end with exception [e]. *)
Definition never_raises {A} (e : Exn) (m : M A) : Prop :=
  forall w, fst (m w) <> Raise e.

(** A needle whose last character exists and is not white space. *)
Fixpoint ends_tight (needle : string) : bool :=
  match needle with
  | EmptyString => false
  | String a EmptyString => negb (is_space a)
  | String _ n => ends_tight n
  end.

(** A needle whose first character exists and is not white space. *)
Definition starts_tight (needle : string) : bool :=
  match needle with
  | EmptyString => false
  | String a _ => negb (is_space a)
  end.

(** A visible ASCII character: below 128 and not white space.  Every
    blank that Python's [strip] removes beyond the ASCII ones is encoded
    in bytes above 127, so such a byte is the edge of no blank. *)
Definition visible_ascii (c : ascii) : bool :=
  Nat.ltb (nat_of_ascii c) 128 && negb (is_space c).

(** A text whose first character is a visible ASCII character. *)
Definition starts_visible (text : string) : bool :=
  match text with
  | EmptyString => false
  | String a _ => visible_ascii a
  end.

(** A text whose last character is a visible ASCII character. *)
Fixpoint ends_visible (text : string) : bool :=
  match text with
  | EmptyString => false
  | String a EmptyString => visible_ascii a
  | String _ n => ends_visible n
  end.

(** Amy on her third attempt at the first closed question, in reflection
    on it, and waiting on the open question. *)
Definition third_reading_try : World :=
  set_reading_sessions
    (insert Classroom.amy
       (mkReadingSession "Tom lives in London." "Where does Tom live?"
          3 EmptyString "in paris"))
    Classroom.morning.

Definition reflecting : World :=
  set_reading_sessions
    (insert Classroom.amy
       (mkReadingSession "Tom lives in London." "Where does Tom live?"
          1 "reflection" "in london"))
    Classroom.morning.

Definition warming_up : World :=
  set_open_reading_sessions
    (insert Classroom.amy (mkOpenSession "What would you do?"))
    Classroom.morning.

(** ** The day rollover of sheet_utils *)

(** Three calls of [update_sheet], each of which looks the row up again
    and writes one cell: the day, then the two cursors that are reset. *)
Definition advance_day_of_training (phone_number : Z) : M unit :=
  do data <- get_user_data phone_number;
  let current_number := day_of_training data in
  let new_number := current_number + 1 in
  run update_sheet phone_number col_day_of_training new_number;
  run update_sheet phone_number col_current_question_number 1;
  update_sheet phone_number col_current_vocab_number 0.

(** The rows of the vocabulary sheet for a training day, in sheet order. *)
Definition vocab_of_day (w : World) (day : Z) : list VocabRow :=
  List.filter (fun v => Day v =? day) (vocab_sheet w).

(** The closed question that a student record points at, if any. *)
Definition closed_row_at (w : World) (user : UserRow) : option ClosedRow :=
  List.find (fun row => (c_day_of_training row =? day_of_training user)
                        && (c_question_id row =? current_question_number user))
    (close_reading_sheet w).

(** The open question that a student record points at, if any. *)
Definition open_row_at (w : World) (user : UserRow) : option OpenRow :=
  List.find (fun row => (o_day_of_training row =? day_of_training user)
                        && (o_question_id row =? current_open_question_number user))
    (open_reading_sheet w).

(** A sheet on which Amy's vocabulary cursor is negative. *)
Definition rewound : World :=
  Classroom.fresh
    [ mkUserRow Classroom.ben "Ben" 1 1 0 1;
      mkUserRow Classroom.amy "Amy" 1 1 (-1) 1 ]
    Classroom.delivers.

(** The two errors that the hint generators raise for an attempt number
    outside their range. *)
Definition attempt_error (e : Exn) : Prop :=
  e = ValueError AttemptNotBetween1And3 \/ e = ValueError AttemptNotEither1Or2.

(** A closed-reading session whose attempt counter is 0, which no start and
    no handler produces. *)
Definition zeroth_reading_try : World :=
  set_reading_sessions
    (insert Classroom.amy
       (mkReadingSession "Tom lives in London." "Where does Tom live?"
          0 EmptyString EmptyString))
    Classroom.morning.

(** The instruction a reply handler sends when the student has no session
    in its track. *)
Definition reentry_text (t : Track) : string :=
  match t with
  | vocab => vocab_reentry
  | closed => reading_reentry
  | open => open_reentry
  end.

(** Amy on her second attempt at the first closed question. *)
Definition second_reading_try : World :=
  set_reading_sessions
    (insert Classroom.amy
       (mkReadingSession "Tom lives in London." "Where does Tom live?"
          2 EmptyString EmptyString))
    Classroom.morning.

(** The first morning with a judge whose client always fails. *)
Definition silent_judge : World :=
  mkWorld Classroom.users Classroom.vocabulary Classroom.closed_questions
    Classroom.open_questions ∅ ∅ ∅ ∅ 0%nat (fun _ _ => None)
    Classroom.delivers [].

(** An effect that is no message to anyone but [p]. *)
Definition addressed_to (p : Z) (e : Effect) : Prop :=
  match e with
  | Post q _ _ => q = p
  | _ => True
  end.

(** Nothing of any student but [p] differs between [w] and [w']: sessions,
    last message sent, record on the user sheet; and whatever was sent in
    between was sent to [p]. *)
Definition others_kept (p : Z) (w w' : World) : Prop :=
  (forall q, q <> p ->
     vocab_sessions w' !! q = vocab_sessions w !! q
     /\ reading_sessions w' !! q = reading_sessions w !! q
     /\ open_reading_sessions w' !! q = open_reading_sessions w !! q
     /\ last_sent_messages w' !! q = last_sent_messages w !! q
     /\ fst (get_user_data q w') = fst (get_user_data q w))
  /\ exists rest,
       effects w' = effects w ++ rest /\ Forall (addressed_to p) rest.

(** A record keeps phone number, name and training day, and no cursor of
    it has gone back. *)
Definition record_grows (r r' : UserRow) : Prop :=
  phone_no r' = phone_no r
  /\ eng_name r' = eng_name r
  /\ day_of_training r' = day_of_training r
  /\ current_question_number r <= current_question_number r'
  /\ current_vocab_number r <= current_vocab_number r'
  /\ current_open_question_number r <= current_open_question_number r'.

(** The user sheet has the same rows, each grown, and the three content
    sheets are the same. *)
Definition sheets_grow (w w' : World) : Prop :=
  Forall2 record_grows (user_sheet w) (user_sheet w')
  /\ vocab_sheet w' = vocab_sheet w
  /\ close_reading_sheet w' = close_reading_sheet w
  /\ open_reading_sheet w' = open_reading_sheet w.

(** The session of a track holds the item that the cursor of the student
    points at: what the start function of the track would read now. *)
Definition vocab_session_current (w : World) (q : Z) (s : VocabSession)
  : Prop :=
  fst (get_current_vocab_row q w) = Ok (Some (last_vocab s)).

Definition reading_session_current (w : World) (q : Z) (s : ReadingSession)
  : Prop :=
  fst (get_passage q w) = Ok (r_passage s)
  /\ fst (get_current_question q w) = Ok (r_question s).

Definition open_session_current (w : World) (q : Z) (s : OpenSession)
  : Prop :=
  fst (get_open_question q w) = Ok (o_question s).

(** Every session of every student holds the current item of its track. *)
Definition sessions_current (w : World) : Prop :=
  (forall q s, vocab_sessions w !! q = Some s -> vocab_session_current w q s)
  /\ (forall q s,
        reading_sessions w !! q = Some s -> reading_session_current w q s)
  /\ (forall q s,
        open_reading_sessions w !! q = Some s -> open_session_current w q s).

(** Two readings of a student record point at the same item of track [t]:
    same training day and same cursor, or the same failure. *)
Definition same_pointer (t : Track) (r r' : Result UserRow) : Prop :=
  match r, r' with
  | Ok u, Ok u' =>
      day_of_training u' = day_of_training u /\ cursor t u' = cursor t u
  | Raise e, Raise e' => e' = e
  | _, _ => False
  end.

(** The three content sheets are the same. *)
Definition same_content (w w' : World) : Prop :=
  vocab_sheet w' = vocab_sheet w
  /\ close_reading_sheet w' = close_reading_sheet w
  /\ open_reading_sheet w' = open_reading_sheet w.

(** The first morning once Amy has typed [reading]. *)
Definition reading_started : World :=
  snd (receive_message Classroom.amy "reading" Classroom.morning).

(** An effect that is a message handed to the bot for [p]. *)
Definition posted_to (p : Z) (e : Effect) : Prop :=
  match e with
  | Post q _ _ => q = p
  | _ => False
  end.

(** Whenever [m] returns, it has handed a message for [p] to the bot. *)
Definition replies (p : Z) {A} (m : M A) : Prop :=
  forall w a w', m w = (Ok a, w') ->
    exists rest, effects w' = effects w ++ rest /\ Exists (posted_to p) rest.

(** [m] only ever adds to the effects. *)
Definition grows {A} (m : M A) : Prop :=
  forall l, preserves (extends l) m.

(** The last message handed to the bot for [q] among the effects [l]. *)
Definition note_post (q : Z) (acc : option string) (e : Effect)
  : option string :=
  match e with
  | Post q' m _ => if q' =? q then Some m else acc
  | _ => acc
  end.

Definition last_posted (q : Z) (l : list Effect) : option string :=
  fold_left (note_post q) l None.

(** [last_sent_messages] records, for every student, the last message
    that was handed to the bot for them. *)
Definition last_sent_is_last_posted (w : World) : Prop :=
  forall q, last_sent_messages w !! q = last_posted q (effects w).

(** The exceptions of the session bookkeeping and of the delivery:
    [del] or an update of a session that is not there, and what
    [requests.post] and [response.json()] raise. *)
Definition bookkeeping_or_delivery (e : Exn) : Prop :=
  e = KeyError \/ e = RequestException \/ e = JSONDecodeError.

(** From a world where [Q] holds, [m] does not end in [e]. *)
Definition never_raises_from (Q : World -> Prop) {A} (e : Exn) (m : M A)
  : Prop :=
  forall w, Q w -> fst (m w) <> Raise e.

(** * Reasoning about the monad *)

Lemma bind_ok {A B} (m : M A) (f : A -> M B) w a w' :
  m w = (Ok a, w') -> bind m f w = f a w'.
Proof. intros H. unfold bind. now rewrite H. Qed.

Lemma bind_raise {A B} (m : M A) (f : A -> M B) w e w' :
  m w = (Raise e, w') -> bind m f w = (Raise e, w').
Proof. intros H. unfold bind. now rewrite H. Qed.

Section MonadRules.
Context {A B : Type} (P : World -> Prop).

Lemma preserves_ret (a : A) : preserves P (ret a).
Proof. now intros w Hw. Qed.

Lemma preserves_raise (e : Exn) : preserves P (@raise A e).
Proof. now intros w Hw. Qed.

Lemma preserves_get : preserves P get.
Proof. now intros w Hw. Qed.

Lemma preserves_modify (f : World -> World) :
  (forall w, P w -> P (f w)) -> preserves P (modify f).
Proof. intros Hf w Hw. now apply Hf. Qed.

Lemma preserves_bind (m : M A) (f : A -> M B) :
  preserves P m -> (forall a, preserves P (f a)) -> preserves P (bind m f).
Proof.
  intros Hm Hf w Hw. unfold bind.
  specialize (Hm w Hw). destruct (m w) as [[a|e] w']; cbn in *.
  - now apply Hf.
  - exact Hm.
Qed.

Lemma preserves_try_except (m : M A) (h : Exn -> M A) :
  preserves P m -> (forall e, preserves P (h e)) ->
  preserves P (try_except m h).
Proof.
  intros Hm Hh w Hw. unfold try_except.
  specialize (Hm w Hw). destruct (m w) as [[a|e] w']; cbn in *.
  - exact Hm.
  - now apply Hh.
Qed.

(** A computation that reads only. *)
Lemma preserves_reader (m : M A) :
  (forall w, snd (m w) = w) -> preserves P m.
Proof. intros Hm w Hw. now rewrite Hm. Qed.

Lemma never_raises_ret e (a : A) : never_raises e (ret a).
Proof. now intros w. Qed.

Lemma never_raises_raise e e' : e' <> e -> never_raises e (@raise A e').
Proof. intros Hne w. cbn. congruence. Qed.

Lemma never_raises_bind e (m : M A) (f : A -> M B) :
  never_raises e m -> (forall a, never_raises e (f a)) ->
  never_raises e (bind m f).
Proof.
  intros Hm Hf w. unfold bind. specialize (Hm w).
  destruct (m w) as [[a|e'] w']; cbn in *.
  - apply Hf.
  - congruence.
Qed.

Lemma never_raises_try_except e (m : M A) (h : Exn -> M A) :
  never_raises e m -> (forall e', e' <> e -> never_raises e (h e')) ->
  never_raises e (try_except m h).
Proof.
  intros Hm Hh w. unfold try_except. specialize (Hm w).
  destruct (m w) as [[a|e'] w']; cbn in *.
  - discriminate.
  - apply Hh. congruence.
Qed.
End MonadRules.

Lemma preserves_and {A} (P Q : World -> Prop) (m : M A) :
  preserves P m -> preserves Q m -> preserves (fun w => P w /\ Q w) m.
Proof. intros HP HQ w [? ?]. split; [now apply HP | now apply HQ]. Qed.

Lemma preserves_run {A} (P : World -> Prop) (m : M A) w r w' :
  preserves P m -> P w -> m w = (r, w') -> P w'.
Proof. intros Hm Hw E. specialize (Hm w Hw). now rewrite E in Hm. Qed.

(** ** The sheet readers change nothing *)

Ltac reader_step :=
  match goal with
  | |- context [match ?x with _ => _ end] => destruct x eqn:?; cbn
  | |- context [if ?b then _ else _] => destruct b eqn:?; cbn
  end.

Ltac reader := intros; cbv [bind get ret raise py_getitem]; cbn;
  repeat reader_step; reflexivity.

Lemma get_row_index_by_phone_reads p w :
  snd (get_row_index_by_phone p w) = w.
Proof. unfold get_row_index_by_phone. reader. Qed.

Lemma get_student_name_by_phone_reads p w :
  snd (get_student_name_by_phone p w) = w.
Proof. unfold get_student_name_by_phone. reader. Qed.

Lemma reader_bind {A B} (m : M A) (f : A -> M B) :
  (forall w, snd (m w) = w) -> (forall a w, snd (f a w) = w) ->
  forall w, snd (bind m f w) = w.
Proof.
  intros Hm Hf w. unfold bind. specialize (Hm w).
  destruct (m w) as [[a|e] w']; cbn in *; subst; [apply Hf | reflexivity].
Qed.

Lemma get_user_data_reads p w : snd (get_user_data p w) = w.
Proof.
  revert w. unfold get_user_data.
  apply reader_bind; [apply get_row_index_by_phone_reads |].
  reader.
Qed.

Ltac lookup_reader :=
  intros; apply reader_bind; [apply get_user_data_reads |];
  intros; cbv [bind get ret raise py_getitem]; cbn;
  repeat reader_step; reflexivity.

Lemma get_passage_reads p w : snd (get_passage p w) = w.
Proof. revert w. unfold get_passage. lookup_reader. Qed.

Lemma get_current_question_reads p w : snd (get_current_question p w) = w.
Proof. revert w. unfold get_current_question. lookup_reader. Qed.

Lemma get_current_answer_reads p w : snd (get_current_answer p w) = w.
Proof. revert w. unfold get_current_answer. lookup_reader. Qed.

Lemma get_open_question_reads p w : snd (get_open_question p w) = w.
Proof. revert w. unfold get_open_question. lookup_reader. Qed.

Lemma get_open_question_objective_reads p w :
  snd (get_open_question_objective p w) = w.
Proof. revert w. unfold get_open_question_objective. lookup_reader. Qed.

Lemma get_open_question_ans_reads p w : snd (get_open_question_ans p w) = w.
Proof. revert w. unfold get_open_question_ans. lookup_reader. Qed.

Lemma py_getitem_reads {A} (l : list A) i w : snd (py_getitem l i w) = w.
Proof. unfold py_getitem. reader. Qed.

Lemma get_current_vocab_row_reads p w : snd (get_current_vocab_row p w) = w.
Proof.
  revert w. unfold get_current_vocab_row.
  apply reader_bind; [apply get_user_data_reads |].
  intros row w. cbv [bind get]. cbn.
  destruct (_ <=? _); [reflexivity |].
  pose proof (py_getitem_reads
    (List.filter (fun v => Day v =? day_of_training row) (vocab_sheet w))
    (current_vocab_number row) w) as H.
  destruct (py_getitem _ _ w) as [[v|e] w']; cbn in *; now subst.
Qed.

(** ** What the remote calls leave alone *)

Create HintDb pres discriminated.

Ltac pres_step :=
  match goal with
  | |- preserves _ (bind _ _) => apply preserves_bind; [| intros ?]
  | |- preserves _ (try_except _ _) => apply preserves_try_except; [| intros ?]
  | |- preserves _ (ret _) => apply preserves_ret
  | |- preserves _ (raise _) => apply preserves_raise
  | |- preserves _ get => apply preserves_get
  | |- preserves _ (modify _) => apply preserves_modify; solve [eauto]
  | |- preserves _ (if ?b then _ else _) => destruct b
  | |- preserves _ (match ?x with _ => _ end) => destruct x
  | |- preserves _ _ => solve [eauto with pres]
  end.

Ltac pres := cbv zeta; repeat pres_step.

Section Wire.
Variable P : World -> Prop.

(** [P] does not look at the chat-completion traffic. *)
Hypothesis P_chat : forall r w, P w -> P (emit 1 (ChatCompletion r) w).

Lemma chat_completion_preserves r : preserves P (chat_completion r).
Proof.
  intros w Hw. unfold chat_completion.
  destruct (llm w (clock w) r); cbn; auto.
Qed.
Hint Resolve chat_completion_preserves : pres.

Lemma greet_student_preserves n : preserves P (greet_student n).
Proof. unfold greet_student. pres. Qed.

Lemma evaluate_answer_preserves a c : preserves P (evaluate_answer a c).
Proof. unfold evaluate_answer. pres. Qed.

Lemma is_student_answering_question_preserves r q :
  preserves P (is_student_answering_question r q).
Proof. unfold is_student_answering_question. pres. Qed.

Lemma is_reply_relevant_to_learning_preserves r q :
  preserves P (is_reply_relevant_to_learning r q).
Proof. unfold is_reply_relevant_to_learning. pres. Qed.

Lemma generate_answer_to_student_question_preserves q :
  preserves P (generate_answer_to_student_question q).
Proof. unfold generate_answer_to_student_question. pres. Qed.

Lemma handle_irrelevant_input_with_llm_preserves i :
  preserves P (handle_irrelevant_input_with_llm i).
Proof. unfold handle_irrelevant_input_with_llm. pres. Qed.

Lemma generate_question_message_preserves q n l :
  preserves P (generate_question_message q n l).
Proof. unfold generate_question_message. pres. Qed.

Lemma give_hint_or_explanation_preserves a c q s n :
  preserves P (give_hint_or_explanation a c q s n).
Proof. unfold give_hint_or_explanation. pres. Qed.

Lemma ask_why_correct_preserves q a s : preserves P (ask_why_correct q a s).
Proof. unfold ask_why_correct. pres. Qed.

Lemma respond_to_reflection_preserves r q c s :
  preserves P (respond_to_reflection r q c s).
Proof. unfold respond_to_reflection. pres. Qed.

Lemma ask_open_question_preserves q : preserves P (ask_open_question q).
Proof. unfold ask_open_question. pres. Qed.

Lemma respond_to_open_answer_preserves r q o a :
  preserves P (respond_to_open_answer r q o a).
Proof. unfold respond_to_open_answer. pres. Qed.

Lemma ask_vocab_meaning_question_preserves v :
  preserves P (ask_vocab_meaning_question v).
Proof. unfold ask_vocab_meaning_question. pres. Qed.

Lemma give_vocab_correct_reply_preserves v :
  preserves P (give_vocab_correct_reply v).
Proof. unfold give_vocab_correct_reply. pres. Qed.

Lemma give_vocab_hint_or_explanation_preserves v a n :
  preserves P (give_vocab_hint_or_explanation v a n).
Proof. unfold give_vocab_hint_or_explanation. pres. Qed.

(** [P] does not look at the messages handed to the bot either. *)
Hypothesis P_post : forall p m r w, P w -> P (emit 1 (Post p m r) w).
Hypothesis P_sent : forall f w, P w -> P (set_last_sent_messages f w).

Lemma requests_post_preserves p m : preserves P (requests_post p m).
Proof.
  intros w Hw. unfold requests_post.
  destruct (transport w (clock w) p m); cbn; auto.
Qed.
Hint Resolve requests_post_preserves : pres.

Lemma send_whatsapp_message_preserves p m :
  preserves P (send_whatsapp_message p m).
Proof.
  unfold send_whatsapp_message. pres.
Qed.
End Wire.

#[export] Hint Resolve chat_completion_preserves greet_student_preserves
  evaluate_answer_preserves is_student_answering_question_preserves
  is_reply_relevant_to_learning_preserves
  generate_answer_to_student_question_preserves
  handle_irrelevant_input_with_llm_preserves
  generate_question_message_preserves give_hint_or_explanation_preserves
  ask_why_correct_preserves respond_to_reflection_preserves
  ask_open_question_preserves respond_to_open_answer_preserves
  ask_vocab_meaning_question_preserves give_vocab_correct_reply_preserves
  give_vocab_hint_or_explanation_preserves requests_post_preserves
  send_whatsapp_message_preserves : pres.

(** ** What the controllers leave alone *)

(** Running one step of a [bind] chain, naming its outcome. *)
Ltac run_bind E :=
  match goal with
  | |- context [bind ?m ?f ?w] =>
      let r := fresh "r" in
      let w' := fresh "w" in
      destruct (m w) as [[r|r] w'] eqn:E;
      [ rewrite (bind_ok m f w r w' E)
      | rewrite (bind_raise m f w r w' E) ]
  end.

Section Controllers.
Variable P : World -> Prop.

Hypothesis P_chat : forall r w, P w -> P (emit 1 (ChatCompletion r) w).
Hypothesis P_post : forall p m r w, P w -> P (emit 1 (Post p m r) w).
Hypothesis P_sent : forall f w, P w -> P (set_last_sent_messages f w).

(** The progress store. *)
Hypothesis P_cell : forall i c d w, P w ->
  P (emit 0 (UpdateCell i c d)
       (set_user_sheet (alter (set_column c d) (Z.to_nat (i - 2))) w)).

(** Sessions created, closed, and changed. *)
Hypothesis P_new_vocab : forall p v w, P w ->
  P (set_vocab_sessions (insert p (mkVocabSession 1 v)) w).
Hypothesis P_second_vocab : forall p v w, P w ->
  P (set_vocab_sessions (insert p (mkVocabSession 2 v)) w).
Hypothesis P_del_vocab : forall p w, P w ->
  P (set_vocab_sessions (delete p) w).
Hypothesis P_new_reading : forall p s q w, P w ->
  P (set_reading_sessions
       (insert p (mkReadingSession s q 1 EmptyString EmptyString)) w).
Hypothesis P_reflect : forall p r w, P w ->
  P (set_reading_sessions (alter (enter_reflection r) p) w).
Hypothesis P_increment : forall p s w,
  reading_sessions w !! p = Some s ->
  String.eqb (r_mode s) "reflection" = false -> r_attempt s < 3 ->
  P w -> P (set_reading_sessions (alter increment_attempt p) w).
Hypothesis P_del_reading : forall p w, P w ->
  P (set_reading_sessions (delete p) w).
Hypothesis P_new_open : forall p q w, P w ->
  P (set_open_reading_sessions (insert p (mkOpenSession q)) w).
Hypothesis P_del_open : forall p w, P w ->
  P (set_open_reading_sessions (delete p) w).

Hint Resolve get_row_index_by_phone_reads get_student_name_by_phone_reads
  get_user_data_reads get_passage_reads get_current_question_reads
  get_current_answer_reads get_open_question_reads
  get_open_question_objective_reads get_open_question_ans_reads
  get_current_vocab_row_reads preserves_reader : pres.

Lemma update_sheet_preserves p c d : preserves P (update_sheet p c d).
Proof.
  unfold update_sheet, update_cell. pres.
Qed.
Hint Resolve update_sheet_preserves : pres.

Lemma advance_vocab_index_preserves p : preserves P (advance_vocab_index p).
Proof. unfold advance_vocab_index. pres. Qed.

Lemma advance_question_progress_preserves p :
  preserves P (advance_question_progress p).
Proof. unfold advance_question_progress. pres. Qed.

Lemma advance_open_question_progress_preserves p :
  preserves P (advance_open_question_progress p).
Proof. unfold advance_open_question_progress. pres. Qed.

Lemma del_vocab_session_preserves p : preserves P (del_vocab_session p).
Proof.
  intros w Hw. unfold del_vocab_session, py_del.
  destruct (vocab_sessions w !! p); cbn; auto; try now apply (P_del_vocab p w).
Qed.

Lemma del_reading_session_preserves p : preserves P (del_reading_session p).
Proof.
  intros w Hw. unfold del_reading_session, py_del.
  destruct (reading_sessions w !! p); cbn; auto; try now apply (P_del_reading p w).
Qed.

Lemma del_open_reading_session_preserves p :
  preserves P (del_open_reading_session p).
Proof.
  intros w Hw. unfold del_open_reading_session, py_del.
  destruct (open_reading_sessions w !! p); cbn; auto; try now apply (P_del_open p w).
Qed.

Lemma set_vocab_attempt_second_preserves p :
  preserves P (set_vocab_attempt p 2).
Proof.
  intros w Hw. unfold set_vocab_attempt.
  destruct (vocab_sessions w !! p); cbn; auto; try now apply (P_second_vocab p _ w).
Qed.

Hint Resolve advance_vocab_index_preserves
  advance_question_progress_preserves
  advance_open_question_progress_preserves del_vocab_session_preserves
  del_reading_session_preserves del_open_reading_session_preserves
  set_vocab_attempt_second_preserves : pres.

Lemma start_vocab_session_preserves p : preserves P (start_vocab_session p).
Proof.
  unfold start_vocab_session. pres.
Qed.

Lemma start_reading_session_preserves p l :
  preserves P (start_reading_session p l).
Proof.
  unfold start_reading_session. pres.
Qed.

Lemma start_open_reading_session_preserves p :
  preserves P (start_open_reading_session p).
Proof.
  unfold start_open_reading_session. pres.
Qed.

Hint Resolve start_vocab_session_preserves start_reading_session_preserves
  start_open_reading_session_preserves : pres.

Lemma start_session_preserves t p l : preserves P (start_session t p l).
Proof. destruct t; cbn; auto with pres. Qed.

Lemma handle_vocab_reply_preserves p r : preserves P (handle_vocab_reply p r).
Proof. unfold handle_vocab_reply. pres. Qed.

Lemma handle_open_reading_reply_preserves p r :
  preserves P (handle_open_reading_reply p r).
Proof. unfold handle_open_reading_reply. pres. Qed.

(** The closed-reading handler increments the attempt of the session it
    found at the start, after three calls to the judge that leave the
    sessions alone. *)
Lemma handle_reading_reply_preserves p r :
  preserves P (handle_reading_reply p r).
Proof.
  intros w Hw. unfold handle_reading_reply.
  rewrite (bind_ok get _ w w w eq_refl).
  destruct (reading_sessions w !! p) as [session|] eqn:Hs;
    [| refine ((_ : preserves P _) w Hw); pres].
  destruct (String.eqb (r_mode session) "reflection") eqn:Hmode;
    [refine ((_ : preserves P _) w Hw); pres |].
  cbv zeta.
  set (P' := fun w' => P w' /\ reading_sessions w' = reading_sessions w).
  assert (HP' : P' w) by (split; auto).
  assert (Hchat : forall q w', P' w' -> P' (emit 1 (ChatCompletion q) w'))
    by (intros q w' [? ?]; split; cbn; auto).
  run_bind E0; [| cbn; pose proof (get_current_answer_reads p w) as R;
                  rewrite E0 in R; cbn in R; now subst].
  pose proof (get_current_answer_reads p w) as R.
  rewrite E0 in R; cbn in R; subst w0.
  run_bind E1;
    pose proof (preserves_run P' _ _ _ _
      (is_student_answering_question_preserves P' Hchat _ _) HP' E1) as H1;
    [| now destruct H1].
  destruct r1; cbn [negb];
    [| refine ((_ : preserves P _) w0 (proj1 H1)); pres].
  run_bind E2;
    pose proof (preserves_run P' _ _ _ _
      (evaluate_answer_preserves P' Hchat _ _) H1 E2) as H2;
    [| now destruct H2].
  destruct r1; [refine ((_ : preserves P _) w1 (proj1 H2)); pres |].
  destruct (r_attempt session <? 3) eqn:Hlt;
    [| refine ((_ : preserves P _) w1 (proj1 H2)); pres].
  run_bind E3;
    pose proof (preserves_run P' _ _ _ _
      (give_hint_or_explanation_preserves P' Hchat _ _ _ _ _) H2 E3) as H3;
    [| now destruct H3].
  destruct H3 as [H3 Hrs].
  rewrite (bind_ok (modify _) _ w2 tt _ eq_refl).
  assert (Hinc : P (set_reading_sessions (alter increment_attempt p) w2)).
  { apply (P_increment p session); auto.
    - now rewrite Hrs.
    - now apply Z.ltb_lt. }
  refine ((_ : preserves P _) _ Hinc). pres.
Qed.

Hint Resolve handle_vocab_reply_preserves handle_open_reading_reply_preserves
  handle_reading_reply_preserves start_session_preserves
  greet_student_preserves : pres.

Lemma handle_reply_preserves t p r : preserves P (handle_reply t p r).
Proof. destruct t; cbn; auto with pres. Qed.

Lemma default_fallback_preserves p m q : preserves P (default_fallback p m q).
Proof. unfold default_fallback. pres. Qed.
Hint Resolve default_fallback_preserves : pres.

Lemma receive_message_preserves p raw : preserves P (receive_message p raw).
Proof. unfold receive_message. pres. Qed.
End Controllers.

#[export] Hint Resolve update_sheet_preserves advance_vocab_index_preserves
  advance_question_progress_preserves
  advance_open_question_progress_preserves del_vocab_session_preserves
  del_reading_session_preserves del_open_reading_session_preserves
  set_vocab_attempt_second_preserves start_vocab_session_preserves
  start_reading_session_preserves start_open_reading_session_preserves
  start_session_preserves handle_vocab_reply_preserves
  handle_open_reading_reply_preserves handle_reading_reply_preserves
  handle_reply_preserves default_fallback_preserves
  receive_message_preserves : pres.

(** * The attempt counters *)

Lemma attempt_bounds_empty w :
  vocab_sessions w = ∅ -> reading_sessions w = ∅ -> attempt_bounds w.
Proof.
  intros Hv Hr. split; intros p s H.
  - rewrite Hv in H. now rewrite lookup_empty in H.
  - rewrite Hr in H. now rewrite lookup_empty in H.
Qed.

Lemma attempt_bounds_vocab_insert p a v w :
  a = 1 \/ a = 2 -> attempt_bounds w ->
  attempt_bounds (set_vocab_sessions (insert p (mkVocabSession a v)) w).
Proof.
  intros Ha [Hv Hr]. split; cbn; [| exact Hr].
  intros q s. rewrite lookup_insert. case_decide.
  - intros [= <-]. exact Ha.
  - apply Hv.
Qed.

Lemma attempt_bounds_vocab_delete p w :
  attempt_bounds w -> attempt_bounds (set_vocab_sessions (delete p) w).
Proof.
  intros [Hv Hr]. split; cbn; [| exact Hr].
  intros q s. rewrite lookup_delete. case_decide; [discriminate | apply Hv].
Qed.

Lemma attempt_bounds_reading_insert p s q w :
  attempt_bounds w ->
  attempt_bounds
    (set_reading_sessions
       (insert p (mkReadingSession s q 1 EmptyString EmptyString)) w).
Proof.
  intros [Hv Hr]. split; cbn; [exact Hv |].
  intros k x. rewrite lookup_insert. case_decide.
  - intros [= <-] _. cbn. lia.
  - apply Hr.
Qed.

Lemma attempt_bounds_reflect p r w :
  attempt_bounds w ->
  attempt_bounds (set_reading_sessions (alter (enter_reflection r) p) w).
Proof.
  intros [Hv Hr]. split; cbn; [exact Hv |].
  intros k x. rewrite lookup_alter. case_decide.
  - subst k. destruct (reading_sessions w !! p); cbn; [| discriminate].
    intros [= <-]. cbn. congruence.
  - apply Hr.
Qed.

Lemma attempt_bounds_increment p s w :
  reading_sessions w !! p = Some s ->
  String.eqb (r_mode s) "reflection" = false -> r_attempt s < 3 ->
  attempt_bounds w ->
  attempt_bounds (set_reading_sessions (alter increment_attempt p) w).
Proof.
  intros Hs Hmode Hlt [Hv Hr]. split; cbn; [exact Hv |].
  intros k x. rewrite lookup_alter. case_decide.
  - subst k. rewrite Hs. cbn. intros [= <-]. cbn. intros _.
    apply String.eqb_neq in Hmode. specialize (Hr p s Hs Hmode). lia.
  - apply Hr.
Qed.

Lemma attempt_bounds_reading_delete p w :
  attempt_bounds w -> attempt_bounds (set_reading_sessions (delete p) w).
Proof.
  intros [Hv Hr]. split; cbn; [exact Hv |].
  intros q s. rewrite lookup_delete. case_decide; [discriminate | apply Hr].
Qed.

Create HintDb bounds discriminated.

#[export] Hint Resolve attempt_bounds_vocab_insert attempt_bounds_vocab_delete
  attempt_bounds_reading_insert attempt_bounds_reflect
  attempt_bounds_increment attempt_bounds_reading_delete : bounds.

(** The parts of the world that [attempt_bounds] does not read. *)
Ltac unread := solve [intros; assumption | intros; cbn in *; eauto].

Lemma receive_message_keeps_attempt_bounds p raw :
  preserves attempt_bounds (receive_message p raw).
Proof.
  apply receive_message_preserves; try unread; eauto with bounds.
Qed.

Lemma start_session_keeps_attempt_bounds t p l :
  preserves attempt_bounds (start_session t p l).
Proof.
  apply start_session_preserves; try unread; eauto with bounds.
Qed.

Lemma handle_reply_keeps_attempt_bounds t p r :
  preserves attempt_bounds (handle_reply t p r).
Proof.
  apply handle_reply_preserves; try unread; eauto with bounds.
Qed.

(** C5. While a vocabulary session exists its attempt counter is 1 or 2,
    and while a closed-reading session exists outside reflection mode its
    attempt counter is between 1 and 3: a world within these bounds stays
    within them through every start of a track, every reply handler and
    every dispatched message, however the step ends; and a session that a
    start creates begins at attempt 1 (in normal mode for closed reading). *)
Theorem attempt_counters_stay_in_range w :
  attempt_bounds w ->
  (forall t p l, attempt_bounds (snd (start_session t p l w)))
  /\ (forall t p r, attempt_bounds (snd (handle_reply t p r w)))
  /\ (forall p raw, attempt_bounds (snd (receive_message p raw w)))
  /\ (forall p s,
        vocab_sessions (snd (start_vocab_session p w)) !! p = Some s ->
        vocab_sessions w !! p = Some s \/ v_attempt s = 1)
  /\ (forall p l s,
        reading_sessions (snd (start_reading_session p l w)) !! p = Some s ->
        reading_sessions w !! p = Some s
        \/ (r_attempt s = 1 /\ r_mode s = EmptyString)).
Proof.
  intros Hw. split; [| split; [| split; [| split]]].
  - intros t p l. now apply start_session_keeps_attempt_bounds.
  - intros t p r. now apply handle_reply_keeps_attempt_bounds.
  - intros p raw. now apply receive_message_keeps_attempt_bounds.
  - intros p.
    refine (start_vocab_session_preserves
              (fun w' => forall s, vocab_sessions w' !! p = Some s ->
                           vocab_sessions w !! p = Some s \/ v_attempt s = 1)
              _ _ _ _ p w _); try unread.
    intros q v w' H s. cbn. rewrite lookup_insert. case_decide.
    + intros [= <-]. now right.
    + apply H.
  - intros p l.
    refine (start_reading_session_preserves
              (fun w' => forall s, reading_sessions w' !! p = Some s ->
                           reading_sessions w !! p = Some s
                           \/ (r_attempt s = 1 /\ r_mode s = EmptyString))
              _ _ _ _ p l w _); try unread.
    intros q a b w' H s. cbn. rewrite lookup_insert. case_decide.
    + intros [= <-]. now right.
    + apply H.
Qed.

Lemma attempt_counters_stay_in_range_witness :
  attempt_bounds midmorning
  /\ attempt_bounds
       (snd (receive_message Classroom.amy "Paris?" midmorning)).
Proof.
  assert (H : attempt_bounds midmorning).
  { apply attempt_bounds_vocab_insert; [now left |].
    apply attempt_bounds_reading_insert.
    apply attempt_bounds_empty; reflexivity. }
  split; [exact H |].
  apply (attempt_counters_stay_in_range midmorning H).
Defined.

(** * The progress store *)

Lemma find_row_index_spec us p k i :
  find_row_index us p k = Some i ->
  exists n row, i = k + Z.of_nat n /\ us !! n = Some row /\ phone_no row = p.
Proof.
  revert k. induction us as [|r us IH]; intros k; cbn; [discriminate |].
  destruct (phone_no r =? p) eqn:E.
  - intros [= <-]. exists 0%nat, r. repeat split; [lia | now apply Z.eqb_eq].
  - intros H. destruct (IH _ H) as (n & row & -> & Hn & Hp).
    exists (S n), row. repeat split; [lia | exact Hn | exact Hp].
Qed.

Lemma registered_row w p :
  registered w p ->
  exists i row, find_row_index (user_sheet w) p 2 = Some i
                /\ user_sheet w !! Z.to_nat (i - 2) = Some row
                /\ phone_no row = p.
Proof.
  intros [i Hi]. destruct (find_row_index_spec _ _ _ _ Hi) as (n & row & -> & Hn & Hp).
  exists (2 + Z.of_nat n), row. repeat split; auto.
  now replace (Z.to_nat (2 + Z.of_nat n - 2)) with n by lia.
Qed.

Lemma py_getitem_in_range {A} (l : list A) i x w :
  0 <= i -> l !! Z.to_nat i = Some x -> py_getitem l i w = (Ok x, w).
Proof.
  intros Hi Hx. unfold py_getitem.
  pose proof (lookup_lt_Some _ _ _ Hx) as Hlt.
  destruct (i <? 0) eqn:E1; [apply Z.ltb_lt in E1; lia |].
  rewrite E1. cbn.
  destruct (Z.of_nat (length l) <=? i) eqn:E2; [apply Z.leb_le in E2; lia |].
  cbn. now rewrite Hx.
Qed.

Lemma get_user_data_found w p i row :
  find_row_index (user_sheet w) p 2 = Some i ->
  user_sheet w !! Z.to_nat (i - 2) = Some row ->
  get_user_data p w = (Ok row, w).
Proof.
  intros Hi Hrow. unfold get_user_data, get_row_index_by_phone.
  cbv [bind get]. rewrite Hi. cbn.
  destruct (find_row_index_spec _ _ _ _ Hi) as (n & row' & -> & _ & _).
  apply py_getitem_in_range; [lia | exact Hrow].
Qed.

Lemma list_alter_found {A} (f : A -> A) (l : list A) n x :
  l !! n = Some x -> alter f n l = <[n := f x]> l.
Proof.
  revert n. induction l as [|a l IH]; intros [|n]; cbn; try discriminate.
  - now intros [= ->].
  - intros H. f_equal. now apply IH.
Qed.

(** What each of the three advancing functions does for a registered
    student: one cell is written, with the old cursor plus one. *)
Lemma advance_cursor_spec t w p i row :
  find_row_index (user_sheet w) p 2 = Some i ->
  user_sheet w !! Z.to_nat (i - 2) = Some row ->
  advance_cursor t p w =
    (Ok tt,
     emit 0 (UpdateCell i (track_column t) (cursor t row + 1))
       (set_user_sheet
          (fun us => <[Z.to_nat (i - 2) :=
                        set_column (track_column t) (cursor t row + 1) row]> us)
          w)).
Proof.
  intros Hi Hrow.
  assert (E : forall c d, update_sheet p c d w =
            (Ok tt, emit 0 (UpdateCell i c d)
               (set_user_sheet
                  (fun us => <[Z.to_nat (i - 2) := set_column c d row]> us) w))).
  { intros c d. unfold update_sheet, get_row_index_by_phone, update_cell.
    cbv [bind get modify]. rewrite Hi. cbn.
    unfold set_user_sheet. now rewrite (list_alter_found _ _ _ _ Hrow). }
  destruct t; cbn [advance_cursor];
    unfold advance_vocab_index, advance_question_progress,
      advance_open_question_progress;
    rewrite (bind_ok _ _ _ _ _ (get_user_data_found w p i row Hi Hrow));
    apply E.
Qed.

(** * Calls that leave the sessions and the progress store alone *)

Lemma calm_refl w : calm w w.
Proof. now repeat split. Qed.

Lemma calm_trans w1 w2 w3 : calm w1 w2 -> calm w2 w3 -> calm w1 w3.
Proof.
  unfold calm. intros H1 H2.
  destruct H1 as (?&?&?&?&?&?&?&?), H2 as (?&?&?&?&?&?&?&?).
  repeat split; congruence.
Qed.

Lemma cell_updates_emit n e w :
  cell_updates (emit n e w) =
  cell_updates w ++ (if is_update e then [e] else []).
Proof.
  unfold cell_updates. cbn. rewrite List.filter_app. cbn.
  now destruct (is_update e).
Qed.

Lemma posts_emit n e w :
  posts (emit n e w) = posts w ++ (if is_post e then [e] else []).
Proof.
  unfold posts. cbn. rewrite List.filter_app. cbn.
  now destruct (is_post e).
Qed.

Lemma calm_chat w0 r w : calm w0 w -> calm w0 (emit 1 (ChatCompletion r) w).
Proof.
  unfold calm. intros (?&?&?&?&?&?&?&?).
  rewrite cell_updates_emit. cbn. rewrite app_nil_r. now repeat split.
Qed.

Lemma calm_post w0 p m r w : calm w0 w -> calm w0 (emit 1 (Post p m r) w).
Proof.
  unfold calm. intros (?&?&?&?&?&?&?&?).
  rewrite cell_updates_emit. cbn. rewrite app_nil_r. now repeat split.
Qed.

Lemma calm_sent w0 f w : calm w0 w -> calm w0 (set_last_sent_messages f w).
Proof. unfold calm. intros (?&?&?&?&?&?&?&?). now repeat split. Qed.

#[export] Hint Resolve calm_refl calm_chat calm_post calm_sent : pres.

(** The outcome of a call to the judge, read as a fact about the world it
    leaves. *)
Ltac calm_from E :=
  match type of E with
  | ?m ?w = (?r, ?w') =>
      let H := fresh "Hcalm" in
      assert (H : calm w w')
        by (apply (preserves_run (calm w) m w r w');
            [ solve [eauto 10 with pres] | apply calm_refl | exact E ])
  end.

(** ** Sending *)

Lemma send_whatsapp_message_spec p m w :
  send_whatsapp_message p m w =
    (Ok (delivered (transport w (clock w) p m)), sent p m w).
Proof.
  unfold send_whatsapp_message, try_except, bind, modify, requests_post, sent.
  cbn. destruct (transport w (clock w) p m) as [|[|]|]; reflexivity.
Qed.

Lemma sent_calm p m w : calm w (sent p m w).
Proof. unfold sent. apply calm_post, calm_sent, calm_refl. Qed.

Lemma posts_sent p m w :
  posts (sent p m w) = posts w ++ [Post p m (transport w (clock w) p m)].
Proof. unfold sent. now rewrite posts_emit. Qed.

(** ** Closing a session that is there *)

Lemma del_vocab_session_found p s w :
  vocab_sessions w !! p = Some s ->
  del_vocab_session p w = (Ok tt, set_vocab_sessions (delete p) w).
Proof. intros H. unfold del_vocab_session, py_del. now rewrite H. Qed.

Lemma del_reading_session_found p s w :
  reading_sessions w !! p = Some s ->
  del_reading_session p w = (Ok tt, set_reading_sessions (delete p) w).
Proof. intros H. unfold del_reading_session, py_del. now rewrite H. Qed.

Lemma del_open_reading_session_found p s w :
  open_reading_sessions w !! p = Some s ->
  del_open_reading_session p w =
    (Ok tt, set_open_reading_sessions (delete p) w).
Proof. intros H. unfold del_open_reading_session, py_del. now rewrite H. Qed.

(** * Completing an item *)

Lemma closed_out_no_session t p i row w :
  has_session t p (closed_out t p i row w) = false.
Proof.
  destruct t; cbn; apply bool_decide_eq_false;
    rewrite lookup_delete_eq; now intros [? ?].
Qed.

Lemma closed_out_user_sheet t p i row w :
  user_sheet (closed_out t p i row w) =
  <[Z.to_nat (i - 2) :=
      set_column (track_column t) (cursor t row + 1) row]> (user_sheet w).
Proof. now destruct t. Qed.

Lemma closed_out_cell_updates t p i row w :
  cell_updates (closed_out t p i row w) =
  cell_updates w ++ [UpdateCell i (track_column t) (cursor t row + 1)].
Proof.
  destruct t; unfold cell_updates; cbn; now rewrite List.filter_app.
Qed.

Lemma closed_out_posts t p i row w :
  posts (closed_out t p i row w) = posts w.
Proof.
  destruct t; unfold posts; cbn; rewrite List.filter_app; cbn;
    now rewrite app_nil_r.
Qed.

(** Advancing and deleting, from a world whose sheet and sessions are those
    of [w0]. *)
Lemma advance_then_delete_vocab {B} (k : M B) p s i row w0 w :
  calm w0 w -> vocab_sessions w0 !! p = Some s ->
  find_row_index (user_sheet w0) p 2 = Some i ->
  user_sheet w0 !! Z.to_nat (i - 2) = Some row ->
  (run advance_vocab_index p; run del_vocab_session p; k) w
  = k (closed_out vocab p i row w).
Proof.
  intros (Hus & _ & _ & _ & Hvs & _) Hs Hi Hrow.
  rewrite <- Hus in Hi, Hrow. rewrite <- Hvs in Hs.
  rewrite (bind_ok _ _ _ _ _ (advance_cursor_spec vocab w p i row Hi Hrow)).
  erewrite bind_ok; [reflexivity |].
  now apply del_vocab_session_found with s.
Qed.

Lemma advance_then_delete_reading {B} (k : M B) p s i row w0 w :
  calm w0 w -> reading_sessions w0 !! p = Some s ->
  find_row_index (user_sheet w0) p 2 = Some i ->
  user_sheet w0 !! Z.to_nat (i - 2) = Some row ->
  (run advance_question_progress p; run del_reading_session p; k) w
  = k (closed_out closed p i row w).
Proof.
  intros (Hus & _ & _ & _ & _ & Hrs & _) Hs Hi Hrow.
  rewrite <- Hus in Hi, Hrow. rewrite <- Hrs in Hs.
  rewrite (bind_ok _ _ _ _ _ (advance_cursor_spec closed w p i row Hi Hrow)).
  erewrite bind_ok; [reflexivity |].
  now apply del_reading_session_found with s.
Qed.

Lemma advance_then_delete_open {B} (k : M B) p s i row w0 w :
  calm w0 w -> open_reading_sessions w0 !! p = Some s ->
  find_row_index (user_sheet w0) p 2 = Some i ->
  user_sheet w0 !! Z.to_nat (i - 2) = Some row ->
  (run advance_open_question_progress p; run del_open_reading_session p; k) w
  = k (closed_out open p i row w).
Proof.
  intros (Hus & _ & _ & _ & _ & _ & Hos & _) Hs Hi Hrow.
  rewrite <- Hus in Hi, Hrow. rewrite <- Hos in Hs.
  rewrite (bind_ok _ _ _ _ _ (advance_cursor_spec open w p i row Hi Hrow)).
  erewrite bind_ok; [reflexivity |].
  now apply del_open_reading_session_found with s.
Qed.

(** A correct vocabulary answer. *)
Lemma vocab_correct_path p reply w s w1 msg w2 i row :
  vocab_sessions w !! p = Some s ->
  evaluate_answer reply (ChineseExplaination (last_vocab s)) w = (Ok true, w1) ->
  give_vocab_correct_reply (last_vocab s) w1 = (Ok msg, w2) ->
  find_row_index (user_sheet w) p 2 = Some i ->
  user_sheet w !! Z.to_nat (i - 2) = Some row ->
  calm w w2
  /\ handle_vocab_reply p reply w =
     start_vocab_session p (closed_out vocab p i row (sent p msg w2)).
Proof.
  intros Hs E1 E2 Hi Hrow.
  calm_from E1. calm_from E2.
  assert (C : calm w w2) by eauto using calm_trans.
  split; [exact C |].
  unfold handle_vocab_reply.
  rewrite (bind_ok get _ w w w eq_refl), Hs. cbv zeta.
  rewrite (bind_ok _ _ _ _ _ E1), (bind_ok _ _ _ _ _ E2).
  rewrite (bind_ok _ _ _ _ _ (send_whatsapp_message_spec p msg w2)).
  apply advance_then_delete_vocab with (s := s) (w0 := w); auto.
  eauto using calm_trans, sent_calm.
Qed.

(** A wrong vocabulary answer when the attempt counter is not 1. *)
Lemma vocab_exhausted_path p reply w s w1 msg w2 i row :
  vocab_sessions w !! p = Some s -> v_attempt s <> 1 ->
  evaluate_answer reply (ChineseExplaination (last_vocab s)) w = (Ok false, w1) ->
  give_vocab_hint_or_explanation (last_vocab s) reply 2 w1 = (Ok msg, w2) ->
  find_row_index (user_sheet w) p 2 = Some i ->
  user_sheet w !! Z.to_nat (i - 2) = Some row ->
  calm w w2
  /\ handle_vocab_reply p reply w =
     (run send_whatsapp_message p msg; start_vocab_session p)
       (closed_out vocab p i row w2).
Proof.
  intros Hs Ha E1 E2 Hi Hrow.
  calm_from E1. calm_from E2.
  assert (C : calm w w2) by eauto using calm_trans.
  split; [exact C |].
  unfold handle_vocab_reply.
  rewrite (bind_ok get _ w w w eq_refl), Hs. cbv zeta.
  rewrite (bind_ok _ _ _ _ _ E1).
  apply Z.eqb_neq in Ha. rewrite Ha.
  rewrite (bind_ok _ _ _ _ _ E2).
  now apply advance_then_delete_vocab with (s := s) (w0 := w).
Qed.

(** A third wrong answer in closed reading. *)
Lemma closed_exhausted_path p reply w s answer w1 w2 expl w3 i row :
  reading_sessions w !! p = Some s ->
  r_mode s <> "reflection" -> 3 <= r_attempt s ->
  get_current_answer p w = (Ok answer, w) ->
  is_student_answering_question reply (r_question s) w = (Ok true, w1) ->
  evaluate_answer reply answer w1 = (Ok false, w2) ->
  give_hint_or_explanation reply answer (r_question s) (r_passage s) 3 w2
    = (Ok expl, w3) ->
  find_row_index (user_sheet w) p 2 = Some i ->
  user_sheet w !! Z.to_nat (i - 2) = Some row ->
  calm w w3
  /\ handle_reading_reply p reply w =
     start_reading_session p None (closed_out closed p i row (sent p expl w3)).
Proof.
  intros Hs Hmode Ha E0 E1 E2 E3 Hi Hrow.
  calm_from E1. calm_from E2. calm_from E3.
  assert (C : calm w w3) by eauto using calm_trans.
  split; [exact C |].
  unfold handle_reading_reply.
  rewrite (bind_ok get _ w w w eq_refl), Hs.
  apply String.eqb_neq in Hmode. rewrite Hmode. cbv zeta.
  rewrite (bind_ok _ _ _ _ _ E0), (bind_ok _ _ _ _ _ E1). cbn [negb].
  rewrite (bind_ok _ _ _ _ _ E2).
  assert (Hlt : (r_attempt s <? 3) = false) by (apply Z.ltb_ge; lia).
  rewrite Hlt.
  rewrite (bind_ok _ _ _ _ _ E3).
  rewrite (bind_ok _ _ _ _ _ (send_whatsapp_message_spec p expl w3)).
  apply advance_then_delete_reading with (s := s) (w0 := w); auto.
  eauto using calm_trans, sent_calm.
Qed.

(** A reply to the reflection question of closed reading. *)
Lemma closed_reflection_path p reply w s answer response w1 i row :
  reading_sessions w !! p = Some s ->
  r_mode s = "reflection" ->
  get_current_answer p w = (Ok answer, w) ->
  respond_to_reflection reply (r_question s) answer (r_passage s) w
    = (Ok response, w1) ->
  find_row_index (user_sheet w) p 2 = Some i ->
  user_sheet w !! Z.to_nat (i - 2) = Some row ->
  calm w w1
  /\ handle_reading_reply p reply w =
     start_reading_session p (Some reply)
       (closed_out closed p i row (sent p response w1)).
Proof.
  intros Hs Hmode E0 E1 Hi Hrow.
  calm_from E1. split; [exact Hcalm |].
  unfold handle_reading_reply.
  rewrite (bind_ok get _ w w w eq_refl), Hs.
  apply String.eqb_eq in Hmode. rewrite Hmode. cbv zeta.
  rewrite (bind_ok _ _ _ _ _ E0), (bind_ok _ _ _ _ _ E1).
  rewrite (bind_ok _ _ _ _ _ (send_whatsapp_message_spec p response w1)).
  apply advance_then_delete_reading with (s := s) (w0 := w); auto.
  eauto using calm_trans, sent_calm.
Qed.

(** [respond_to_open_answer] always comes back with a text. *)
Lemma respond_to_open_answer_total r q o a w :
  exists msg w', respond_to_open_answer r q o a w = (Ok msg, w').
Proof.
  unfold respond_to_open_answer, try_except, bind, chat_completion.
  destruct (llm w (clock w) _); cbn; eauto.
Qed.

(** A relevant reply in open reading. *)
Lemma open_relevant_path p reply w s w1 objective answer msg w2 i row :
  open_reading_sessions w !! p = Some s ->
  is_reply_relevant_to_learning reply (o_question s) w = (Ok true, w1) ->
  get_open_question_objective p w1 = (Ok objective, w1) ->
  get_open_question_ans p w1 = (Ok answer, w1) ->
  respond_to_open_answer reply (o_question s) objective answer w1
    = (Ok msg, w2) ->
  find_row_index (user_sheet w) p 2 = Some i ->
  user_sheet w !! Z.to_nat (i - 2) = Some row ->
  calm w w2
  /\ handle_open_reading_reply p reply w =
     start_open_reading_session p (closed_out open p i row (sent p msg w2)).
Proof.
  intros Hs E1 E2 E3 E4 Hi Hrow.
  calm_from E1. calm_from E4.
  assert (C : calm w w2) by eauto using calm_trans.
  split; [exact C |].
  unfold handle_open_reading_reply.
  rewrite (bind_ok get _ w w w eq_refl), Hs. cbv zeta.
  rewrite (bind_ok _ _ _ _ _ E1). cbn [negb].
  rewrite (bind_ok _ _ _ _ _ E2), (bind_ok _ _ _ _ _ E3), (bind_ok _ _ _ _ _ E4).
  rewrite (bind_ok _ _ _ _ _ (send_whatsapp_message_spec p msg w2)).
  apply advance_then_delete_open with (s := s) (w0 := w); auto.
  eauto using calm_trans, sent_calm.
Qed.

(** ** Starting a track writes no cell *)

Lemma store_kept_refl w : store_kept w w.
Proof. now split. Qed.

Lemma store_kept_emit w0 n e w :
  is_update e = false -> store_kept w0 w -> store_kept w0 (emit n e w).
Proof.
  intros He [Hu Hc]. split; [exact Hu |].
  rewrite cell_updates_emit, He. now rewrite app_nil_r.
Qed.

Lemma start_session_keeps_store t p l w :
  store_kept w (snd (start_session t p l w)).
Proof.
  apply (start_session_preserves (store_kept w)); try unread;
    try (intros; now apply store_kept_emit).
  apply store_kept_refl.
Qed.

Lemma calm_store_kept w w' : calm w w' -> store_kept w w'.
Proof. intros (? & _ & _ & _ & _ & _ & _ & ?). now split. Qed.

(** What [cursor_advanced] says about the row of the student. *)
Lemma cursor_advanced_row t p us us' :
  cursor_advanced t p us us' ->
  exists n row row',
    us !! n = Some row /\ us' !! n = Some row'
    /\ phone_no row = p
    /\ cursor t row' = cursor t row + 1
    /\ (forall t', t' <> t -> cursor t' row' = cursor t' row)
    /\ day_of_training row' = day_of_training row
    /\ (forall m, m <> n -> us' !! m = us !! m).
Proof.
  intros (i & row & Hi & Hrow & ->).
  destruct (find_row_index_spec _ _ _ _ Hi) as (n & row0 & -> & Hn & Hp).
  replace (Z.to_nat (2 + Z.of_nat n - 2)) with n in * by lia.
  assert (row0 = row) by congruence. subst row0.
  exists n, row, (set_column (track_column t) (cursor t row + 1) row).
  split; [exact Hrow |]. split.
  { apply list_lookup_insert_eq. now apply lookup_lt_Some with row. }
  split; [exact Hp |]. split; [now destruct t |]. split.
  { intros t' Ht. destruct t, t'; cbn; congruence. }
  split; [now destruct t |].
  intros m Hm. now apply list_lookup_insert_ne.
Qed.

(** C2. Every completion event (a correct vocabulary answer, a second wrong
    vocabulary attempt, a third wrong closed-reading attempt, a handled
    closed-reading reflection, a relevant open-reading reply) makes the
    handler continue as the auto-chained start of the same track from a
    world in which the session of the student in that track is deleted and
    the cursor of that track, and nothing else on the user sheet, is one
    further; exactly one cell has been written, and the start that follows
    writes none. *)
Theorem completion_advances_one_cursor_then_deletes t p reply w :
  completion_event t p reply w ->
  exists w_start prior i row,
    find_row_index (user_sheet w) p 2 = Some i
    /\ user_sheet w !! Z.to_nat (i - 2) = Some row
    /\ handle_reply t p reply w = start_session t p prior w_start
    /\ has_session t p w_start = false
    /\ cursor_advanced t p (user_sheet w) (user_sheet w_start)
    /\ cell_updates w_start =
       cell_updates w ++ [UpdateCell i (track_column t) (cursor t row + 1)]
    /\ store_kept w_start (snd (handle_reply t p reply w)).
Proof.
  assert (Fin : forall t p i row prior w0 wa,
    find_row_index (user_sheet w0) p 2 = Some i ->
    user_sheet w0 !! Z.to_nat (i - 2) = Some row ->
    calm w0 wa ->
    handle_reply t p reply w0
      = start_session t p prior (closed_out t p i row wa) ->
    exists w_start prior i row,
      find_row_index (user_sheet w0) p 2 = Some i
      /\ user_sheet w0 !! Z.to_nat (i - 2) = Some row
      /\ handle_reply t p reply w0 = start_session t p prior w_start
      /\ has_session t p w_start = false
      /\ cursor_advanced t p (user_sheet w0) (user_sheet w_start)
      /\ cell_updates w_start =
         cell_updates w0 ++ [UpdateCell i (track_column t) (cursor t row + 1)]
      /\ store_kept w_start (snd (handle_reply t p reply w0))).
  { clear. intros t p i row prior w0 wa Hi Hrow C E.
    destruct (calm_store_kept _ _ C) as [Hus Hcu].
    exists (closed_out t p i row wa), prior, i, row.
    split; [exact Hi |]. split; [exact Hrow |]. split; [exact E |].
    split; [apply closed_out_no_session |]. split.
    { exists i, row. rewrite closed_out_user_sheet, Hus. auto. }
    split.
    { now rewrite closed_out_cell_updates, Hcu. }
    rewrite E. apply start_session_keeps_store. }
  intros Hc. destruct Hc as
    [ p reply w s w1 msg w2 Hreg Hs E1 E2
    | p reply w s w1 msg w2 Hreg Hs Ha E1 E2
    | p reply w s answer w1 w2 expl w3 Hreg Hs Hm Ha E0 E1 E2 E3
    | p reply w s answer response w1 Hreg Hs Hm E0 E1
    | p reply w s w1 objective answer Hreg Hs E1 E2 E3 ];
    destruct (registered_row _ _ Hreg) as (i & row & Hi & Hrow & _).
  - destruct (vocab_correct_path _ _ _ _ _ _ _ _ _ Hs E1 E2 Hi Hrow) as [C E].
    apply (Fin vocab p i row None w (sent p msg w2) Hi Hrow);
      eauto using calm_trans, sent_calm.
  - assert (Ha' : v_attempt s <> 1) by lia.
    destruct (vocab_exhausted_path _ _ _ _ _ _ _ _ _ Hs Ha' E1 E2 Hi Hrow)
      as [C E].
    rewrite (bind_ok _ _ _ _ _ (send_whatsapp_message_spec p msg _)) in E.
    (* the explanation goes out after the session is deleted *)
    assert (E' : handle_vocab_reply p reply w =
                 start_vocab_session p
                   (sent p msg (closed_out vocab p i row w2))) by exact E.
    exists (sent p msg (closed_out vocab p i row w2)), None, i, row.
    destruct (calm_store_kept _ _ C) as [Hus Hcu].
    destruct (calm_store_kept _ _ (sent_calm p msg (closed_out vocab p i row w2)))
      as [Hus' Hcu'].
    split; [exact Hi |]. split; [exact Hrow |]. split; [exact E' |].
    split.
    { cbn. apply bool_decide_eq_false. rewrite lookup_delete_eq.
      now intros [? ?]. }
    split.
    { exists i, row. rewrite Hus', closed_out_user_sheet, Hus. auto. }
    split.
    { now rewrite Hcu', closed_out_cell_updates, Hcu. }
    cbn [handle_reply]. rewrite E'.
    apply (start_session_keeps_store vocab p None).
  - assert (Ha' : 3 <= r_attempt s) by lia.
    destruct (closed_exhausted_path _ _ _ _ _ _ _ _ _ _ _
                Hs Hm Ha' E0 E1 E2 E3 Hi Hrow) as [C E].
    apply (Fin closed p i row None w (sent p expl w3) Hi Hrow);
      eauto using calm_trans, sent_calm.
  - destruct (closed_reflection_path _ _ _ _ _ _ _ _ _ Hs Hm E0 E1 Hi Hrow)
      as [C E].
    apply (Fin closed p i row (Some reply) w (sent p response w1) Hi Hrow);
      eauto using calm_trans, sent_calm.
  - destruct (respond_to_open_answer_total reply (o_question s) objective
                answer w1) as (msg & w2 & E4).
    destruct (open_relevant_path _ _ _ _ _ _ _ _ _ _ _
                Hs E1 E2 E3 E4 Hi Hrow) as [C E].
    apply (Fin open p i row None w (sent p msg w2) Hi Hrow);
      eauto using calm_trans, sent_calm.
Qed.

(** Each of the five events happens in the classroom. *)
Lemma completion_events_occur :
  completion_event vocab Classroom.amy "適應" midmorning
  /\ completion_event vocab Classroom.amy "no idea" second_try_offline
  /\ completion_event closed Classroom.amy "in rome" third_reading_try
  /\ completion_event closed Classroom.amy "the text says so" reflecting
  /\ completion_event open Classroom.amy "english helps" warming_up.
Proof.
  assert (R : forall w, user_sheet w = Classroom.users ->
                        registered w Classroom.amy).
  { intros w E. exists 3. now rewrite E. }
  repeat split.
  - eapply vocab_answered_correctly; [now apply R | reflexivity | |];
      vm_compute; reflexivity.
  - eapply vocab_second_attempt_wrong;
      [now apply R | reflexivity | reflexivity | |]; vm_compute; reflexivity.
  - eapply closed_third_attempt_wrong;
      [now apply R | reflexivity | discriminate | reflexivity | | | |];
      vm_compute; reflexivity.
  - eapply closed_reflection_handled;
      [now apply R | reflexivity | reflexivity | |]; vm_compute; reflexivity.
  - eapply open_reply_relevant; [now apply R | reflexivity | | |];
      vm_compute; reflexivity.
Qed.

Lemma completion_advances_one_cursor_then_deletes_witness :
  completion_event vocab Classroom.amy "適應" midmorning
  /\ exists w_start prior i row,
       find_row_index (user_sheet midmorning) Classroom.amy 2 = Some i
       /\ user_sheet midmorning !! Z.to_nat (i - 2) = Some row
       /\ handle_reply vocab Classroom.amy "適應" midmorning
          = start_session vocab Classroom.amy prior w_start
       /\ has_session vocab Classroom.amy w_start = false
       /\ cursor_advanced vocab Classroom.amy
            (user_sheet midmorning) (user_sheet w_start)
       /\ cell_updates w_start =
          cell_updates midmorning
          ++ [UpdateCell i (track_column vocab) (cursor vocab row + 1)]
       /\ store_kept w_start
            (snd (handle_reply vocab Classroom.amy "適應" midmorning)).
Proof.
  assert (H : completion_event vocab Classroom.amy "適應" midmorning).
  { eapply vocab_answered_correctly with (s := mkVocabSession 1 Classroom.adapt).
    - exists 3. reflexivity.
    - reflexivity.
    - vm_compute. reflexivity.
    - vm_compute. reflexivity. }
  split; [exact H |].
  apply (completion_advances_one_cursor_then_deletes _ _ _ _ H).
Defined.

(** * Sending and the progress store *)

Lemma posts_after_judge {A} (m : M A) w r w' :
  preserves (fun x => posts x = posts w) m -> m w = (r, w') ->
  posts w' = posts w.
Proof. intros Hm E. now apply (preserves_run _ m w r w' Hm). Qed.

Lemma posts_chat l q w :
  posts w = l -> posts (emit 1 (ChatCompletion q) w) = l.
Proof. intros H. rewrite posts_emit. cbn. now rewrite app_nil_r. Qed.

(** C7. [send_whatsapp_message] always returns a boolean, [false] when the
    bot answers another status than 200 or when the request raises, and it
    touches neither the progress store nor the sessions.  In the
    attempt-2 exhaustion path of the vocabulary handler the explanation is
    sent from a world in which the cursor is already advanced and the
    session already deleted, and the user sheet at the end of the handler
    is that advanced sheet whatever the bot did. *)
Theorem failed_send_is_false_and_keeps_progress :
  (forall p m w,
     send_whatsapp_message p m w
       = (Ok (delivered (transport w (clock w) p m)), sent p m w)
     /\ calm w (sent p m w))
  /\ (forall p reply w s w1 msg w2,
        registered w p ->
        vocab_sessions w !! p = Some s ->
        v_attempt s = 2 ->
        evaluate_answer reply (ChineseExplaination (last_vocab s)) w
          = (Ok false, w1) ->
        give_vocab_hint_or_explanation (last_vocab s) reply 2 w1
          = (Ok msg, w2) ->
        exists w_committed,
          handle_vocab_reply p reply w
            = (run send_whatsapp_message p msg; start_vocab_session p)
                w_committed
          /\ vocab_sessions w_committed !! p = None
          /\ cursor_advanced vocab p (user_sheet w) (user_sheet w_committed)
          /\ posts w_committed = posts w
          /\ store_kept w_committed (snd (handle_vocab_reply p reply w))).
Proof.
  split.
  - intros p m w. split; [apply send_whatsapp_message_spec | apply sent_calm].
  - intros p reply w s w1 msg w2 Hreg Hs Ha E1 E2.
    destruct (registered_row _ _ Hreg) as (i & row & Hi & Hrow & _).
    assert (Ha' : v_attempt s <> 1) by lia.
    destruct (vocab_exhausted_path _ _ _ _ _ _ _ _ _ Hs Ha' E1 E2 Hi Hrow)
      as [C E].
    destruct (calm_store_kept _ _ C) as [Hus Hcu].
    exists (closed_out vocab p i row w2).
    split; [exact E |]. split; [apply lookup_delete_eq |]. split.
    { exists i, row. rewrite closed_out_user_sheet, Hus. auto. }
    split.
    { rewrite closed_out_posts.
      assert (P1 : posts w1 = posts w).
      { apply (posts_after_judge _ _ _ _
                 (evaluate_answer_preserves _ (posts_chat (posts w)) _ _) E1). }
      rewrite <- P1.
      apply (posts_after_judge _ _ _ _
               (give_vocab_hint_or_explanation_preserves _
                  (posts_chat (posts w1)) _ _ _) E2). }
    rewrite E.
    rewrite (bind_ok _ _ _ _ _ (send_whatsapp_message_spec p msg _)).
    destruct (calm_store_kept _ _
                (sent_calm p msg (closed_out vocab p i row w2))) as [Hus' Hcu'].
    destruct (start_session_keeps_store vocab p None
                (sent p msg (closed_out vocab p i row w2))) as [Hus'' Hcu''].
    split; cbn [start_session] in *; congruence.
Qed.

Lemma failed_send_is_false_and_keeps_progress_witness :
  fst (send_whatsapp_message Classroom.amy "hint" second_try_offline)
    = Ok false
  /\ exists w_committed,
       handle_vocab_reply Classroom.amy "no idea" second_try_offline
         = (run send_whatsapp_message Classroom.amy "a vocab hint";
            start_vocab_session Classroom.amy) w_committed
       /\ vocab_sessions w_committed !! Classroom.amy = None
       /\ cursor_advanced vocab Classroom.amy
            (user_sheet second_try_offline) (user_sheet w_committed)
       /\ posts w_committed = posts second_try_offline
       /\ store_kept w_committed
            (snd (handle_vocab_reply Classroom.amy "no idea"
                    second_try_offline)).
Proof.
  split.
  - now rewrite (proj1 (proj1 failed_send_is_false_and_keeps_progress
                          Classroom.amy "hint" second_try_offline)).
  - eapply (proj2 failed_send_is_false_and_keeps_progress
              Classroom.amy "no idea" second_try_offline
              (mkVocabSession 2 Classroom.adapt)).
    + exists 3. reflexivity.
    + reflexivity.
    + reflexivity.
    + vm_compute. reflexivity.
    + vm_compute. reflexivity.
Defined.

(** * Substrings *)

Lemma starts_with_spec needle hay :
  starts_with needle hay = true <-> exists post, hay = needle +:+ post.
Proof.
  revert hay. induction needle as [|a n IH]; intros hay; cbn.
  - split; [intros _; now exists hay | reflexivity].
  - destruct hay as [|b h].
    + split; [discriminate | intros [post H]; discriminate].
    + destruct (Ascii.eqb a b) eqn:E.
      * apply Ascii.eqb_eq in E. subst b. rewrite IH. split.
        -- intros [post ->]. now exists post.
        -- intros [post [= ->]]. now exists post.
      * apply Ascii.eqb_neq in E. split; [discriminate |].
        intros [post [= <- _]]. congruence.
Qed.

(** [contains needle hay] is Python's [needle in hay]: [needle] occurs
    somewhere in [hay]. *)
Lemma contains_spec needle hay :
  contains needle hay = true <->
  exists pre post, hay = pre +:+ needle +:+ post.
Proof.
  induction hay as [|b h IH]; cbn.
  - destruct (starts_with needle EmptyString) eqn:E.
    + split; [intros _ | reflexivity].
      apply starts_with_spec in E as [post E]. now exists EmptyString, post.
    + split; [discriminate |]. intros ([|c pre] & post & H); [| discriminate].
      cbn in H. assert (starts_with needle EmptyString = true)
        by (apply starts_with_spec; now exists post). congruence.
  - destruct (starts_with needle (String b h)) eqn:E.
    + split; [intros _ | reflexivity].
      apply starts_with_spec in E as [post E]. now exists EmptyString, post.
    + rewrite IH. split.
      * intros (pre & post & ->). now exists (String b pre), post.
      * intros ([|c pre] & post & H).
        -- cbn in H. assert (starts_with needle (String b h) = true)
             by (apply starts_with_spec; now exists post). congruence.
        -- cbn in H. injection H as -> ->. now exists pre, post.
Qed.

(** ** Stripping does not hide a marker *)

Lemma is_space_lower c : is_space (lower_ascii c) = is_space c.
Proof. destruct c as [[] [] [] [] [] [] [] []]; reflexivity. Qed.

Lemma lower_lstrip s : lower (lstrip s) = lstrip (lower s).
Proof.
  induction s as [|c r IH]; cbn; [reflexivity |].
  rewrite is_space_lower. now destruct (is_space c).
Qed.

Lemma lower_rstrip s : lower (rstrip s) = rstrip (lower s).
Proof.
  induction s as [|c r IH]; cbn; [reflexivity |].
  rewrite <- IH, is_space_lower.
  destruct (rstrip r); cbn; [now destruct (is_space c) | reflexivity].
Qed.

Lemma lower_strip s : lower (strip s) = strip (lower s).
Proof. unfold strip. now rewrite lower_rstrip, lower_lstrip. Qed.

Lemma contains_lstrip needle s :
  starts_tight needle = true -> contains needle (lstrip s) = contains needle s.
Proof.
  destruct needle as [|a n]; [discriminate |]. cbn. intros Ha.
  induction s as [|c r IH]; [reflexivity |].
  cbn [lstrip]. destruct (is_space c) eqn:Ec; [| reflexivity].
  rewrite IH. cbn [contains starts_with].
  destruct (Ascii.eqb a c) eqn:E; [| reflexivity].
  apply Ascii.eqb_eq in E. subst c. rewrite Ec in Ha. discriminate.
Qed.

Lemma ends_tight_tail a n :
  ends_tight (String a n) = true -> n <> EmptyString -> ends_tight n = true.
Proof. destruct n; [congruence | now cbn]. Qed.

Lemma starts_with_rstrip needle s :
  ends_tight needle = true ->
  starts_with needle (rstrip s) = starts_with needle s.
Proof.
  revert needle. induction s as [|c r IH]; intros needle Hn; [reflexivity |].
  destruct needle as [|a n]; [discriminate |].
  destruct n as [|b n].
  - (* a needle of one character, which is not white space *)
    cbn in Hn. cbn [rstrip].
    destruct (rstrip r); cbn; [| reflexivity].
    destruct (is_space c) eqn:Ec; cbn; [| reflexivity].
    destruct (Ascii.eqb a c) eqn:E; [| reflexivity].
    apply Ascii.eqb_eq in E. subst c. rewrite Ec in Hn. discriminate.
  - assert (Ht : ends_tight (String b n) = true) by exact Hn.
    specialize (IH _ Ht). cbn [rstrip].
    destruct (rstrip r) as [|d r'] eqn:Er.
    + destruct (is_space c); cbn [starts_with];
        destruct (Ascii.eqb a c); auto.
    + cbn [starts_with]. destruct (Ascii.eqb a c); auto.
Qed.

Lemma contains_rstrip needle s :
  ends_tight needle = true -> contains needle (rstrip s) = contains needle s.
Proof.
  intros Hn. induction s as [|c r IH]; [reflexivity |].
  pose proof (starts_with_rstrip needle (String c r) Hn) as Hs.
  cbn [contains]. rewrite <- Hs, <- IH. clear Hs IH.
  cbn [rstrip].
  destruct (rstrip r) as [|d r'] eqn:Er.
  - destruct (is_space c); cbn [contains];
      destruct (starts_with needle _); reflexivity.
  - reflexivity.
Qed.

Lemma contains_strip needle s :
  starts_tight needle = true -> ends_tight needle = true ->
  contains needle (strip s) = contains needle s.
Proof.
  intros H1 H2. unfold strip.
  now rewrite (contains_rstrip _ _ H2), (contains_lstrip _ _ H1).
Qed.

(** A marker is in the stripped, lower-cased reply exactly when it is in
    the lower-cased reply. *)
Lemma marker_survives_strip needle s :
  starts_tight needle = true -> ends_tight needle = true ->
  contains needle (lower (strip s)) = contains needle (lower s).
Proof. intros H1 H2. rewrite lower_strip. now apply contains_strip. Qed.

(** * The dispatcher *)

Lemma registered_name w p :
  registered w p ->
  exists name, get_student_name_by_phone p w = (Ok name, w).
Proof.
  unfold registered, get_student_name_by_phone. cbv [bind get].
  generalize 2. induction (user_sheet w) as [|r us IH]; intros k [i Hi];
    cbn in *; [discriminate |].
  destruct (phone_no r =? p); [now eexists |].
  apply (IH (k + 1)). now exists i.
Qed.

(** Without a command word the message goes by the sessions of the
    student. *)
Lemma receive_message_without_trigger p raw w :
  registered w p -> has_trigger (lower (strip raw)) = false ->
  receive_message p raw w =
    (if has_session open p w then
       handle_open_reading_reply p (lower (strip raw)) w
     else if has_session closed p w then
       handle_reading_reply p (lower (strip raw)) w
     else
       default_fallback p (lower (strip raw)) (last_sent_or_empty w p) w).
Proof.
  intros Hreg Ht. destruct (registered_name _ _ Hreg) as [name Hn].
  unfold has_trigger in Ht.
  apply orb_false_elim in Ht as [Ht H4].
  apply orb_false_elim in Ht as [Ht H3].
  apply orb_false_elim in Ht as [H1 H2].
  unfold receive_message. cbv zeta.
  rewrite (bind_ok _ _ _ _ _ Hn), H1, H2, H3, H4.
  rewrite (bind_ok get _ w w w eq_refl). cbn [has_session].
  now repeat destruct (bool_decide _).
Qed.

Lemma extends_emit l n e w : extends l w -> extends l (emit n e w).
Proof.
  intros [rest H]. exists (rest ++ [e]). cbn. rewrite H. now rewrite app_assoc.
Qed.

#[export] Hint Resolve extends_emit : pres.

(** The first thing the default fallback does is to ask the judge whether
    the message answers the given prompt. *)
Lemma default_fallback_asks_first p m q w :
  extends (effects w ++ [ChatCompletion (ReqIsAnswering m q)])
    (snd (default_fallback p m q w)).
Proof.
  unfold default_fallback, is_student_answering_question.
  set (l := effects w ++ [ChatCompletion (ReqIsAnswering m q)]).
  assert (H0 : extends l (emit 1 (ChatCompletion (ReqIsAnswering m q)) w))
    by (exists []; cbn; now rewrite app_nil_r).
  assert (Hv : forall x, preserves (extends l) (handle_vocab_reply p x)).
  { intros x. apply handle_vocab_reply_preserves; try unread;
      intros; now apply extends_emit. }
  assert (Hs : preserves (extends l) (start_vocab_session p)).
  { apply start_vocab_session_preserves; try unread;
      intros; now apply extends_emit. }
  assert (Hsend : forall x, preserves (extends l) (send_whatsapp_message p x)).
  { intros x. apply send_whatsapp_message_preserves; try unread;
      intros; now apply extends_emit. }
  assert (Hchat : forall r x, extends l x ->
                              extends l (emit 1 (ChatCompletion r) x))
    by (intros; now apply extends_emit).
  unfold bind at 1. unfold bind at 1. unfold chat_completion at 1.
  destruct (llm w (clock w) (ReqIsAnswering m q)) as [content|]; cbn [fst snd];
    [| exact H0].
  cbn [ret].
  refine ((_ : preserves (extends l) _) _ H0).
  pres.
Qed.

(** The redirect generator catches whatever its client raises. *)
Lemma handle_irrelevant_input_with_llm_total i w :
  exists text w',
    handle_irrelevant_input_with_llm i w = (Ok text, w')
    /\ calm w w' /\ posts w' = posts w
    /\ text = match llm w (clock w) (ReqIrrelevant i) with
              | Some c => strip c
              | None => irrelevant_fallback
              end.
Proof.
  unfold handle_irrelevant_input_with_llm, try_except, bind, chat_completion.
  destruct (llm w (clock w) (ReqIrrelevant i)); cbn;
    do 2 eexists; (split; [reflexivity |]);
    (split; [apply calm_chat, calm_refl |]);
    (split; [now apply posts_chat | reflexivity]).
Qed.

(** C1. A message of a registered student that carries no command word
    goes to the open-reading handler when the student has an open-reading
    session, and then the closed-reading sessions are left exactly as they
    were, even if the student has one; failing that it goes to the
    closed-reading handler when there is a closed-reading session; failing
    both it goes to the default fallback.  The fallback first asks the
    judge whether the message answers the last message sent, and hands it
    to the vocabulary handler if so; if not, it asks the judge whether the
    message is relevant, and then answers the student's question and
    starts the vocabulary track; if it is neither, it sends the off-topic
    redirect, which is the one thing that happens then.  A failure of
    either check ends the step with that exception. *)
Theorem dispatch_follows_fixed_precedence p raw w :
  registered w p -> has_trigger (lower (strip raw)) = false ->
  (has_session open p w = true ->
     receive_message p raw w
       = handle_open_reading_reply p (lower (strip raw)) w
     /\ reading_sessions (snd (receive_message p raw w)) = reading_sessions w)
  /\ (has_session open p w = false -> has_session closed p w = true ->
        receive_message p raw w
          = handle_reading_reply p (lower (strip raw)) w)
  /\ (has_session open p w = false -> has_session closed p w = false ->
        let message := lower (strip raw) in
        let question_prompt := last_sent_or_empty w p in
        receive_message p raw w
          = default_fallback p message question_prompt w
        /\ match is_student_answering_question message question_prompt w with
           | (Raise e, w1) => receive_message p raw w = (Raise e, w1)
           | (Ok true, w1) =>
               receive_message p raw w = handle_vocab_reply p message w1
           | (Ok false, w1) =>
               match is_reply_relevant_to_learning message question_prompt w1
               with
               | (Raise e, w2) => receive_message p raw w = (Raise e, w2)
               | (Ok true, w2) =>
                   receive_message p raw w
                   = (do response <- generate_answer_to_student_question message;
                      run send_whatsapp_message p response;
                      start_vocab_session p) w2
               | (Ok false, w2) =>
                   exists text w3,
                     handle_irrelevant_input_with_llm message w2
                       = (Ok text, w3)
                     /\ receive_message p raw w = (Ok tt, sent p text w3)
               end
           end).
Proof.
  intros Hreg Ht.
  pose proof (receive_message_without_trigger p raw w Hreg Ht) as E.
  split; [| split].
  - intros Ho. rewrite Ho in E. split; [exact E |]. rewrite E.
    apply (handle_open_reading_reply_preserves
             (fun x => reading_sessions x = reading_sessions w));
      try unread.
  - intros Ho Hc. now rewrite Ho, Hc in E.
  - intros Ho Hc message question_prompt. rewrite Ho, Hc in E.
    fold message question_prompt in E. split; [exact E |]. rewrite E.
    unfold default_fallback.
    destruct (is_student_answering_question message question_prompt w)
      as [[[|]|e] w1] eqn:Ea;
      [ now rewrite (bind_ok _ _ _ _ _ Ea)
      | rewrite (bind_ok _ _ _ _ _ Ea)
      | now rewrite (bind_raise _ _ _ _ _ Ea) ].
    destruct (is_reply_relevant_to_learning message question_prompt w1)
      as [[[|]|e] w2] eqn:Er;
      [ now rewrite (bind_ok _ _ _ _ _ Er)
      | rewrite (bind_ok _ _ _ _ _ Er)
      | now rewrite (bind_raise _ _ _ _ _ Er) ].
    destruct (handle_irrelevant_input_with_llm_total message w2)
      as (text & w3 & Ei & _).
    exists text, w3. split; [exact Ei |].
    rewrite (bind_ok _ _ _ _ _ Ei).
    unfold bind at 1. rewrite send_whatsapp_message_spec. reflexivity.
Qed.

Lemma dispatch_follows_fixed_precedence_witness :
  has_session open Classroom.amy both_readings = true
  /\ has_session closed Classroom.amy both_readings = true
  /\ receive_message Classroom.amy "I would help him" both_readings
     = handle_open_reading_reply Classroom.amy "i would help him" both_readings
  /\ reading_sessions
       (snd (receive_message Classroom.amy "I would help him" both_readings))
     = reading_sessions both_readings.
Proof.
  split; [reflexivity |]. split; [reflexivity |].
  apply (dispatch_follows_fixed_precedence
           Classroom.amy "I would help him" both_readings).
  - exists 3. reflexivity.
  - reflexivity.
  - reflexivity.
Defined.

(** C9. The command words are looked for first, in the lower-cased and
    stripped message, as substrings and in the order start, vocab, reading,
    warm up (stripping hides no word that begins and ends with a visible
    character): a message that contains one of them anywhere is answered
    by the greeting or by the start of the corresponding track, whatever
    sessions the student has, and no reply handler runs. *)
Theorem command_words_win_over_sessions p raw w name :
  get_student_name_by_phone p w = (Ok name, w) ->
  let message := lower (strip raw) in
  (forall word, contains word message = true <->
                exists pre post, message = pre +:+ word +:+ post)
  /\ (forall word, starts_tight word = true -> ends_tight word = true ->
                   contains word message = contains word (lower raw))
  /\ (contains "start" message = true ->
        receive_message p raw w
          = (do greet <- greet_student name;
             run send_whatsapp_message p greet;
             ret tt) w)
  /\ (contains "start" message = false -> contains "vocab" message = true ->
        receive_message p raw w = start_vocab_session p w)
  /\ (contains "start" message = false -> contains "vocab" message = false ->
      contains "reading" message = true ->
        receive_message p raw w = start_reading_session p None w)
  /\ (contains "start" message = false -> contains "vocab" message = false ->
      contains "reading" message = false ->
      contains "warm up" message = true ->
        receive_message p raw w = start_open_reading_session p w).
Proof.
  intros Hn message. split; [intros word; apply contains_spec |].
  split; [intros word; apply marker_survives_strip |].
  unfold receive_message. fold message. rewrite (bind_ok _ _ _ _ _ Hn).
  repeat split; intros; repeat match goal with
    | H : contains _ message = _ |- _ => rewrite H; clear H
    end; reflexivity.
Qed.

Lemma command_words_win_over_sessions_witness :
  has_session open Classroom.amy both_readings = true
  /\ receive_message Classroom.amy "  He likes READING books " both_readings
     = start_reading_session Classroom.amy None both_readings.
Proof.
  split; [reflexivity |].
  apply (command_words_win_over_sessions
           Classroom.amy "  He likes READING books " both_readings "Amy");
    reflexivity.
Defined.

(** C10. [send_whatsapp_message] records the text as the last message sent
    to the student whatever the bot does with it, delivery failed or
    raised included; when the next message of the student reaches the
    default fallback, the judge is asked whether it answers that text. *)
Theorem last_sent_is_recorded_whatever_delivery_does p m w :
  let w' := snd (send_whatsapp_message p m w) in
  last_sent_messages w' !! p = Some m
  /\ (forall raw,
        registered w' p -> has_trigger (lower (strip raw)) = false ->
        has_session open p w' = false -> has_session closed p w' = false ->
        receive_message p raw w' = default_fallback p (lower (strip raw)) m w'
        /\ extends
             (effects w' ++ [ChatCompletion (ReqIsAnswering (lower (strip raw)) m)])
             (snd (receive_message p raw w'))).
Proof.
  cbv zeta. rewrite send_whatsapp_message_spec. cbn [snd].
  assert (L : last_sent_messages (sent p m w) !! p = Some m)
    by (cbn; apply lookup_insert_eq).
  split; [exact L |].
  intros raw Hreg Ht Ho Hc.
  pose proof (receive_message_without_trigger p raw _ Hreg Ht) as E.
  rewrite Ho, Hc in E. unfold last_sent_or_empty in E. rewrite L in E.
  split; [exact E |]. rewrite E. apply default_fallback_asks_first.
Qed.

Lemma last_sent_is_recorded_whatever_delivery_does_witness :
  let w' := snd (send_whatsapp_message Classroom.amy "do you know adapt"
                   offline_morning) in
  fst (send_whatsapp_message Classroom.amy "do you know adapt" offline_morning)
    = Ok false
  /\ last_sent_messages w' !! Classroom.amy = Some "do you know adapt"
  /\ receive_message Classroom.amy "A chameleon" w'
     = default_fallback Classroom.amy "a chameleon" "do you know adapt" w'.
Proof.
  cbv zeta.
  destruct (last_sent_is_recorded_whatever_delivery_does
              Classroom.amy "do you know adapt" offline_morning) as [L F].
  split; [reflexivity |]. split; [exact L |].
  apply (F "A chameleon").
  - exists 3. reflexivity.
  - reflexivity.
  - reflexivity.
  - reflexivity.
Defined.

(** * A question in the middle of closed reading *)

(** C6. In a closed-reading session outside reflection mode, a message that
    the judge takes for no answer attempt but for relevant to learning gets
    the direct answer as the one message sent, and the handler returns
    with every closed-reading session, that of the student included
    (attempt, question, passage, mode and last answer), and the whole
    progress store as they were. *)
Theorem relevant_question_leaves_closed_session_untouched
    p reply w s answer w1 w2 msg w3 :
  reading_sessions w !! p = Some s ->
  r_mode s <> "reflection" ->
  get_current_answer p w = (Ok answer, w) ->
  is_student_answering_question reply (r_question s) w = (Ok false, w1) ->
  is_reply_relevant_to_learning reply (r_question s) w1 = (Ok true, w2) ->
  generate_answer_to_student_question reply w2 = (Ok msg, w3) ->
  handle_reading_reply p reply w = (Ok tt, sent p msg w3)
  /\ reading_sessions (sent p msg w3) = reading_sessions w
  /\ reading_sessions (sent p msg w3) !! p = Some s
  /\ store_kept w (sent p msg w3)
  /\ posts (sent p msg w3)
     = posts w ++ [Post p msg (transport w3 (clock w3) p msg)].
Proof.
  intros Hs Hmode E0 E1 E2 E3.
  calm_from E1. calm_from E2. calm_from E3.
  assert (C : calm w (sent p msg w3))
    by eauto using calm_trans, sent_calm.
  split.
  { unfold handle_reading_reply.
    rewrite (bind_ok get _ w w w eq_refl), Hs.
    apply String.eqb_neq in Hmode. rewrite Hmode. cbv zeta.
    rewrite (bind_ok _ _ _ _ _ E0), (bind_ok _ _ _ _ _ E1). cbn [negb].
    rewrite (bind_ok _ _ _ _ _ E2), (bind_ok _ _ _ _ _ E3).
    now rewrite (bind_ok _ _ _ _ _ (send_whatsapp_message_spec p msg w3)). }
  destruct C as (Hus & _ & _ & _ & _ & Hrs & _ & Hcu).
  split; [exact Hrs |]. split; [now rewrite Hrs |].
  split; [now split |].
  rewrite posts_sent. f_equal.
  assert (P1 : posts w1 = posts w)
    by apply (posts_after_judge _ _ _ _
                (is_student_answering_question_preserves _
                   (posts_chat (posts w)) _ _) E1).
  assert (P2 : posts w2 = posts w1)
    by apply (posts_after_judge _ _ _ _
                (is_reply_relevant_to_learning_preserves _
                   (posts_chat (posts w1)) _ _) E2).
  assert (P3 : posts w3 = posts w2)
    by apply (posts_after_judge _ _ _ _
                (generate_answer_to_student_question_preserves _
                   (posts_chat (posts w2)) _) E3).
  congruence.
Qed.

Lemma relevant_question_leaves_closed_session_untouched_witness :
  exists w3,
    handle_reading_reply Classroom.amy "can english nouns be verbs?" midmorning
      = (Ok tt, sent Classroom.amy "direct answer" w3)
    /\ reading_sessions (sent Classroom.amy "direct answer" w3)
       = reading_sessions midmorning
    /\ store_kept midmorning (sent Classroom.amy "direct answer" w3).
Proof.
  eexists.
  refine (let H := relevant_question_leaves_closed_session_untouched
            Classroom.amy "can english nouns be verbs?" midmorning
            (mkReadingSession "Tom lives in London." "Where does Tom live?"
               1 EmptyString EmptyString)
            "in london" _ _ "direct answer" _ _ _ _ _ _ _ in _).
  destruct H as (E & R & _ & K & _). split; [exact E |]. split; [exact R | exact K].
  Unshelve.
  all: try (vm_compute; reflexivity).
  discriminate.
Defined.

(** * The correctness verdict *)

(** C8, as stated, fails: a reply that carries both markers contains the
    false marker and is still judged correct. *)
Lemma both_markers_are_judged_correct :
  exists content,
    llm double_verdict (clock double_verdict) (ReqEvaluateAnswer "cat" "dog")
      = Some content
    /\ contains marker_is_correct_false (lower content) = true
    /\ fst (evaluate_answer "cat" "dog" double_verdict) = Ok true
    /\ ~ (fst (evaluate_answer "cat" "dog" double_verdict) = Ok false
          <-> contains marker_is_correct_false (lower content) = true).
Proof.
  eexists. split; [reflexivity |]. split; [reflexivity |].
  split; [reflexivity |].
  intros [_ H]. specialize (H eq_refl). discriminate H.
Qed.

(** C8, amended. When the judge replies, [evaluate_answer] returns true
    exactly when the lower-cased reply contains the true marker, returns
    false exactly when it contains the false marker and not the true one,
    and raises the unexpected-response error exactly when it contains
    neither; no verdict is made up.  Containment is that of a substring,
    and stripping the reply first does not change it. *)
Theorem correctness_verdict_follows_markers a c w content :
  llm w (clock w) (ReqEvaluateAnswer a c) = Some content ->
  let says_true := contains marker_is_correct_true (lower content) in
  let says_false := contains marker_is_correct_false (lower content) in
  (fst (evaluate_answer a c w) = Ok true <-> says_true = true)
  /\ (fst (evaluate_answer a c w) = Ok false <->
      says_true = false /\ says_false = true)
  /\ (fst (evaluate_answer a c w)
        = Raise (ValueError (UnexpectedLLMResponse (strip content))) <->
      says_true = false /\ says_false = false)
  /\ (forall marker,
        contains marker (lower content) = true <->
        exists pre post, lower content = pre +:+ marker +:+ post).
Proof.
  intros H. cbv zeta.
  unfold evaluate_answer, bind, chat_completion, try_except. rewrite H.
  rewrite <- (marker_survives_strip marker_is_correct_true content)
    by reflexivity.
  rewrite <- (marker_survives_strip marker_is_correct_false content)
    by reflexivity.
  destruct (contains marker_is_correct_true (lower (strip content)));
    destruct (contains marker_is_correct_false (lower (strip content)));
    cbn; (split; [| split; [| split]]).
  all: try (intros marker; apply contains_spec).
  all: try (split; intros E; (reflexivity || discriminate E)).
  all: split;
         [ intros E; (discriminate E || (split; reflexivity))
         | intros [E1 E2]; (reflexivity || discriminate) ].
Qed.

Lemma correctness_verdict_follows_markers_witness :
  fst (evaluate_answer "cat" "dog" Classroom.morning) = Ok false.
Proof.
  apply (correctness_verdict_follows_markers "cat" "dog" Classroom.morning
           (Classroom.verdict "is_correct" false) eq_refl).
  split; reflexivity.
Defined.

(** * Starting a track with nothing left *)

(** C3, as stated, fails for the two reading tracks: with no question left
    the start raises and nothing is sent. *)
Lemma reading_start_without_content_raises :
  no_content_remaining closed Classroom.amy Classroom.evening
  /\ no_content_remaining open Classroom.amy Classroom.evening
  /\ ~ starts_with_one_notice closed Classroom.amy None Classroom.evening
  /\ ~ starts_with_one_notice open Classroom.amy None Classroom.evening.
Proof.
  split; [reflexivity |]. split; [reflexivity |].
  split; intros [H _]; vm_compute in H; discriminate H.
Qed.

(** C3, amended. With no vocabulary item left, the vocabulary start
    returns normally, creates no session and sends the one all-done
    message.  With no question left, the closed-reading start and the
    open-reading start raise a not-found error to the caller; they create
    no session and send nothing. *)
Theorem start_without_content t p l w :
  no_content_remaining t p w ->
  let out := start_session t p l w in
  sessions_kept w (snd out)
  /\ match t with
     | vocab =>
         fst out = Ok tt
         /\ posts (snd out)
            = posts w
              ++ [Post p vocab_all_done
                    (transport w (clock w) p vocab_all_done)]
     | closed =>
         (fst out = Raise (ValueError NoPassageForDay)
          \/ fst out = Raise (ValueError CannotFindQuestion))
         /\ snd out = w
     | open =>
         fst out = Raise (ValueError CannotFindOpenQuestion)
         /\ snd out = w
     end.
Proof.
  destruct t; cbn [no_content_remaining start_session]; intros H; cbv zeta.
  - (* vocabulary *)
    pose proof (get_current_vocab_row_reads p w) as R.
    destruct (get_current_vocab_row p w) as [r w0] eqn:E.
    cbn in H, R. subst r w0.
    unfold start_vocab_session.
    rewrite (bind_ok _ _ _ _ _ E).
    rewrite (bind_ok _ _ _ _ _ (send_whatsapp_message_spec p vocab_all_done w)).
    cbn [ret fst snd].
    destruct (sent_calm p vocab_all_done w) as (_&_&_&_&?&?&?&_).
    split; [now repeat split |]. split; [reflexivity | apply posts_sent].
  - (* closed reading *)
    pose proof (get_current_question_reads p w) as R.
    destruct (get_current_question p w) as [r w0] eqn:E.
    cbn in H, R. subst r w0.
    pose proof (get_passage_reads p w) as R.
    unfold start_reading_session.
    destruct (get_passage p w) as [[passage|e] w0] eqn:Ep; cbn in R; subst w0.
    + rewrite (bind_ok _ _ _ _ _ Ep), (bind_raise _ _ _ _ _ E).
      cbn. split; [now repeat split | auto].
    + rewrite (bind_raise _ _ _ _ _ Ep). cbn.
      split; [now repeat split |]. split; [| reflexivity].
      (* the passage lookup fails only for want of a passage, since the
         student is on the sheet *)
      unfold get_passage in Ep. unfold get_current_question in E.
      destruct (get_user_data p w) as [[row|e'] w0] eqn:Eu.
      * unfold bind at 1 in Ep. rewrite Eu in Ep. cbv [bind get] in Ep.
        destruct (List.find _ (close_reading_sheet w0)); cbn in Ep;
          [discriminate | injection Ep as <- _; now left].
      * unfold bind at 1 in E. unfold bind at 1 in Ep. rewrite Eu in E, Ep.
        injection E as -> _. injection Ep as <- _. now right.
  - (* open reading *)
    pose proof (get_open_question_reads p w) as R.
    destruct (get_open_question p w) as [r w0] eqn:E.
    cbn in H, R. subst r w0.
    unfold start_open_reading_session.
    rewrite (bind_raise _ _ _ _ _ E). cbn.
    split; [now repeat split | auto].
Qed.

Lemma start_without_content_witness :
  no_content_remaining vocab Classroom.amy Classroom.evening
  /\ starts_with_one_notice vocab Classroom.amy None Classroom.evening.
Proof.
  assert (H : no_content_remaining vocab Classroom.amy Classroom.evening)
    by reflexivity.
  split; [exact H |].
  destruct (start_without_content vocab Classroom.amy None Classroom.evening H)
    as (K & R & P).
  split; [exact R |]. split; [exact K |]. eauto.
Defined.

(** * The attempt counter of the vocabulary handler *)

(** C4, as stated, fails: with a stored attempt of 3 and a wrong answer the
    handler raises nothing; it gives the explanation, advances the cursor
    and moves on as on a second attempt. *)
Lemma third_attempt_is_handled_as_second :
  vocab_sessions third_try !! Classroom.amy
    = Some (mkVocabSession 3 Classroom.adapt)
  /\ fst (handle_vocab_reply Classroom.amy "no idea" third_try) = Ok tt
  /\ fst (handle_vocab_reply Classroom.amy "no idea" third_try)
     <> Raise (ValueError AttemptNotEither1Or2)
  /\ cell_updates (snd (handle_vocab_reply Classroom.amy "no idea" third_try))
     = [UpdateCell 3 col_current_vocab_number 1].
Proof.
  split; [reflexivity |]. split; [reflexivity |].
  split; [discriminate | reflexivity].
Qed.

(** Exceptions that a computation cannot end with. *)
Ltac nr_leaf :=
  let w := fresh "w" in
  intros w; cbv [get modify ret raise chat_completion requests_post
                 del_vocab_session del_reading_session
                 del_open_reading_session set_vocab_attempt py_del
                 py_getitem];
  cbn;
  repeat match goal with
    | |- context [match ?x with _ => _ end] =>
        lazymatch x with
        | context [match _ with _ => _ end] => fail
        | _ => destruct x; cbn
        end
    end;
  discriminate.

Ltac nr_step :=
  match goal with
  | |- never_raises _ (bind _ _) => apply never_raises_bind; [| intros ?]
  | |- never_raises _ (try_except _ _) =>
      apply never_raises_try_except; [| intros ? ?]
  | |- never_raises _ (ret _) => apply never_raises_ret
  | |- never_raises _ (raise _) =>
      apply never_raises_raise; solve [assumption | discriminate]
  | |- never_raises _ (if ?b then _ else _) => destruct b
  | |- never_raises _ (match ?x with _ => _ end) => destruct x
  | |- never_raises _ _ => solve [nr_leaf]
  end.

Ltac nr := cbv zeta; repeat nr_step.

Section NoInvalidAttempt.
Local Abbreviation invalid := (ValueError AttemptNotEither1Or2).

Lemma get_user_data_never_invalid p : never_raises invalid (get_user_data p).
Proof. unfold get_user_data, get_row_index_by_phone. nr. Qed.

Lemma send_whatsapp_message_never_invalid p m :
  never_raises invalid (send_whatsapp_message p m).
Proof. unfold send_whatsapp_message. nr. Qed.

Lemma advance_vocab_index_never_invalid p :
  never_raises invalid (advance_vocab_index p).
Proof.
  unfold advance_vocab_index, update_sheet, update_cell,
    get_row_index_by_phone.
  apply never_raises_bind; [apply get_user_data_never_invalid | intros ?].
  nr.
Qed.

Lemma start_vocab_session_never_invalid p :
  never_raises invalid (start_vocab_session p).
Proof.
  unfold start_vocab_session, get_current_vocab_row,
    ask_vocab_meaning_question.
  apply never_raises_bind.
  { apply never_raises_bind; [apply get_user_data_never_invalid | intros ?].
    nr. }
  intros [v|];
    repeat first
      [ apply send_whatsapp_message_never_invalid
      | nr_step ].
Qed.

Lemma evaluate_answer_never_invalid a c :
  never_raises invalid (evaluate_answer a c).
Proof. unfold evaluate_answer. nr. Qed.

Lemma handle_vocab_reply_never_invalid p r :
  never_raises invalid (handle_vocab_reply p r).
Proof.
  unfold handle_vocab_reply, give_vocab_correct_reply,
    give_vocab_hint_or_explanation.
  cbn [Z.eqb Pos.eqb orb negb].
  repeat first
    [ apply send_whatsapp_message_never_invalid
    | apply advance_vocab_index_never_invalid
    | apply start_vocab_session_never_invalid
    | apply evaluate_answer_never_invalid
    | nr_step ].
Qed.
End NoInvalidAttempt.

(** C4, amended. The invalid-attempt error belongs to
    [give_vocab_hint_or_explanation], which raises it, before any call to
    the judge, for an attempt other than 1 and 2.  The vocabulary reply
    handler only ever passes 1 or 2 and so never ends with that error:
    with a stored attempt other than 1 and a wrong answer it takes the
    explanation path of the second attempt. *)
Theorem vocab_handler_has_no_invalid_attempt p reply w s w1 :
  vocab_sessions w !! p = Some s ->
  v_attempt s <> 1 ->
  evaluate_answer reply (ChineseExplaination (last_vocab s)) w = (Ok false, w1) ->
  handle_vocab_reply p reply w
    = (do msg <- give_vocab_hint_or_explanation (last_vocab s) reply 2;
       run advance_vocab_index p;
       run del_vocab_session p;
       run send_whatsapp_message p msg;
       start_vocab_session p) w1
  /\ (forall p' reply' w',
        fst (handle_vocab_reply p' reply' w')
        <> Raise (ValueError AttemptNotEither1Or2))
  /\ (forall v a n w',
        n <> 1 -> n <> 2 ->
        give_vocab_hint_or_explanation v a n w'
          = (Raise (ValueError AttemptNotEither1Or2), w')).
Proof.
  intros Hs Ha E1. split; [| split].
  - unfold handle_vocab_reply.
    rewrite (bind_ok get _ w w w eq_refl), Hs. cbv zeta.
    rewrite (bind_ok _ _ _ _ _ E1).
    apply Z.eqb_neq in Ha. now rewrite Ha.
  - intros p' reply' w'. apply handle_vocab_reply_never_invalid.
  - intros v a n w' H1 H2. unfold give_vocab_hint_or_explanation.
    apply Z.eqb_neq in H1, H2. now rewrite H1, H2.
Qed.

Lemma vocab_handler_has_no_invalid_attempt_witness :
  exists w1,
    handle_vocab_reply Classroom.amy "no idea" third_try
    = (do msg <- give_vocab_hint_or_explanation Classroom.adapt "no idea" 2;
       run advance_vocab_index Classroom.amy;
       run del_vocab_session Classroom.amy;
       run send_whatsapp_message Classroom.amy msg;
       start_vocab_session Classroom.amy) w1.
Proof.
  eexists.
  refine (proj1 (vocab_handler_has_no_invalid_attempt
                   Classroom.amy "no idea" third_try
                   (mkVocabSession 3 Classroom.adapt) _ _ _ _)).
  - reflexivity.
  - discriminate.
  - vm_compute. reflexivity.
Defined.

(** * More of sheet_utils *)

Lemma find_row_index_some us p k i :
  find_row_index us p k = Some i <->
  exists n row,
    i = k + Z.of_nat n /\ us !! n = Some row /\ phone_no row = p
    /\ Forall (fun r => phone_no r <> p) (take n us).
Proof.
  revert k. induction us as [|r us IH]; intros k; cbn.
  - split; [discriminate | intros (n & row & _ & H & _); discriminate].
  - destruct (phone_no r =? p) eqn:E.
    + apply Z.eqb_eq in E. split.
      * intros [= <-]. exists 0%nat, r. cbn. repeat split; auto; lia.
      * intros ([|n] & row & -> & Hn & Hp & Hf); [f_equal; lia |].
        cbn in Hf. apply Forall_cons in Hf as [Hf _]. congruence.
    + apply Z.eqb_neq in E. rewrite IH. split.
      * intros (n & row & -> & Hn & Hp & Hf).
        exists (S n), row. cbn.
        split; [lia |]. split; [exact Hn |]. split; [exact Hp |].
        now apply Forall_cons.
      * intros ([|n] & row & -> & Hn & Hp & Hf); cbn in Hn.
        -- congruence.
        -- exists n, row. cbn in Hf. apply Forall_cons in Hf as [_ Hf].
           repeat split; auto; lia.
Qed.

Lemma find_row_index_none us p k :
  find_row_index us p k = None <-> Forall (fun r => phone_no r <> p) us.
Proof.
  revert k. induction us as [|r us IH]; intros k; cbn.
  - split; [constructor | reflexivity].
  - destruct (phone_no r =? p) eqn:E.
    + apply Z.eqb_eq in E. split; [discriminate |].
      intros Hf. apply Forall_cons in Hf as [Hf _]. congruence.
    + apply Z.eqb_neq in E. rewrite IH. split.
      * intros Hf. now apply Forall_cons.
      * intros Hf. now apply Forall_cons in Hf as [_ Hf].
Qed.

(** X1. [get_row_index_by_phone] returns the sheet row (counted from 2, the
    row under the header) of the first record with the phone number, and
    raises the not-found error exactly when no record has it; it never
    changes the world. *)
Theorem row_index_is_first_match p w :
  (forall i,
     get_row_index_by_phone p w = (Ok i, w) <->
     exists n row,
       i = 2 + Z.of_nat n /\ user_sheet w !! n = Some row /\ phone_no row = p
       /\ Forall (fun r => phone_no r <> p) (take n (user_sheet w)))
  /\ (get_row_index_by_phone p w = (Raise (ValueError PhoneNotFound), w) <->
      Forall (fun r => phone_no r <> p) (user_sheet w)).
Proof.
  unfold get_row_index_by_phone. cbv [bind get ret raise].
  split.
  - intros i. rewrite <- find_row_index_some.
    destruct (find_row_index (user_sheet w) p 2); cbn;
      split; intros H; try discriminate; congruence.
  - rewrite <- (find_row_index_none _ p 2).
    destruct (find_row_index (user_sheet w) p 2); cbn;
      split; intros H; try discriminate; reflexivity.
Qed.

Lemma find_by_phone us p k :
  match find_row_index us p k with
  | Some i =>
      exists row, us !! Z.to_nat (i - k) = Some row
                  /\ List.find (fun r => phone_no r =? p) us = Some row
  | None => List.find (fun r => phone_no r =? p) us = None
  end.
Proof.
  revert k. induction us as [|r us IH]; intros k; cbn; [reflexivity |].
  destruct (phone_no r =? p).
  - exists r. now replace (Z.to_nat (k - k)) with 0%nat by lia.
  - specialize (IH (k + 1)).
    destruct (find_row_index us p (k + 1)) as [i|] eqn:E; [| exact IH].
    destruct IH as (row & Hrow & Hfind). exists row. split; [| exact Hfind].
    apply find_row_index_some in E as (n & _ & -> & _).
    replace (Z.to_nat (k + 1 + Z.of_nat n - k)) with (S n) by lia.
    now replace (Z.to_nat (k + 1 + Z.of_nat n - (k + 1))) with n in Hrow by lia.
Qed.

(** X2. The name lookup and the row lookup find the same record: when the
    name of a student is found, every later lookup of the student's record
    succeeds and returns the record with that name; and the two lookups
    fail together. *)
Theorem name_and_record_come_from_one_row p w :
  (forall name,
     get_student_name_by_phone p w = (Ok name, w) ->
     exists row, get_user_data p w = (Ok row, w) /\ eng_name row = name)
  /\ (get_student_name_by_phone p w = (Raise (ValueError StudentNotFound), w)
      <-> get_user_data p w = (Raise (ValueError PhoneNotFound), w)).
Proof.
  pose proof (find_by_phone (user_sheet w) p 2) as H.
  unfold get_student_name_by_phone. cbv [bind get ret raise].
  destruct (find_row_index (user_sheet w) p 2) as [i|] eqn:E.
  - destruct H as (row & Hrow & Hfind). rewrite Hfind. cbn.
    rewrite (get_user_data_found w p i row E Hrow). split.
    + intros name [= <-]. now exists row.
    + split; discriminate.
  - rewrite H. cbn. split; [discriminate |].
    unfold get_user_data, get_row_index_by_phone. cbv [bind get ret raise].
    rewrite E. cbn. split; reflexivity.
Qed.

Lemma name_and_record_come_from_one_row_witness :
  exists row,
    get_user_data Classroom.amy Classroom.morning = (Ok row, Classroom.morning)
    /\ eng_name row = "Amy".
Proof.
  apply (proj1 (name_and_record_come_from_one_row
                  Classroom.amy Classroom.morning) "Amy").
  reflexivity.
Defined.

Lemma get_user_data_cases q w :
  (exists i row,
     find_row_index (user_sheet w) q 2 = Some i
     /\ user_sheet w !! Z.to_nat (i - 2) = Some row
     /\ phone_no row = q
     /\ get_user_data q w = (Ok row, w))
  \/ (find_row_index (user_sheet w) q 2 = None
      /\ get_user_data q w = (Raise (ValueError PhoneNotFound), w)).
Proof.
  destruct (find_row_index (user_sheet w) q 2) as [i|] eqn:E.
  - left. destruct (registered_row w q (ex_intro _ i E))
      as (i' & row & Hi & Hrow & Hp).
    assert (i' = i) by congruence. subst i'.
    exists i, row. repeat split; auto. now apply get_user_data_found with i.
  - right. split; [reflexivity |].
    unfold get_user_data, get_row_index_by_phone. cbv [bind get].
    now rewrite E.
Qed.

Lemma find_row_index_insert us n row row' p k :
  us !! n = Some row -> phone_no row' = phone_no row ->
  find_row_index (<[n := row']> us) p k = find_row_index us p k.
Proof.
  revert n k. induction us as [|r us IH]; intros [|n] k; cbn;
    try discriminate.
  - intros [= ->] ->. reflexivity.
  - intros Hn Hp. destruct (phone_no r =? p); [reflexivity |].
    now apply IH.
Qed.

Lemma phone_no_set_column c d row :
  phone_no (set_column c d row) = phone_no row.
Proof. now destruct c. Qed.

(** Writing a cell of the record of [p] leaves the record of any other
    student where it was. *)
Lemma get_user_data_after_insert p q i row row' f w :
  find_row_index (user_sheet w) p 2 = Some i ->
  user_sheet w !! Z.to_nat (i - 2) = Some row ->
  phone_no row' = phone_no row ->
  q <> p ->
  user_sheet (f w) = <[Z.to_nat (i - 2) := row']> (user_sheet w) ->
  fst (get_user_data q (f w)) = fst (get_user_data q w).
Proof.
  intros Hi Hrow Hp Hq Hus.
  destruct (find_row_index_spec _ _ _ _ Hi) as (n & r0 & -> & Hn & Hpn).
  replace (Z.to_nat (2 + Z.of_nat n - 2)) with n in * by lia.
  assert (r0 = row) by congruence. subst r0.
  destruct (get_user_data_cases q w)
    as [(j & r & Hj & Hr & Hpr & E) | [Hj E]]; rewrite E; cbn.
  - destruct (find_row_index_spec _ _ _ _ Hj) as (m & r1 & -> & Hm & Hpm).
    replace (Z.to_nat (2 + Z.of_nat m - 2)) with m in * by lia.
    assert (r1 = r) by congruence. subst r1.
    assert (m <> n) by (intros ->; congruence).
    rewrite (get_user_data_found (f w) q (2 + Z.of_nat m) r); [reflexivity | |].
    + rewrite Hus. now rewrite (find_row_index_insert _ _ row).
    + rewrite Hus. replace (Z.to_nat (2 + Z.of_nat m - 2)) with m by lia.
      now rewrite list_lookup_insert_ne.
  - destruct (get_user_data_cases q (f w))
      as [(j & r & Hj' & _) | [_ E']]; [| now rewrite E'].
    rewrite Hus, (find_row_index_insert _ _ row) in Hj' by auto. congruence.
Qed.

(** X3. Writing a cell with [update_sheet] and reading the record back:
    for a student on the sheet the write succeeds, the record read back is
    the old one with that column set, and the record of every other
    student reads as before; for a phone number that is not on the sheet
    the write raises the not-found error and changes nothing. *)
Theorem update_sheet_then_read_back p c d w :
  (registered w p ->
   exists row w',
     get_user_data p w = (Ok row, w)
     /\ update_sheet p c d w = (Ok tt, w')
     /\ get_user_data p w' = (Ok (set_column c d row), w')
     /\ (forall q, q <> p ->
                   fst (get_user_data q w') = fst (get_user_data q w)))
  /\ (~ registered w p ->
      update_sheet p c d w = (Raise (ValueError PhoneNotFound), w)).
Proof.
  split.
  - intros Hreg.
    destruct (registered_row _ _ Hreg) as (i & row & Hi & Hrow & Hp).
    exists row. eexists.
    split; [now apply get_user_data_found with i |].
    assert (E : update_sheet p c d w =
                (Ok tt, emit 0 (UpdateCell i c d)
                   (set_user_sheet
                      (fun us => <[Z.to_nat (i - 2) := set_column c d row]> us)
                      w))).
    { unfold update_sheet, get_row_index_by_phone, update_cell.
      cbv [bind get modify]. rewrite Hi. cbn.
      unfold set_user_sheet. now rewrite (list_alter_found _ _ _ _ Hrow). }
    split; [exact E |]. split.
    + apply get_user_data_found with i; cbn.
      * rewrite (find_row_index_insert _ _ row); auto using phone_no_set_column.
      * apply list_lookup_insert_eq. now apply lookup_lt_Some with row.
    + intros q Hq.
      apply (get_user_data_after_insert p q i row (set_column c d row)
               (fun w => emit 0 (UpdateCell i c d)
                  (set_user_sheet
                     (fun us => <[Z.to_nat (i - 2) := set_column c d row]> us)
                     w)));
        auto using phone_no_set_column.
  - intros Hn. unfold update_sheet, get_row_index_by_phone.
    cbv [bind get]. destruct (find_row_index (user_sheet w) p 2) as [i|] eqn:E;
      [| reflexivity].
    exfalso. apply Hn. exists i. exact E.
Qed.

Lemma update_sheet_then_read_back_witness :
  exists row w',
    get_user_data Classroom.amy Classroom.morning = (Ok row, Classroom.morning)
    /\ update_sheet Classroom.amy col_current_vocab_number 5 Classroom.morning
       = (Ok tt, w')
    /\ get_user_data Classroom.amy w'
       = (Ok (set_column col_current_vocab_number 5 row), w')
    /\ (forall q, q <> Classroom.amy ->
                  fst (get_user_data q w')
                  = fst (get_user_data q Classroom.morning)).
Proof.
  apply (proj1 (update_sheet_then_read_back
                  Classroom.amy col_current_vocab_number 5 Classroom.morning)).
  exists 3. reflexivity.
Defined.

Lemma get_current_vocab_row_unfold p w user :
  get_user_data p w = (Ok user, w) ->
  get_current_vocab_row p w =
    (let today := vocab_of_day w (day_of_training user) in
     if Z.of_nat (length today) <=? current_vocab_number user then ret None
     else do v <- py_getitem today (current_vocab_number user); ret (Some v)) w.
Proof.
  intros E. unfold get_current_vocab_row.
  now rewrite (bind_ok _ _ _ _ _ E), (bind_ok get _ w w w eq_refl).
Qed.

(** X4. [get_current_vocab_row] reads the cursor as a Python index into the
    rows of the student's day: at or past the end there is no row left
    ([None]); from 0 up it is the row at that position; a negative cursor
    is not refused but counts from the end of the day's rows; and one below
    minus the number of rows raises an index error. *)
Theorem vocab_row_follows_cursor p w user :
  get_user_data p w = (Ok user, w) ->
  let today := vocab_of_day w (day_of_training user) in
  let k := current_vocab_number user in
  let n := Z.of_nat (length today) in
  (n <= k -> get_current_vocab_row p w = (Ok None, w))
  /\ (0 <= k < n ->
      is_Some (today !! Z.to_nat k)
      /\ get_current_vocab_row p w = (Ok (today !! Z.to_nat k), w))
  /\ (- n <= k < 0 ->
      is_Some (today !! Z.to_nat (k + n))
      /\ get_current_vocab_row p w = (Ok (today !! Z.to_nat (k + n)), w))
  /\ (k < - n -> get_current_vocab_row p w = (Raise IndexError, w)).
Proof.
  intros E. cbv zeta. rewrite (get_current_vocab_row_unfold p w user E).
  cbv zeta.
  set (today := vocab_of_day w (day_of_training user)).
  set (k := current_vocab_number user).
  split; [| split; [| split]]; intros H.
  - assert (Hle : (Z.of_nat (length today) <=? k) = true)
      by now apply Z.leb_le.
    now rewrite Hle.
  - assert (Hle : (Z.of_nat (length today) <=? k) = false)
      by (apply Z.leb_gt; lia).
    rewrite Hle.
    assert (Hs : is_Some (today !! Z.to_nat k))
      by (apply lookup_lt_is_Some; lia).
    split; [exact Hs |]. destruct Hs as [v Hv]. rewrite Hv.
    now rewrite (bind_ok _ _ _ _ _ (py_getitem_in_range today k v w
                                     (proj1 H) Hv)).
  - assert (Hle : (Z.of_nat (length today) <=? k) = false)
      by (apply Z.leb_gt; lia).
    rewrite Hle.
    assert (Hs : is_Some (today !! Z.to_nat (k + Z.of_nat (length today))))
      by (apply lookup_lt_is_Some; lia).
    split; [exact Hs |]. destruct Hs as [v Hv]. rewrite Hv.
    unfold bind, py_getitem.
    assert (H1 : (k <? 0) = true) by (apply Z.ltb_lt; lia). rewrite H1.
    assert (H2 : (k + Z.of_nat (length today) <? 0) = false)
      by (apply Z.ltb_ge; lia).
    assert (H3 : (Z.of_nat (length today) <=? k + Z.of_nat (length today))
                 = false) by (apply Z.leb_gt; lia).
    rewrite H2, H3. cbn. now rewrite Hv.
  - assert (Hle : (Z.of_nat (length today) <=? k) = false)
      by (apply Z.leb_gt; lia).
    rewrite Hle. unfold bind, py_getitem.
    assert (H1 : (k <? 0) = true) by (apply Z.ltb_lt; lia). rewrite H1.
    assert (H2 : (k + Z.of_nat (length today) <? 0) = true)
      by (apply Z.ltb_lt; lia).
    now rewrite H2.
Qed.

Lemma vocab_row_follows_cursor_witness :
  get_current_vocab_row Classroom.amy rewound
  = (Ok (Some Classroom.fragile), rewound).
Proof.
  apply (vocab_row_follows_cursor Classroom.amy rewound
           (mkUserRow Classroom.amy "Amy" 1 1 (-1) 1) eq_refl).
  cbn. lia.
Defined.

(** X5. The closed question and its model answer are read from the same
    row, the first one with the student's day and question number, so the
    two lookups succeed or fail together; the passage is that of the first
    row of the day. *)
Theorem closed_question_and_answer_share_a_row p w user :
  get_user_data p w = (Ok user, w) ->
  match closed_row_at w user with
  | Some row =>
      In row (close_reading_sheet w)
      /\ c_day_of_training row = day_of_training user
      /\ c_question_id row = current_question_number user
      /\ get_current_question p w = (Ok (c_question_text row), w)
      /\ get_current_answer p w = (Ok (c_answer_text row), w)
      /\ exists first,
           List.find (fun r => c_day_of_training r =? day_of_training user)
             (close_reading_sheet w) = Some first
           /\ get_passage p w = (Ok (c_passage_text first), w)
  | None =>
      get_current_question p w = (Raise (ValueError CannotFindQuestion), w)
      /\ get_current_answer p w = (Raise (ValueError CannotFindQuestion), w)
  end.
Proof.
  intros E.
  unfold get_current_question, get_current_answer, get_passage.
  rewrite !(bind_ok _ _ _ _ _ E), !(bind_ok get _ w w w eq_refl).
  unfold closed_row_at.
  destruct (List.find _ (close_reading_sheet w)) as [row|] eqn:F;
    [| now split].
  destruct (List.find_some _ _ F) as [Hin Hb].
  apply andb_true_iff in Hb as [Hd Hq].
  apply Z.eqb_eq in Hd, Hq.
  repeat (split; [solve [auto] |]).
  destruct (List.find (fun r => c_day_of_training r =? day_of_training user)
              (close_reading_sheet w)) as [first|] eqn:G.
  - now exists first.
  - pose proof (List.find_none _ _ G row Hin) as N. cbn in N.
    apply Z.eqb_neq in N. contradiction.
Qed.

Lemma closed_question_and_answer_share_a_row_witness :
  get_current_question Classroom.amy Classroom.morning
    = (Ok "Where does Tom live?", Classroom.morning)
  /\ get_current_answer Classroom.amy Classroom.morning
     = (Ok "in london", Classroom.morning).
Proof.
  pose proof (closed_question_and_answer_share_a_row
                Classroom.amy Classroom.morning
                (mkUserRow Classroom.amy "Amy" 1 1 0 1) eq_refl) as H.
  cbn in H. destruct H as (_ & _ & _ & Q & A & _). now split.
Defined.

(** X6. The open question, its learning objective and its model answer are
    read from the same row, the first one with the student's day and open
    question number: the three lookups succeed together, so once the
    question of a session has been found the objective and the answer are
    found as long as the cursor stays; and they fail together, each with
    its own error. *)
Theorem open_question_objective_and_answer_share_a_row p w user :
  get_user_data p w = (Ok user, w) ->
  match open_row_at w user with
  | Some row =>
      In row (open_reading_sheet w)
      /\ o_day_of_training row = day_of_training user
      /\ o_question_id row = current_open_question_number user
      /\ get_open_question p w = (Ok (o_question_text row), w)
      /\ get_open_question_objective p w = (Ok (o_learning_objective row), w)
      /\ get_open_question_ans p w = (Ok (o_answer_text row), w)
  | None =>
      get_open_question p w = (Raise (ValueError CannotFindOpenQuestion), w)
      /\ get_open_question_objective p w
         = (Raise (ValueError CannotFindObjective), w)
      /\ get_open_question_ans p w
         = (Raise (ValueError CannotFindOpenAnswer), w)
  end.
Proof.
  intros E.
  unfold get_open_question, get_open_question_objective, get_open_question_ans.
  rewrite !(bind_ok _ _ _ _ _ E), !(bind_ok get _ w w w eq_refl).
  unfold open_row_at.
  destruct (List.find _ (open_reading_sheet w)) as [row|] eqn:F;
    [| now repeat split].
  destruct (List.find_some _ _ F) as [Hin Hb].
  apply andb_true_iff in Hb as [Hd Hq].
  apply Z.eqb_eq in Hd, Hq.
  now repeat split.
Qed.

Lemma open_question_objective_and_answer_share_a_row_witness :
  get_open_question Classroom.amy Classroom.morning
    = (Ok "What would you do?", Classroom.morning)
  /\ get_open_question_objective Classroom.amy Classroom.morning
     = (Ok "empathy", Classroom.morning).
Proof.
  pose proof (open_question_objective_and_answer_share_a_row
                Classroom.amy Classroom.morning
                (mkUserRow Classroom.amy "Amy" 1 1 0 1) eq_refl) as H.
  cbn in H. destruct H as (_ & _ & _ & Q & O & _). now split.
Defined.

Lemma update_sheet_found p c d w i row :
  find_row_index (user_sheet w) p 2 = Some i ->
  user_sheet w !! Z.to_nat (i - 2) = Some row ->
  update_sheet p c d w =
    (Ok tt,
     emit 0 (UpdateCell i c d)
       (set_user_sheet
          (fun us => <[Z.to_nat (i - 2) := set_column c d row]> us) w)).
Proof.
  intros Hi Hrow. unfold update_sheet, get_row_index_by_phone, update_cell.
  cbv [bind get modify]. rewrite Hi. cbn.
  unfold set_user_sheet. now rewrite (list_alter_found _ _ _ _ Hrow).
Qed.

(** A world that differs from [w] by one write into the record of [p]. *)
Lemma row_write_facts p i row row' w w' :
  find_row_index (user_sheet w) p 2 = Some i ->
  user_sheet w !! Z.to_nat (i - 2) = Some row ->
  phone_no row' = phone_no row ->
  user_sheet w' = <[Z.to_nat (i - 2) := row']> (user_sheet w) ->
  find_row_index (user_sheet w') p 2 = Some i
  /\ user_sheet w' !! Z.to_nat (i - 2) = Some row'
  /\ (forall q, q <> p -> fst (get_user_data q w') = fst (get_user_data q w)).
Proof.
  intros Hi Hrow Hp Hus. split; [| split].
  - rewrite Hus. now rewrite (find_row_index_insert _ _ row).
  - rewrite Hus. apply list_lookup_insert_eq. now apply lookup_lt_Some with row.
  - intros q Hq.
    now apply (get_user_data_after_insert p q i row row' (fun _ => w') w).
Qed.

(** X7. [advance_day_of_training] moves a student on the sheet to the next
    day, puts the closed-question number back to 1 and the vocabulary
    number back to 0, and leaves the open-question number where it was;
    name and phone number stay, and so does every other student's record.
    It does so by three cell writes in the row of the student, in the
    order day, closed-question number, vocabulary number, and nothing
    else.  For a phone number that is not on the sheet it raises the
    not-found error and writes nothing. *)
Theorem day_rollover_resets_two_cursors p w :
  (registered w p ->
   exists row w' i,
     get_user_data p w = (Ok row, w)
     /\ advance_day_of_training p w = (Ok tt, w')
     /\ get_user_data p w'
        = (Ok (mkUserRow (phone_no row) (eng_name row)
                 (day_of_training row + 1) 1 0
                 (current_open_question_number row)), w')
     /\ (forall q, q <> p ->
                   fst (get_user_data q w') = fst (get_user_data q w))
     /\ find_row_index (user_sheet w) p 2 = Some i
     /\ effects w'
        = effects w
          ++ [UpdateCell i col_day_of_training (day_of_training row + 1);
              UpdateCell i col_current_question_number 1;
              UpdateCell i col_current_vocab_number 0])
  /\ (~ registered w p ->
      advance_day_of_training p w = (Raise (ValueError PhoneNotFound), w)).
Proof.
  split.
  - intros Hreg.
    destruct (registered_row _ _ Hreg) as (i & row & Hi & Hrow & Hp).
    pose proof (get_user_data_found w p i row Hi Hrow) as E0.
    exists row.
    (* first write: the day *)
    pose proof (update_sheet_found p col_day_of_training
                  (day_of_training row + 1) w i row Hi Hrow) as E1.
    match type of E1 with _ = (_, ?x) => set (w1 := x) in E1 end.
    destruct (row_write_facts p i row
                (set_column col_day_of_training (day_of_training row + 1) row)
                w w1 Hi Hrow eq_refl eq_refl) as (Hi1 & Hrow1 & O1).
    (* second write: the closed-question number *)
    pose proof (update_sheet_found p col_current_question_number 1 w1 i _
                  Hi1 Hrow1) as E2.
    match type of E2 with _ = (_, ?x) => set (w2 := x) in E2 end.
    destruct (row_write_facts p i _
                (set_column col_current_question_number 1
                   (set_column col_day_of_training
                      (day_of_training row + 1) row))
                w1 w2 Hi1 Hrow1 eq_refl eq_refl) as (Hi2 & Hrow2 & O2).
    (* third write: the vocabulary number *)
    pose proof (update_sheet_found p col_current_vocab_number 0 w2 i _
                  Hi2 Hrow2) as E3.
    match type of E3 with _ = (_, ?x) => set (w3 := x) in E3 end.
    destruct (row_write_facts p i _
                (set_column col_current_vocab_number 0
                   (set_column col_current_question_number 1
                      (set_column col_day_of_training
                         (day_of_training row + 1) row)))
                w2 w3 Hi2 Hrow2 eq_refl eq_refl) as (Hi3 & Hrow3 & O3).
    exists w3, i. split; [exact E0 |]. split.
    + unfold advance_day_of_training.
      rewrite (bind_ok _ _ _ _ _ E0). cbv zeta.
      now rewrite (bind_ok _ _ _ _ _ E1), (bind_ok _ _ _ _ _ E2).
    + split; [exact (get_user_data_found w3 p i _ Hi3 Hrow3) |].
      split; [intros q Hq; now rewrite (O3 q Hq), (O2 q Hq), (O1 q Hq) |].
      split; [exact Hi |].
      cbn. now rewrite <- !app_assoc.
  - intros Hn. unfold advance_day_of_training.
    destruct (get_user_data_cases p w)
      as [(i & _ & Hi & _) | [_ E]].
    + exfalso. apply Hn. now exists i.
    + now rewrite (bind_raise _ _ _ _ _ E).
Qed.

Lemma day_rollover_resets_two_cursors_witness :
  exists w',
    advance_day_of_training Classroom.amy Classroom.evening = (Ok tt, w')
    /\ get_user_data Classroom.amy w'
       = (Ok (mkUserRow Classroom.amy "Amy" 2 1 0 2), w')
    /\ effects w'
       = [UpdateCell 3 col_day_of_training 2;
          UpdateCell 3 col_current_question_number 1;
          UpdateCell 3 col_current_vocab_number 0].
Proof.
  destruct (proj1 (day_rollover_resets_two_cursors
                     Classroom.amy Classroom.evening))
    as (row & w' & i & E0 & E1 & E2 & _ & Hi & Hf).
  - exists 3. reflexivity.
  - exists w'. split; [exact E1 |].
    injection E0 as <-. injection Hi as <-. split; [exact E2 | exact Hf].
Defined.

(** * The attempt-range errors *)

Ltac nr_with lemmas := repeat first [ lemmas | nr_step ].

Lemma readers_never_attempt_error e p :
  attempt_error e ->
  never_raises e (get_user_data p)
  /\ never_raises e (get_student_name_by_phone p)
  /\ never_raises e (get_passage p)
  /\ never_raises e (get_current_question p)
  /\ never_raises e (get_current_answer p)
  /\ never_raises e (get_open_question p)
  /\ never_raises e (get_open_question_objective p)
  /\ never_raises e (get_open_question_ans p)
  /\ never_raises e (get_current_vocab_row p).
Proof.
  intros [-> | ->];
    match goal with
    | |- never_raises ?x _ /\ _ =>
        assert (U : never_raises x (get_user_data p))
          by (unfold get_user_data, get_row_index_by_phone; nr)
    end;
    (split; [exact U |]);
    unfold get_student_name_by_phone, get_passage, get_current_question,
      get_current_answer, get_open_question, get_open_question_objective,
      get_open_question_ans, get_current_vocab_row;
    repeat split; nr_with ltac:(exact U).
Qed.

Lemma judge_never_attempt_error e :
  attempt_error e ->
  (forall r, never_raises e (chat_completion r))
  /\ (forall a c, never_raises e (evaluate_answer a c))
  /\ (forall p m, never_raises e (send_whatsapp_message p m)).
Proof.
  intros [-> | ->];
    unfold evaluate_answer, send_whatsapp_message;
    repeat split; intros; nr.
Qed.

Lemma advance_never_attempt_error e t p :
  attempt_error e -> never_raises e (advance_cursor t p).
Proof.
  intros He.
  destruct (readers_never_attempt_error e p He) as (U & _).
  destruct He as [-> | ->]; destruct t; cbn;
    unfold advance_vocab_index, advance_question_progress,
      advance_open_question_progress, update_sheet, update_cell,
      get_row_index_by_phone;
    nr_with ltac:(exact U).
Qed.

Lemma start_session_never_attempt_error e t p l :
  attempt_error e -> never_raises e (start_session t p l).
Proof.
  intros He.
  destruct (readers_never_attempt_error e p He)
    as (_ & N & Ps & Q & _ & O & _ & _ & V).
  destruct (judge_never_attempt_error e He) as (C & _ & S).
  destruct He as [-> | ->]; destruct t; cbn;
    unfold start_vocab_session, start_reading_session,
      start_open_reading_session, ask_vocab_meaning_question,
      generate_question_message, ask_open_question;
    nr_with ltac:(first [ apply C | apply S | exact N | exact Ps | exact Q
                        | exact O | exact V ]).
Qed.

Lemma give_hint_or_explanation_in_range e u c q s a :
  attempt_error e -> 1 <= a <= 3 ->
  never_raises e (give_hint_or_explanation u c q s a).
Proof.
  intros He Ha. unfold give_hint_or_explanation.
  assert (G : ((a <? 1) || (3 <? a)) = false).
  { apply orb_false_intro; apply Z.ltb_ge; lia. }
  rewrite G. destruct He as [-> | ->]; nr.
Qed.

Lemma handle_vocab_reply_never_attempt_error e p r :
  attempt_error e -> never_raises e (handle_vocab_reply p r).
Proof.
  intros He.
  destruct (judge_never_attempt_error e He) as (C & Ev & S).
  pose proof (advance_never_attempt_error e vocab p He) as A.
  pose proof (start_session_never_attempt_error e vocab p None He) as St.
  cbn in A, St.
  destruct He as [-> | ->];
    unfold handle_vocab_reply, give_vocab_correct_reply,
      give_vocab_hint_or_explanation;
    cbn [Z.eqb Pos.eqb orb negb];
    nr_with ltac:(first [ apply C | apply Ev | apply S | exact A | exact St ]).
Qed.

Lemma handle_open_reading_reply_never_attempt_error e p r :
  attempt_error e -> never_raises e (handle_open_reading_reply p r).
Proof.
  intros He.
  destruct (readers_never_attempt_error e p He)
    as (_ & _ & _ & _ & _ & _ & Ob & An & _).
  destruct (judge_never_attempt_error e He) as (C & _ & S).
  pose proof (advance_never_attempt_error e open p He) as A.
  pose proof (start_session_never_attempt_error e open p None He) as St.
  cbn in A, St.
  destruct He as [-> | ->];
    unfold handle_open_reading_reply, is_reply_relevant_to_learning,
      respond_to_open_answer;
    nr_with ltac:(first [ apply C | apply S | exact A | exact St
                        | exact Ob | exact An ]).
Qed.

Lemma handle_reading_reply_never_attempt_error e p r w :
  attempt_error e -> attempt_bounds w ->
  fst (handle_reading_reply p r w) <> Raise e.
Proof.
  intros He [_ Hb].
  destruct (readers_never_attempt_error e p He)
    as (_ & _ & _ & _ & An & _).
  destruct (judge_never_attempt_error e He) as (C & Ev & S).
  pose proof (advance_never_attempt_error e closed p He) as A.
  pose proof (fun l => start_session_never_attempt_error e closed p l He) as St.
  cbn in A, St.
  unfold handle_reading_reply.
  rewrite (bind_ok get _ w w w eq_refl).
  destruct (reading_sessions w !! p) as [s|] eqn:Hs.
  - destruct (String.eqb (r_mode s) "reflection") eqn:Hm.
    + refine ((_ : never_raises e _) w).
      unfold respond_to_reflection.
      destruct He as [-> | ->];
        nr_with ltac:(first [ apply C | apply S | exact A | apply St
                            | exact An ]).
    + apply String.eqb_neq in Hm. specialize (Hb p s Hs Hm).
      pose proof (fun u c q x =>
                    give_hint_or_explanation_in_range e u c q x
                      (r_attempt s) He Hb) as G.
      pose proof (fun u c q x =>
                    give_hint_or_explanation_in_range e u c q x 3 He
                      ltac:(lia)) as G3.
      refine ((_ : never_raises e _) w).
      unfold is_student_answering_question, is_reply_relevant_to_learning,
        generate_answer_to_student_question, handle_irrelevant_input_with_llm,
        ask_why_correct.
      destruct He as [-> | ->];
        nr_with ltac:(first [ apply C | apply Ev | apply S | exact A
                            | apply St | exact An | apply G | apply G3 ]).
  - refine ((_ : never_raises e _) w).
    destruct He as [-> | ->]; nr_with ltac:(apply S).
Qed.

Lemma default_fallback_never_attempt_error e p m q :
  attempt_error e -> never_raises e (default_fallback p m q).
Proof.
  intros He.
  destruct (judge_never_attempt_error e He) as (C & _ & S).
  pose proof (handle_vocab_reply_never_attempt_error e p m He) as V.
  pose proof (start_session_never_attempt_error e vocab p None He) as St.
  cbn in St.
  destruct He as [-> | ->];
    unfold default_fallback, is_student_answering_question,
      is_reply_relevant_to_learning, generate_answer_to_student_question,
      handle_irrelevant_input_with_llm;
    nr_with ltac:(first [ apply C | apply S | exact V | exact St ]).
Qed.

(** The closed-reading handler does pass the stored attempt on: with a
    stored attempt of 0 a wrong answer ends in the attempt-range error. *)
Lemma zeroth_attempt_raises :
  fst (handle_reading_reply Classroom.amy "in rome" zeroth_reading_try)
  = Raise (ValueError AttemptNotBetween1And3).
Proof. reflexivity. Qed.

(** X8. [give_hint_or_explanation] refuses an attempt below 1 or above 3
    before it calls the judge.  As long as the stored attempt counters are
    within their bounds, neither a reply handler nor the dispatcher ends
    with an attempt-range error, that of the closed-reading hints or that
    of the vocabulary hints. *)
Theorem no_attempt_range_error_within_bounds e p w :
  attempt_error e -> attempt_bounds w ->
  (forall t r, fst (handle_reply t p r w) <> Raise e)
  /\ (forall raw, fst (receive_message p raw w) <> Raise e)
  /\ (forall u c q s a w',
        a < 1 \/ 3 < a ->
        give_hint_or_explanation u c q s a w'
        = (Raise (ValueError AttemptNotBetween1And3), w')).
Proof.
  intros He Hb. split; [| split].
  - intros [] r; cbn.
    + now apply handle_vocab_reply_never_attempt_error.
    + now apply handle_reading_reply_never_attempt_error.
    + now apply handle_open_reading_reply_never_attempt_error.
  - intros raw. unfold receive_message. cbv zeta.
    pose proof (get_student_name_by_phone_reads p w) as R.
    destruct (readers_never_attempt_error e p He) as (_ & N & _).
    destruct (judge_never_attempt_error e He) as (C & _ & S).
    destruct (get_student_name_by_phone p w) as [[name|e'] w0] eqn:E;
      cbn in R; subst w0;
      [ rewrite (bind_ok _ _ _ _ _ E)
      | rewrite (bind_raise _ _ _ _ _ E); specialize (N w);
        rewrite E in N; cbn in *; congruence ].
    destruct (contains "start" _).
    { refine ((_ : never_raises e _) w). unfold greet_student.
      destruct He as [-> | ->]; nr_with ltac:(first [apply C | apply S]). }
    destruct (contains "vocab" _);
      [apply (start_session_never_attempt_error e vocab p None He) |].
    destruct (contains "reading" _);
      [apply (start_session_never_attempt_error e closed p None He) |].
    destruct (contains "warm up" _);
      [apply (start_session_never_attempt_error e open p None He) |].
    rewrite (bind_ok get _ w w w eq_refl).
    destruct (bool_decide _);
      [now apply handle_open_reading_reply_never_attempt_error |].
    destruct (bool_decide _);
      [now apply handle_reading_reply_never_attempt_error |].
    now apply default_fallback_never_attempt_error.
  - intros u c q s a w' Ha. unfold give_hint_or_explanation.
    assert (G : ((a <? 1) || (3 <? a)) = true).
    { apply orb_true_iff. destruct Ha; [left | right]; now apply Z.ltb_lt. }
    now rewrite G.
Qed.

Lemma no_attempt_range_error_within_bounds_witness :
  fst (receive_message Classroom.amy "in rome" third_reading_try)
  <> Raise (ValueError AttemptNotBetween1And3).
Proof.
  refine (proj1 (proj2 (no_attempt_range_error_within_bounds
                          (ValueError AttemptNotBetween1And3)
                          Classroom.amy third_reading_try _ _)) "in rome").
  - now left.
  - split; intros q s; cbn; rewrite lookup_insert || rewrite lookup_empty;
      try discriminate.
    case_decide; [| rewrite lookup_empty; discriminate].
    intros [= <-] _. cbn. lia.
Defined.

(** * Replies that keep the item open *)

#[export] Hint Resolve posts_chat : pres.

(** The outcome of a call to the judge: sessions, progress store and posts
    are as before. *)
Ltac quiet_from E :=
  calm_from E;
  match type of E with
  | ?m ?w = (?r, ?w') =>
      let H := fresh "Hposts" in
      assert (H : posts w' = posts w)
        by (apply (preserves_run (fun x => posts x = posts w) m w r w');
            [ solve [eauto 10 with pres] | reflexivity | exact E ])
  end.

(** X9. A first wrong vocabulary answer: the student gets the hint as the
    one message, the session stays on the same word with the attempt set
    to 2, and nothing is written to the progress store. *)
Theorem first_wrong_vocabulary_answer_gets_a_hint p reply w s w1 msg w2 :
  vocab_sessions w !! p = Some s ->
  v_attempt s = 1 ->
  evaluate_answer reply (ChineseExplaination (last_vocab s)) w
    = (Ok false, w1) ->
  give_vocab_hint_or_explanation (last_vocab s) reply 1 w1 = (Ok msg, w2) ->
  let w' := sent p msg
              (set_vocab_sessions
                 (insert p (mkVocabSession 2 (last_vocab s))) w2) in
  handle_vocab_reply p reply w = (Ok tt, w')
  /\ vocab_sessions w' = <[p := mkVocabSession 2 (last_vocab s)]> (vocab_sessions w)
  /\ reading_sessions w' = reading_sessions w
  /\ open_reading_sessions w' = open_reading_sessions w
  /\ store_kept w w'
  /\ posts w' = posts w ++ [Post p msg (transport w2 (clock w2) p msg)].
Proof.
  intros Hs Ha E1 E2. cbv zeta.
  quiet_from E1. quiet_from E2.
  destruct (calm_trans _ _ _ Hcalm Hcalm0)
    as (Hus & _ & _ & _ & Hvs & Hrs & Hos & Hcu).
  split.
  { unfold handle_vocab_reply.
    rewrite (bind_ok get _ w w w eq_refl), Hs. cbv zeta.
    rewrite (bind_ok _ _ _ _ _ E1), Ha. cbn [Z.eqb Pos.eqb].
    rewrite (bind_ok _ _ _ _ _ E2).
    assert (L : vocab_sessions w2 !! p = Some s) by (rewrite Hvs; exact Hs).
    unfold set_vocab_attempt at 1. unfold bind at 1. rewrite L.
    now rewrite (bind_ok _ _ _ _ _ (send_whatsapp_message_spec p msg _)). }
  split; [cbn; now rewrite Hvs |].
  split; [exact Hrs |]. split; [exact Hos |].
  split; [split; [exact Hus |] |].
  - unfold cell_updates in *. cbn. rewrite List.filter_app. cbn.
    now rewrite app_nil_r.
  - rewrite posts_sent. cbn. unfold posts in *. cbn. congruence.
Qed.

Lemma first_wrong_vocabulary_answer_gets_a_hint_witness :
  exists w',
    handle_vocab_reply Classroom.amy "no idea" midmorning = (Ok tt, w')
    /\ vocab_sessions w' !! Classroom.amy
       = Some (mkVocabSession 2 Classroom.adapt)
    /\ store_kept midmorning w'.
Proof.
  eexists.
  refine (let H := first_wrong_vocabulary_answer_gets_a_hint
            Classroom.amy "no idea" midmorning
            (mkVocabSession 1 Classroom.adapt) _ "a vocab hint" _
            eq_refl eq_refl _ _ in _).
  cbv zeta in H. destruct H as (E & V & _ & _ & K & _).
  split; [exact E |]. split; [| exact K].
  rewrite V. apply lookup_insert_eq.
  Unshelve. all: try (vm_compute; reflexivity).
Defined.

Lemma store_kept_trans w1 w2 w3 :
  store_kept w1 w2 -> store_kept w2 w3 -> store_kept w1 w3.
Proof. intros [? ?] [? ?]. split; congruence. Qed.

(** X10. A wrong closed-reading answer on attempt 1 or 2: the student gets
    the hint and then the question again, in that order; the session keeps
    passage, question and mode with the attempt one higher; nothing is
    written to the progress store. *)
Theorem wrong_closed_answer_gets_hint_and_question
    p reply w s answer w1 w2 hint w3 :
  reading_sessions w !! p = Some s ->
  r_mode s <> "reflection" ->
  r_attempt s < 3 ->
  get_current_answer p w = (Ok answer, w) ->
  is_student_answering_question reply (r_question s) w = (Ok true, w1) ->
  evaluate_answer reply answer w1 = (Ok false, w2) ->
  give_hint_or_explanation reply answer (r_question s) (r_passage s)
    (r_attempt s) w2 = (Ok hint, w3) ->
  let again := try_again_prefix +:+ r_question s in
  let wa := sent p hint
              (set_reading_sessions (alter increment_attempt p) w3) in
  let w' := sent p again wa in
  handle_reading_reply p reply w = (Ok tt, w')
  /\ reading_sessions w' = <[p := increment_attempt s]> (reading_sessions w)
  /\ store_kept w w'
  /\ posts w'
     = posts w ++ [Post p hint (transport w3 (clock w3) p hint);
                   Post p again (transport wa (clock wa) p again)].
Proof.
  intros Hs Hmode Ha E0 E1 E2 E3. cbv zeta.
  quiet_from E1. quiet_from E2. quiet_from E3.
  destruct (calm_trans _ _ _ (calm_trans _ _ _ Hcalm Hcalm0) Hcalm1)
    as (Hus & _ & _ & _ & Hvs & Hrs & Hos & Hcu).
  split.
  { unfold handle_reading_reply.
    rewrite (bind_ok get _ w w w eq_refl), Hs.
    apply String.eqb_neq in Hmode. rewrite Hmode. cbv zeta.
    rewrite (bind_ok _ _ _ _ _ E0), (bind_ok _ _ _ _ _ E1). cbn [negb].
    rewrite (bind_ok _ _ _ _ _ E2).
    apply Z.ltb_lt in Ha. rewrite Ha.
    rewrite (bind_ok _ _ _ _ _ E3).
    rewrite (bind_ok (modify _) _ w3 tt _ eq_refl).
    rewrite (bind_ok _ _ _ _ _ (send_whatsapp_message_spec p hint _)).
    now rewrite (bind_ok _ _ _ _ _ (send_whatsapp_message_spec p _ _)). }
  split.
  { cbn. rewrite Hrs. now apply alter_alt_Some. }
  split.
  { split; [exact Hus |]. unfold cell_updates in *. cbn.
    rewrite !List.filter_app. cbn. now rewrite !app_nil_r. }
  rewrite !posts_sent. cbn [posts]. unfold posts in *. cbn.
  rewrite <- app_assoc. cbn. f_equal. congruence.
Qed.

Lemma wrong_closed_answer_gets_hint_and_question_witness :
  exists w',
    handle_reading_reply Classroom.amy "in rome" second_reading_try
      = (Ok tt, w')
    /\ reading_sessions w' !! Classroom.amy
       = Some (mkReadingSession "Tom lives in London." "Where does Tom live?"
                 3 EmptyString EmptyString)
    /\ store_kept second_reading_try w'.
Proof.
  eexists.
  refine (let H := wrong_closed_answer_gets_hint_and_question
            Classroom.amy "in rome" second_reading_try
            (mkReadingSession "Tom lives in London." "Where does Tom live?"
               2 EmptyString EmptyString)
            "in london" _ _ "a hint" _ eq_refl _ _ _ _ _ _ in _).
  cbv zeta in H. destruct H as (E & R & K & _).
  split; [exact E |]. split; [| exact K].
  rewrite R. apply lookup_insert_eq.
  Unshelve. all: try (vm_compute; reflexivity). all: try discriminate.
Defined.

(** X11. A correct closed-reading answer: the reflection question is the
    one message sent, the session turns to reflection mode and records the
    answer, attempt, question and passage unchanged, and the cursor is not
    advanced yet. *)
Theorem correct_closed_answer_opens_reflection
    p reply w s answer w1 w2 why w3 :
  reading_sessions w !! p = Some s ->
  r_mode s <> "reflection" ->
  get_current_answer p w = (Ok answer, w) ->
  is_student_answering_question reply (r_question s) w = (Ok true, w1) ->
  evaluate_answer reply answer w1 = (Ok true, w2) ->
  ask_why_correct (r_question s) reply (r_passage s) w2 = (Ok why, w3) ->
  let w' := set_reading_sessions (alter (enter_reflection reply) p)
              (sent p why w3) in
  handle_reading_reply p reply w = (Ok tt, w')
  /\ reading_sessions w' = <[p := enter_reflection reply s]> (reading_sessions w)
  /\ store_kept w w'
  /\ posts w' = posts w ++ [Post p why (transport w3 (clock w3) p why)].
Proof.
  intros Hs Hmode E0 E1 E2 E3. cbv zeta.
  quiet_from E1. quiet_from E2. quiet_from E3.
  destruct (calm_trans _ _ _ (calm_trans _ _ _ Hcalm Hcalm0) Hcalm1)
    as (Hus & _ & _ & _ & Hvs & Hrs & Hos & Hcu).
  split.
  { unfold handle_reading_reply.
    rewrite (bind_ok get _ w w w eq_refl), Hs.
    apply String.eqb_neq in Hmode. rewrite Hmode. cbv zeta.
    rewrite (bind_ok _ _ _ _ _ E0), (bind_ok _ _ _ _ _ E1). cbn [negb].
    rewrite (bind_ok _ _ _ _ _ E2), (bind_ok _ _ _ _ _ E3).
    now rewrite (bind_ok _ _ _ _ _ (send_whatsapp_message_spec p why _)). }
  split.
  { cbn. rewrite Hrs. now apply alter_alt_Some. }
  split.
  { split; [exact Hus |]. unfold cell_updates in *. cbn.
    rewrite List.filter_app. cbn. now rewrite app_nil_r. }
  change (posts (sent p why w3) = posts w
          ++ [Post p why (transport w3 (clock w3) p why)]).
  rewrite posts_sent. congruence.
Qed.

Lemma correct_closed_answer_opens_reflection_witness :
  exists w',
    handle_reading_reply Classroom.amy "in london" second_reading_try
      = (Ok tt, w')
    /\ reading_sessions w' !! Classroom.amy
       = Some (mkReadingSession "Tom lives in London." "Where does Tom live?"
                 2 "reflection" "in london")
    /\ store_kept second_reading_try w'.
Proof.
  eexists.
  refine (let H := correct_closed_answer_opens_reflection
            Classroom.amy "in london" second_reading_try
            (mkReadingSession "Tom lives in London." "Where does Tom live?"
               2 EmptyString EmptyString)
            "in london" _ _ "why?" _ eq_refl _ _ _ _ _ in _).
  cbv zeta in H. destruct H as (E & R & K & _).
  split; [exact E |]. split; [| exact K].
  rewrite R. apply lookup_insert_eq.
  Unshelve. all: try (vm_compute; reflexivity). discriminate.
Defined.

(** The redirect for an off-topic message always comes back with a text:
    that of the judge, or the fixed one when the client fails. *)
(** X12. An off-topic message in the middle of a closed-reading item: once
    the judge has said that it is neither an answer attempt nor relevant,
    the student gets a redirect whatever happens next (the judge's text,
    or the fixed one when the generator fails), the handler returns
    normally, and sessions and progress store are as before. *)
Theorem off_topic_in_closed_reading_is_redirected p reply w s answer w1 w2 :
  reading_sessions w !! p = Some s ->
  r_mode s <> "reflection" ->
  get_current_answer p w = (Ok answer, w) ->
  is_student_answering_question reply (r_question s) w = (Ok false, w1) ->
  is_reply_relevant_to_learning reply (r_question s) w1 = (Ok false, w2) ->
  exists text w3,
    handle_reading_reply p reply w = (Ok tt, sent p text w3)
    /\ text = match llm w2 (clock w2) (ReqIrrelevant reply) with
              | Some c => strip c
              | None => irrelevant_fallback
              end
    /\ calm w (sent p text w3)
    /\ posts (sent p text w3)
       = posts w ++ [Post p text (transport w3 (clock w3) p text)].
Proof.
  intros Hs Hmode E0 E1 E2.
  quiet_from E1. quiet_from E2.
  destruct (handle_irrelevant_input_with_llm_total reply w2)
    as (text & w3 & E3 & C3 & P3 & T).
  exists text, w3. split.
  { unfold handle_reading_reply.
    rewrite (bind_ok get _ w w w eq_refl), Hs.
    apply String.eqb_neq in Hmode. rewrite Hmode. cbv zeta.
    rewrite (bind_ok _ _ _ _ _ E0), (bind_ok _ _ _ _ _ E1). cbn [negb].
    rewrite (bind_ok _ _ _ _ _ E2), (bind_ok _ _ _ _ _ E3).
    now rewrite (bind_ok _ _ _ _ _ (send_whatsapp_message_spec p text w3)). }
  split; [exact T |]. split.
  - eauto using calm_trans, sent_calm.
  - rewrite posts_sent. congruence.
Qed.

Lemma off_topic_in_closed_reading_is_redirected_witness :
  exists text w3,
    handle_reading_reply Classroom.amy "what is for lunch?" midmorning
      = (Ok tt, sent Classroom.amy text w3)
    /\ calm midmorning (sent Classroom.amy text w3).
Proof.
  refine (let H := off_topic_in_closed_reading_is_redirected
            Classroom.amy "what is for lunch?" midmorning
            (mkReadingSession "Tom lives in London." "Where does Tom live?"
               1 EmptyString EmptyString)
            "in london" _ _ eq_refl _ _ _ _ in _).
  destruct H as (text & w3 & E & _ & C & _). now exists text, w3.
  Unshelve. all: try (vm_compute; reflexivity). discriminate.
Defined.

(** X13. An open-reading reply that the judge finds not relevant: the
    fixed redirect is the one message sent, and the session, the cursor
    and everything else in sessions and progress store stay as they were,
    so the student can try again. *)
Theorem irrelevant_open_reply_keeps_the_session p reply w s w1 :
  open_reading_sessions w !! p = Some s ->
  is_reply_relevant_to_learning reply (o_question s) w = (Ok false, w1) ->
  handle_open_reading_reply p reply w = (Ok tt, sent p open_redirect w1)
  /\ open_reading_sessions (sent p open_redirect w1) !! p = Some s
  /\ calm w (sent p open_redirect w1)
  /\ posts (sent p open_redirect w1)
     = posts w
       ++ [Post p open_redirect (transport w1 (clock w1) p open_redirect)].
Proof.
  intros Hs E1. quiet_from E1.
  assert (C : calm w (sent p open_redirect w1))
    by eauto using calm_trans, sent_calm.
  split.
  { unfold handle_open_reading_reply.
    rewrite (bind_ok get _ w w w eq_refl), Hs. cbv zeta.
    rewrite (bind_ok _ _ _ _ _ E1). cbn [negb].
    now rewrite (bind_ok _ _ _ _ _ (send_whatsapp_message_spec p _ w1)). }
  split.
  { destruct C as (_ & _ & _ & _ & _ & _ & Hos & _). now rewrite Hos. }
  split; [exact C |].
  rewrite posts_sent. congruence.
Qed.

Lemma irrelevant_open_reply_keeps_the_session_witness :
  exists w1,
    handle_open_reading_reply Classroom.amy "what is for lunch" warming_up
      = (Ok tt, sent Classroom.amy open_redirect w1)
    /\ calm warming_up (sent Classroom.amy open_redirect w1).
Proof.
  eexists.
  refine (let H := irrelevant_open_reply_keeps_the_session
            Classroom.amy "what is for lunch" warming_up
            (mkOpenSession "What would you do?") _ eq_refl _ in _).
  destruct H as (E & _ & C & _). split; [exact E | exact C].
  Unshelve. all: try (vm_compute; reflexivity).
Defined.

(** X14. A reply handler that finds no session of the student in its track
    sends the instruction to start the track and does nothing else: the
    judge is not asked, no cell is written, no session appears. *)
Theorem reply_without_session_gets_the_instruction t p r w :
  has_session t p w = false ->
  handle_reply t p r w = (Ok tt, sent p (reentry_text t) w)
  /\ effects (sent p (reentry_text t) w)
     = effects w
       ++ [Post p (reentry_text t)
             (transport w (clock w) p (reentry_text t))]
  /\ calm w (sent p (reentry_text t) w).
Proof.
  intros H. split; [| split; [reflexivity | apply sent_calm]].
  destruct t; cbn in H; apply bool_decide_eq_false in H;
    unfold handle_reply, handle_vocab_reply, handle_reading_reply,
      handle_open_reading_reply;
    rewrite (bind_ok get _ w w w eq_refl);
    match goal with
    | |- context [?m !! p] =>
        destruct (m !! p) eqn:L; [exfalso; apply H; now eexists |]
    end;
    now rewrite (bind_ok _ _ _ _ _ (send_whatsapp_message_spec p _ w)).
Qed.

Lemma reply_without_session_gets_the_instruction_witness :
  handle_reply vocab Classroom.amy "adapt" Classroom.morning
  = (Ok tt, sent Classroom.amy vocab_reentry Classroom.morning).
Proof.
  apply (reply_without_session_gets_the_instruction
           vocab Classroom.amy "adapt" Classroom.morning).
  reflexivity.
Defined.

(** * More of the dispatcher *)

Lemma unregistered_name w p :
  ~ registered w p ->
  get_student_name_by_phone p w = (Raise (ValueError StudentNotFound), w).
Proof.
  intros Hn. pose proof (find_by_phone (user_sheet w) p 2) as H.
  destruct (find_row_index (user_sheet w) p 2) as [i|] eqn:E.
  - exfalso. apply Hn. now exists i.
  - unfold get_student_name_by_phone. cbv [bind get]. now rewrite H.
Qed.

(** X15. A message from a phone number that is not on the user sheet is
    refused before anything else happens: the dispatcher raises the
    student-not-found error, for any text (command words included), and
    the world is exactly as before: nothing sent, the judge not asked,
    no session touched. *)
Theorem unknown_sender_is_refused p raw w :
  ~ registered w p ->
  receive_message p raw w = (Raise (ValueError StudentNotFound), w).
Proof.
  intros Hn. unfold receive_message. cbv zeta.
  now rewrite (bind_raise _ _ _ _ _ (unregistered_name w p Hn)).
Qed.

Lemma unknown_sender_is_refused_witness :
  receive_message 85200000000 "vocab" midmorning
  = (Raise (ValueError StudentNotFound), midmorning).
Proof.
  apply (unknown_sender_is_refused 85200000000 "vocab" midmorning).
  intros [i H]. discriminate H.
Defined.

(** X16. The greeting command of a registered student touches no session
    and no cursor, also when the student is in the middle of an item: the
    world changes by one request to the judge and, when the judge answers,
    by one message with its stripped text; when the judge fails the
    client error goes to the caller and nothing is sent. *)
Theorem greeting_touches_no_session p raw w :
  registered w p ->
  contains "start" (lower (strip raw)) = true ->
  let out := receive_message p raw w in
  calm w (snd out)
  /\ match fst out with
     | Ok _ =>
         exists content reply,
           posts (snd out) = posts w ++ [Post p (strip content) reply]
     | Raise e => e = ClientError /\ posts (snd out) = posts w
     end.
Proof.
  intros Hreg Hc. cbv zeta.
  destruct (registered_name _ _ Hreg) as [name Hn].
  unfold receive_message. cbv zeta.
  rewrite (bind_ok _ _ _ _ _ Hn), Hc.
  destruct (greet_student name w) as [[g|e] w1] eqn:G.
  - quiet_from G.
    rewrite (bind_ok _ _ _ _ _ G).
    rewrite (bind_ok _ _ _ _ _ (send_whatsapp_message_spec p g w1)).
    cbv [ret fst snd]. split; [eauto using calm_trans, sent_calm |].
    unfold greet_student, bind, chat_completion in G.
    destruct (llm w (clock w) (ReqGreet name)) as [content|];
      [| discriminate].
    injection G as <- _. exists content. eexists.
    rewrite posts_sent. now rewrite Hposts.
  - quiet_from G. rewrite (bind_raise _ _ _ _ _ G). cbv [fst snd].
    split; [exact Hcalm |]. split; [| exact Hposts].
    unfold greet_student, bind, chat_completion in G.
    destruct (llm w (clock w) (ReqGreet name)); [discriminate |].
    now injection G as <- _.
Qed.

Lemma greeting_touches_no_session_witness :
  calm both_readings
    (snd (receive_message Classroom.amy "Let us START" both_readings)).
Proof.
  apply (greeting_touches_no_session
           Classroom.amy "Let us START" both_readings).
  - exists 3. reflexivity.
  - reflexivity.
Defined.

(** X17. The two classifiers of intent and relevance take any reply of the
    judge without their marker for a no.  So when the judge answers both
    questions of the default fallback with text that carries no marker,
    the message is treated as off topic: one redirect is sent (the
    judge's, or the fixed one when the generator fails), the dispatcher
    step returns normally, and no session or cursor changes. *)
Theorem unmarked_verdicts_make_a_message_off_topic p m q w c1 c2 :
  llm w (clock w) (ReqIsAnswering m q) = Some c1 ->
  contains marker_answered_true (lower c1) = false ->
  llm w (S (clock w)) (ReqIsRelevant m q) = Some c2 ->
  contains marker_relevant_true (lower c2) = false ->
  exists text w3,
    default_fallback p m q w = (Ok tt, sent p text w3)
    /\ calm w (sent p text w3)
    /\ posts (sent p text w3)
       = posts w ++ [Post p text (transport w3 (clock w3) p text)].
Proof.
  intros H1 N1 H2 N2.
  set (w1 := emit 1 (ChatCompletion (ReqIsAnswering m q)) w).
  set (w2 := emit 1 (ChatCompletion (ReqIsRelevant m q)) w1).
  assert (E1 : is_student_answering_question m q w = (Ok false, w1)).
  { unfold is_student_answering_question, bind, chat_completion.
    rewrite H1. cbn. now rewrite N1. }
  assert (E2 : is_reply_relevant_to_learning m q w1 = (Ok false, w2)).
  { unfold is_reply_relevant_to_learning, bind, chat_completion.
    change (llm w1 (clock w1)) with (llm w (S (clock w))).
    rewrite H2. cbn. now rewrite N2. }
  destruct (handle_irrelevant_input_with_llm_total m w2)
    as (text & w3 & E3 & C3 & P3 & _).
  exists text, w3. split.
  { unfold default_fallback.
    rewrite (bind_ok _ _ _ _ _ E1), (bind_ok _ _ _ _ _ E2).
    rewrite (bind_ok _ _ _ _ _ E3).
    now rewrite (bind_ok _ _ _ _ _ (send_whatsapp_message_spec p text w3)). }
  assert (C : calm w w3).
  { apply (calm_trans _ w2); [| exact C3].
    apply calm_chat, calm_chat, calm_refl. }
  split; [eauto using calm_trans, sent_calm |].
  rewrite posts_sent, P3. unfold w2, w1.
  now rewrite (posts_chat (posts w)) by (now apply posts_chat).
Qed.

Lemma unmarked_verdicts_make_a_message_off_topic_witness :
  exists text w3,
    default_fallback Classroom.amy "hello" "do you know adapt" double_verdict
    = (Ok tt, sent Classroom.amy text w3).
Proof.
  destruct (unmarked_verdicts_make_a_message_off_topic
              Classroom.amy "hello" "do you know adapt" double_verdict
              "text" "text" eq_refl eq_refl eq_refl eq_refl)
    as (text & w3 & E & _).
  now exists text, w3.
Defined.

(** * Starting a track *)

(** X18. A start that returns normally has sent exactly one message,
    written no cell, and, unless it is the vocabulary start with nothing
    left, has put a fresh session in place of whatever session the student
    had in that track: attempt 1 on the current word; passage, current
    question, attempt 1 and normal mode; or the current open question.
    The sessions of other students are not touched. *)
Theorem start_puts_a_fresh_session_in_place t p l w :
  fst (start_session t p l w) = Ok tt ->
  let w' := snd (start_session t p l w) in
  store_kept w w'
  /\ (exists text reply, posts w' = posts w ++ [Post p text reply])
  /\ match t with
     | vocab =>
         match fst (get_current_vocab_row p w) with
         | Ok (Some row) =>
             vocab_sessions w' = <[p := mkVocabSession 1 row]> (vocab_sessions w)
         | _ => vocab_sessions w' = vocab_sessions w
         end
     | closed =>
         exists passage question,
           fst (get_passage p w) = Ok passage
           /\ fst (get_current_question p w) = Ok question
           /\ reading_sessions w'
              = <[p := mkReadingSession passage question 1
                         EmptyString EmptyString]> (reading_sessions w)
     | open =>
         exists question,
           fst (get_open_question p w) = Ok question
           /\ open_reading_sessions w'
              = <[p := mkOpenSession question]> (open_reading_sessions w)
     end.
Proof.
  destruct t; cbn [start_session]; intros H; cbv zeta.
  - (* vocabulary *)
    unfold start_vocab_session in *.
    pose proof (get_current_vocab_row_reads p w) as R.
    destruct (get_current_vocab_row p w) as [[[row|]|e] w0] eqn:E0;
      cbn in R; subst w0.
    + rewrite (bind_ok _ _ _ _ _ E0) in *.
      destruct (ask_vocab_meaning_question row w) as [[msg|e] w1] eqn:E1;
        [| rewrite (bind_raise _ _ _ _ _ E1) in H; discriminate].
      quiet_from E1.
      rewrite (bind_ok _ _ _ _ _ E1), (bind_ok (modify _) _ w1 tt _ eq_refl).
      rewrite (bind_ok _ _ _ _ _ (send_whatsapp_message_spec p msg _)).
      cbv [ret fst snd].
      destruct Hcalm as (Hus & _ & _ & _ & Hvs & _ & _ & Hcu).
      split; [| split].
      * split; [exact Hus |]. unfold cell_updates in *. cbn.
        rewrite List.filter_app. cbn. now rewrite app_nil_r.
      * do 2 eexists. rewrite posts_sent. f_equal. exact Hposts.
      * cbn. now rewrite Hvs.
    + rewrite (bind_ok _ _ _ _ _ E0).
      rewrite (bind_ok _ _ _ _ _ (send_whatsapp_message_spec p _ w)).
      cbv [ret fst snd].
      split; [apply calm_store_kept, sent_calm |].
      split; [do 2 eexists; apply posts_sent | reflexivity].
    + rewrite (bind_raise _ _ _ _ _ E0) in H. discriminate.
  - (* closed reading *)
    unfold start_reading_session in *.
    pose proof (get_passage_reads p w) as R1.
    destruct (get_passage p w) as [[passage|e] w0] eqn:E1; cbn in R1; subst w0;
      [| rewrite (bind_raise _ _ _ _ _ E1) in H; discriminate].
    rewrite (bind_ok _ _ _ _ _ E1) in *.
    pose proof (get_current_question_reads p w) as R2.
    destruct (get_current_question p w) as [[question|e] w0] eqn:E2;
      cbn in R2; subst w0;
      [| rewrite (bind_raise _ _ _ _ _ E2) in H; discriminate].
    rewrite (bind_ok _ _ _ _ _ E2) in *.
    pose proof (get_student_name_by_phone_reads p w) as R3.
    destruct (get_student_name_by_phone p w) as [[name|e] w0] eqn:E3;
      cbn in R3; subst w0;
      [| rewrite (bind_raise _ _ _ _ _ E3) in H; discriminate].
    rewrite (bind_ok _ _ _ _ _ E3) in *. cbv zeta in *.
    match goal with
    | H : context [generate_question_message ?a ?b ?c] |- _ =>
        destruct (generate_question_message a b c w) as [[msg|e] w1] eqn:E4;
          [| rewrite (bind_raise _ _ _ _ _ E4) in H; discriminate]
    end.
    quiet_from E4.
    rewrite (bind_ok _ _ _ _ _ E4), (bind_ok (modify _) _ w1 tt _ eq_refl).
    rewrite (bind_ok _ _ _ _ _ (send_whatsapp_message_spec p msg _)).
    cbv [ret fst snd].
    destruct Hcalm as (Hus & _ & _ & _ & _ & Hrs & _ & Hcu).
    split; [| split].
    + split; [exact Hus |]. unfold cell_updates in *. cbn.
      rewrite List.filter_app. cbn. now rewrite app_nil_r.
    + do 2 eexists. rewrite posts_sent. f_equal. exact Hposts.
    + exists passage, question. repeat split. cbn. now rewrite Hrs.
  - (* open reading *)
    unfold start_open_reading_session in *.
    pose proof (get_open_question_reads p w) as R1.
    destruct (get_open_question p w) as [[question|e] w0] eqn:E1;
      cbn in R1; subst w0;
      [| rewrite (bind_raise _ _ _ _ _ E1) in H; discriminate].
    rewrite (bind_ok _ _ _ _ _ E1) in *.
    rewrite (bind_ok (modify _) _ w tt _ eq_refl) in *.
    match goal with
    | H : context [bind (ask_open_question ?q) _ ?x] |- _ =>
        destruct (ask_open_question q x) as [[msg|e] w1] eqn:E2;
          [| rewrite (bind_raise _ _ _ _ _ E2) in H; discriminate]
    end.
    quiet_from E2.
    rewrite (bind_ok _ _ _ _ _ E2).
    rewrite (bind_ok _ _ _ _ _ (send_whatsapp_message_spec p msg _)).
    cbv [ret fst snd].
    destruct Hcalm as (Hus & _ & _ & _ & _ & _ & Hos & Hcu).
    split; [| split].
    + split; [exact Hus |]. unfold cell_updates in *. cbn.
      rewrite List.filter_app. cbn. now rewrite app_nil_r.
    + do 2 eexists. rewrite posts_sent. f_equal. exact Hposts.
    + exists question. split; [reflexivity |]. cbn. now rewrite Hos.
Qed.

Lemma start_puts_a_fresh_session_in_place_witness :
  vocab_sessions second_try_offline !! Classroom.amy
    = Some (mkVocabSession 2 Classroom.adapt)
  /\ vocab_sessions
       (snd (start_session vocab Classroom.amy None second_try_offline))
       !! Classroom.amy
     = Some (mkVocabSession 1 Classroom.adapt).
Proof.
  split; [reflexivity |].
  destruct (start_puts_a_fresh_session_in_place
              vocab Classroom.amy None second_try_offline eq_refl)
    as (_ & _ & V).
  cbv beta iota zeta in V.
  change (fst (get_current_vocab_row Classroom.amy second_try_offline))
    with (@Ok (option VocabRow) (Some Classroom.adapt)) in V.
  cbv beta iota in V. rewrite V. apply lookup_insert_eq.
Defined.

(** X19. A start that ends in an exception has sent nothing and written no
    cell.  The vocabulary start and the closed-reading start then leave
    the sessions of their track as they were.  The open-reading start
    stores its session before it asks the judge for the wording: when the
    question lookup fails the world is unchanged, but when the judge fails
    the session for the question is already in place although the student
    was sent nothing. *)
Theorem failed_start_and_its_session t p l w e :
  fst (start_session t p l w) = Raise e ->
  let w' := snd (start_session t p l w) in
  store_kept w w'
  /\ posts w' = posts w
  /\ match t with
     | vocab => vocab_sessions w' = vocab_sessions w
     | closed => reading_sessions w' = reading_sessions w
     | open =>
         match fst (get_open_question p w) with
         | Ok question =>
             e = ClientError
             /\ open_reading_sessions w'
                = <[p := mkOpenSession question]> (open_reading_sessions w)
         | Raise e' => e = e' /\ w' = w
         end
     end.
Proof.
  destruct t; cbn [start_session]; intros H; cbv zeta.
  - (* vocabulary *)
    unfold start_vocab_session in *.
    pose proof (get_current_vocab_row_reads p w) as R.
    destruct (get_current_vocab_row p w) as [[[row|]|e0] w0] eqn:E0;
      cbn in R; subst w0.
    + rewrite (bind_ok _ _ _ _ _ E0) in *.
      destruct (ask_vocab_meaning_question row w) as [[msg|e1] w1] eqn:E1.
      * rewrite (bind_ok _ _ _ _ _ E1),
          (bind_ok (modify _) _ w1 tt _ eq_refl),
          (bind_ok _ _ _ _ _ (send_whatsapp_message_spec p msg _)) in H.
        discriminate.
      * quiet_from E1. rewrite (bind_raise _ _ _ _ _ E1). cbv [fst snd].
        destruct Hcalm as (Hus & _ & _ & _ & Hvs & _ & _ & Hcu).
        now repeat split.
    + rewrite (bind_ok _ _ _ _ _ E0),
        (bind_ok _ _ _ _ _ (send_whatsapp_message_spec p _ w)) in H.
      discriminate.
    + rewrite (bind_raise _ _ _ _ _ E0). cbv [fst snd].
      now repeat split.
  - (* closed reading *)
    unfold start_reading_session in *.
    pose proof (get_passage_reads p w) as R1.
    destruct (get_passage p w) as [[passage|e1] w0] eqn:E1;
      cbn in R1; subst w0;
      [| rewrite (bind_raise _ _ _ _ _ E1); now repeat split].
    rewrite (bind_ok _ _ _ _ _ E1) in *.
    pose proof (get_current_question_reads p w) as R2.
    destruct (get_current_question p w) as [[question|e2] w0] eqn:E2;
      cbn in R2; subst w0;
      [| rewrite (bind_raise _ _ _ _ _ E2); now repeat split].
    rewrite (bind_ok _ _ _ _ _ E2) in *.
    pose proof (get_student_name_by_phone_reads p w) as R3.
    destruct (get_student_name_by_phone p w) as [[name|e3] w0] eqn:E3;
      cbn in R3; subst w0;
      [| rewrite (bind_raise _ _ _ _ _ E3); now repeat split].
    rewrite (bind_ok _ _ _ _ _ E3) in *. cbv zeta in *.
    match goal with
    | H : context [generate_question_message ?a ?b ?c] |- _ =>
        destruct (generate_question_message a b c w) as [[msg|e4] w1] eqn:E4
    end.
    + rewrite (bind_ok _ _ _ _ _ E4),
        (bind_ok (modify _) _ w1 tt _ eq_refl),
        (bind_ok _ _ _ _ _ (send_whatsapp_message_spec p msg _)) in H.
      discriminate.
    + quiet_from E4. rewrite (bind_raise _ _ _ _ _ E4). cbv [fst snd].
      destruct Hcalm as (Hus & _ & _ & _ & _ & Hrs & _ & Hcu).
      now repeat split.
  - (* open reading *)
    unfold start_open_reading_session in *.
    pose proof (get_open_question_reads p w) as R1.
    destruct (get_open_question p w) as [[question|e1] w0] eqn:E1;
      cbn in R1; subst w0.
    + rewrite (bind_ok _ _ _ _ _ E1) in *.
      rewrite (bind_ok (modify _) _ w tt _ eq_refl) in *.
      match goal with
      | H : context [bind (ask_open_question ?q) _ ?x] |- _ =>
          destruct (ask_open_question q x) as [[msg|e2] w1] eqn:E2
      end.
      * rewrite (bind_ok _ _ _ _ _ E2),
          (bind_ok _ _ _ _ _ (send_whatsapp_message_spec p msg _)) in H.
        discriminate.
      * quiet_from E2. rewrite (bind_raise _ _ _ _ _ E2) in *.
        cbv [fst snd] in *.
        destruct Hcalm as (Hus & _ & _ & _ & _ & _ & Hos & Hcu).
        split; [now split |]. split; [exact Hposts |].
        split; [| exact Hos].
        unfold ask_open_question, bind, chat_completion in E2.
        destruct (llm _ _ _); [discriminate |].
        injection E2 as <- _. congruence.
    + rewrite (bind_raise _ _ _ _ _ E1) in *. cbv [fst snd] in *.
      split; [apply store_kept_refl |]. split; [reflexivity |].
      split; [congruence | reflexivity].
Qed.

Lemma failed_start_and_its_session_witness :
  fst (start_session open Classroom.amy None silent_judge) = Raise ClientError
  /\ open_reading_sessions
       (snd (start_session open Classroom.amy None silent_judge))
       !! Classroom.amy
     = Some (mkOpenSession "What would you do?")
  /\ posts (snd (start_session open Classroom.amy None silent_judge))
     = posts silent_judge.
Proof.
  destruct (failed_start_and_its_session
              open Classroom.amy None silent_judge ClientError eq_refl)
    as (_ & P & S).
  split; [reflexivity |]. split; [| exact P].
  cbv beta iota zeta in S.
  change (fst (get_open_question Classroom.amy silent_judge))
    with (@Ok string "What would you do?") in S.
  cbv beta iota in S. destruct S as [_ S]. rewrite S.
  apply lookup_insert_eq.
Defined.

(** * The opening message of closed reading *)

Lemma append_assoc_string (a b c : string) :
  (a +:+ b) +:+ c = a +:+ (b +:+ c).
Proof.
  induction a as [|x a IH]; [reflexivity |].
  change (String x ((a +:+ b) +:+ c) = String x (a +:+ (b +:+ c))).
  now f_equal.
Qed.

Lemma starts_visible_tight q : starts_visible q = true -> starts_tight q = true.
Proof.
  destruct q as [|a q]; [discriminate |]. cbn. unfold visible_ascii.
  now intros [_ H]%andb_prop.
Qed.

Lemma ends_visible_tight q : ends_visible q = true -> ends_tight q = true.
Proof.
  induction q as [|a q IH]; [discriminate |]. cbn.
  destruct q as [|b q]; [| exact IH].
  unfold visible_ascii. now intros [_ H]%andb_prop.
Qed.

(** X20. Whatever the judge writes as encouragement, the opening message
    of a closed-reading item carries the question itself: for a question
    that begins and ends with a visible ASCII character (a letter, a
    digit, a question mark), the text that [generate_question_message]
    returns contains the question verbatim.  The final [strip] of the
    message can only take blanks, and a blank never begins or ends with
    such a character, whether it is one of the ASCII blanks or one of the
    others that Python strips. *)
Theorem opening_message_carries_the_question q n l w msg w' :
  starts_visible q = true -> ends_visible q = true ->
  generate_question_message q n l w = (Ok msg, w') ->
  contains q msg = true.
Proof.
  intros H1%starts_visible_tight H2%ends_visible_tight E.
  unfold generate_question_message, bind, chat_completion in E.
  cbv zeta in E. destruct (llm w (clock w) _) as [content|]; [| discriminate].
  injection E as <- _.
  rewrite (contains_strip _ _ H1 H2). apply contains_spec.
  exists (newline +:+ "    " +:+ strip content +:+ newline),
    (newline +:+ "    ").
  now rewrite !append_assoc_string.
Qed.

Lemma opening_message_carries_the_question_witness :
  contains "Where does Tom live?"
    (match fst (generate_question_message "Where does Tom live?" "Amy"
                  EmptyString Classroom.morning) with
     | Ok msg => msg
     | Raise _ => EmptyString
     end) = true.
Proof.
  destruct (generate_question_message "Where does Tom live?" "Amy"
              EmptyString Classroom.morning) as [[msg|e] w'] eqn:E.
  - apply (opening_message_carries_the_question
             "Where does Tom live?" "Amy" EmptyString Classroom.morning
             msg w'); [reflexivity | reflexivity | exact E].
  - vm_compute in E. discriminate E.
Defined.

(** * What a message of one student leaves alone *)

(** Preservation through the controllers again, for predicates that may
    look at the student [p] whose message is handled: the assumptions are
    about the writes made for [p] only. *)
Section Student.
Variable p : Z.
Variable P : World -> Prop.

Hypothesis S_chat : forall r w, P w -> P (emit 1 (ChatCompletion r) w).
Hypothesis S_send : forall m w, P w -> P (sent p m w).
Hypothesis S_advance_vocab : preserves P (advance_vocab_index p).
Hypothesis S_advance_closed : preserves P (advance_question_progress p).
Hypothesis S_advance_open : preserves P (advance_open_question_progress p).
Hypothesis S_vocab : forall g w,
  (forall m q, q <> p -> g m !! q = m !! q) ->
  P w -> P (set_vocab_sessions g w).
Hypothesis S_reading : forall g w,
  (forall m q, q <> p -> g m !! q = m !! q) ->
  P w -> P (set_reading_sessions g w).
Hypothesis S_open : forall g w,
  (forall m q, q <> p -> g m !! q = m !! q) ->
  P w -> P (set_open_reading_sessions g w).

Lemma insert_only_at {V} (v : V) (m : gmap Z V) q :
  q <> p -> <[p := v]> m !! q = m !! q.
Proof. intros H. now apply lookup_insert_ne. Qed.

Lemma delete_only_at {V} (m : gmap Z V) q :
  q <> p -> delete p m !! q = m !! q.
Proof. intros H. now apply lookup_delete_ne. Qed.

Lemma alter_only_at {V} (f : V -> V) (m : gmap Z V) q :
  q <> p -> alter f p m !! q = m !! q.
Proof. intros H. now apply lookup_alter_ne. Qed.

Lemma student_send_preserves m : preserves P (send_whatsapp_message p m).
Proof.
  intros w Hw. rewrite send_whatsapp_message_spec. cbn [snd].
  now apply S_send.
Qed.

Lemma student_del_vocab_preserves : preserves P (del_vocab_session p).
Proof.
  intros w Hw. unfold del_vocab_session, py_del.
  destruct (vocab_sessions w !! p); cbn; [| exact Hw].
  apply (S_vocab (delete p) w); [apply @delete_only_at | exact Hw].
Qed.

Lemma student_del_reading_preserves : preserves P (del_reading_session p).
Proof.
  intros w Hw. unfold del_reading_session, py_del.
  destruct (reading_sessions w !! p); cbn; [| exact Hw].
  apply (S_reading (delete p) w); [apply @delete_only_at | exact Hw].
Qed.

Lemma student_del_open_preserves : preserves P (del_open_reading_session p).
Proof.
  intros w Hw. unfold del_open_reading_session, py_del.
  destruct (open_reading_sessions w !! p); cbn; [| exact Hw].
  apply (S_open (delete p) w); [apply @delete_only_at | exact Hw].
Qed.

Lemma student_set_attempt_preserves a : preserves P (set_vocab_attempt p a).
Proof.
  intros w Hw. unfold set_vocab_attempt.
  destruct (vocab_sessions w !! p) as [s|]; cbn; [| exact Hw].
  apply (S_vocab (insert p (mkVocabSession a (last_vocab s))) w);
    [intros; now apply insert_only_at | exact Hw].
Qed.

Lemma student_new_vocab_preserves v :
  preserves P (modify (set_vocab_sessions (insert p (mkVocabSession 1 v)))).
Proof.
  apply preserves_modify. intros w Hw.
  apply S_vocab; [intros; now apply insert_only_at | exact Hw].
Qed.

Lemma student_new_reading_preserves s q :
  preserves P
    (modify (set_reading_sessions
               (insert p (mkReadingSession s q 1 EmptyString EmptyString)))).
Proof.
  apply preserves_modify. intros w Hw.
  apply S_reading; [intros; now apply insert_only_at | exact Hw].
Qed.

Lemma student_alter_reading_preserves f :
  preserves P (modify (set_reading_sessions (alter f p))).
Proof.
  apply preserves_modify. intros w Hw.
  apply S_reading; [intros; now apply alter_only_at | exact Hw].
Qed.

Lemma student_new_open_preserves q :
  preserves P (modify (set_open_reading_sessions (insert p (mkOpenSession q)))).
Proof.
  apply preserves_modify. intros w Hw.
  apply S_open; [intros; now apply insert_only_at | exact Hw].
Qed.

Hint Resolve get_row_index_by_phone_reads get_student_name_by_phone_reads
  get_user_data_reads get_passage_reads get_current_question_reads
  get_current_answer_reads get_open_question_reads
  get_open_question_objective_reads get_open_question_ans_reads
  get_current_vocab_row_reads preserves_reader
  student_send_preserves student_del_vocab_preserves
  student_del_reading_preserves student_del_open_preserves
  student_set_attempt_preserves student_new_vocab_preserves
  student_new_reading_preserves student_alter_reading_preserves
  student_new_open_preserves S_advance_vocab S_advance_closed
  S_advance_open : pres.

Ltac student_step :=
  match goal with
  | |- preserves _ (bind _ _) => apply preserves_bind; [| intros ?]
  | |- preserves _ (try_except _ _) => apply preserves_try_except; [| intros ?]
  | |- preserves _ (ret _) => apply preserves_ret
  | |- preserves _ (raise _) => apply preserves_raise
  | |- preserves _ get => apply preserves_get
  | |- preserves _ (if ?b then _ else _) => destruct b
  | |- preserves _ (match ?x with _ => _ end) => destruct x
  | |- preserves _ _ => solve [eauto with pres]
  end.

Ltac student := cbv zeta; repeat student_step.

Lemma student_start_vocab_preserves : preserves P (start_vocab_session p).
Proof. unfold start_vocab_session. student. Qed.

Lemma student_start_reading_preserves l :
  preserves P (start_reading_session p l).
Proof. unfold start_reading_session. student. Qed.

Lemma student_start_open_preserves :
  preserves P (start_open_reading_session p).
Proof. unfold start_open_reading_session. student. Qed.

Hint Resolve student_start_vocab_preserves student_start_reading_preserves
  student_start_open_preserves : pres.

Lemma student_handle_vocab_preserves r : preserves P (handle_vocab_reply p r).
Proof. unfold handle_vocab_reply. student. Qed.

Lemma student_handle_reading_preserves r :
  preserves P (handle_reading_reply p r).
Proof. unfold handle_reading_reply. student. Qed.

Lemma student_handle_open_preserves r :
  preserves P (handle_open_reading_reply p r).
Proof. unfold handle_open_reading_reply. student. Qed.

Hint Resolve student_handle_vocab_preserves student_handle_reading_preserves
  student_handle_open_preserves : pres.

Lemma student_default_fallback_preserves m q :
  preserves P (default_fallback p m q).
Proof. unfold default_fallback. student. Qed.

Hint Resolve student_default_fallback_preserves : pres.

Lemma student_receive_message_preserves raw :
  preserves P (receive_message p raw).
Proof. unfold receive_message. student. Qed.
End Student.

Lemma get_user_data_same_sheet q w w' :
  user_sheet w' = user_sheet w ->
  fst (get_user_data q w') = fst (get_user_data q w).
Proof.
  intros H.
  destruct (get_user_data_cases q w) as [(i & r & Hi & Hr & _ & E) | [Hi E]];
    destruct (get_user_data_cases q w')
      as [(i' & r' & Hi' & Hr' & _ & E') | [Hi' E']];
    rewrite E, E'; rewrite H in *; cbn; congruence.
Qed.

Lemma advance_cursor_unregistered t p w :
  find_row_index (user_sheet w) p 2 = None ->
  advance_cursor t p w = (Raise (ValueError PhoneNotFound), w).
Proof.
  intros H.
  destruct (get_user_data_cases p w) as [(i & _ & Hi & _) | [_ E]];
    [congruence |].
  destruct t; cbn;
    unfold advance_vocab_index, advance_question_progress,
      advance_open_question_progress;
    now rewrite (bind_raise _ _ _ _ _ E).
Qed.

(** ** Other students *)

Lemma others_kept_refl p w : others_kept p w w.
Proof.
  split; [now intros q Hq |].
  exists []. split; [now rewrite app_nil_r | constructor].
Qed.

Lemma others_kept_step p w0 w w' e :
  others_kept p w0 w ->
  (forall q, q <> p ->
     vocab_sessions w' !! q = vocab_sessions w !! q
     /\ reading_sessions w' !! q = reading_sessions w !! q
     /\ open_reading_sessions w' !! q = open_reading_sessions w !! q
     /\ last_sent_messages w' !! q = last_sent_messages w !! q
     /\ fst (get_user_data q w') = fst (get_user_data q w)) ->
  effects w' = effects w ++ e -> Forall (addressed_to p) e ->
  others_kept p w0 w'.
Proof.
  intros [H0 (rest & Hr & Hf)] H1 He Hfe. split.
  - intros q Hq. destruct (H0 q Hq) as (a & b & c & d & f).
    destruct (H1 q Hq) as (a' & b' & c' & d' & f').
    repeat split; congruence.
  - exists (rest ++ e). split; [| now apply Forall_app].
    rewrite He, Hr. now rewrite app_assoc.
Qed.

Lemma others_kept_advance p w0 t :
  preserves (others_kept p w0) (advance_cursor t p).
Proof.
  intros w Hw.
  destruct (find_row_index (user_sheet w) p 2) as [i|] eqn:Hi.
  - destruct (registered_row w p (ex_intro _ i Hi))
      as (i' & row & Hi' & Hrow & _).
    assert (i' = i) by congruence. subst i'.
    rewrite (advance_cursor_spec t w p i row Hi Hrow). cbn [snd].
    apply (others_kept_step p w0 w _
             [UpdateCell i (track_column t) (cursor t row + 1)] Hw).
    + intros q Hq. repeat split.
      exact (get_user_data_after_insert p q i row
               (set_column (track_column t) (cursor t row + 1) row)
               (fun w =>
                  emit 0 (UpdateCell i (track_column t) (cursor t row + 1))
                    (set_user_sheet
                       (fun us =>
                          <[Z.to_nat (i - 2) :=
                              set_column (track_column t) (cursor t row + 1)
                                row]> us) w))
               w Hi Hrow (phone_no_set_column _ _ _) Hq eq_refl).
    + reflexivity.
    + repeat constructor.
  - now rewrite (advance_cursor_unregistered t p w Hi).
Qed.

(** X21. Handling a message of one student leaves every other student
    alone: their sessions in the three tracks, the record of the last
    message sent to them and their row of the user sheet read as before,
    and every message handed to the bot in the step is addressed to the
    sender.  This holds however the step ends. *)
Theorem other_students_are_untouched p raw w :
  others_kept p w (snd (receive_message p raw w)).
Proof.
  apply (student_receive_message_preserves p (others_kept p w));
    try apply others_kept_refl.
  - intros r x Hx.
    apply (others_kept_step p w x _ [ChatCompletion r] Hx);
      [ intros q Hq; repeat split; now apply get_user_data_same_sheet
      | reflexivity | repeat constructor ].
  - intros m x Hx.
    apply (others_kept_step p w x _
             [Post p m (transport x (clock x) p m)] Hx);
      [ intros q Hq; repeat split;
        [ cbn; now apply lookup_insert_ne
        | now apply get_user_data_same_sheet ]
      | reflexivity | repeat constructor ].
  - apply (others_kept_advance p w vocab).
  - apply (others_kept_advance p w closed).
  - apply (others_kept_advance p w open).
  - intros g x Hg Hx.
    apply (others_kept_step p w x _ [] Hx);
      [ intros q Hq; repeat split;
        [ cbn; now apply Hg | now apply get_user_data_same_sheet ]
      | cbn; now rewrite app_nil_r | constructor ].
  - intros g x Hg Hx.
    apply (others_kept_step p w x _ [] Hx);
      [ intros q Hq; repeat split;
        [ cbn; now apply Hg | now apply get_user_data_same_sheet ]
      | cbn; now rewrite app_nil_r | constructor ].
  - intros g x Hg Hx.
    apply (others_kept_step p w x _ [] Hx);
      [ intros q Hq; repeat split;
        [ cbn; now apply Hg | now apply get_user_data_same_sheet ]
      | cbn; now rewrite app_nil_r | constructor ].
Qed.

(** ** The sheets *)

Lemma record_grows_refl r : record_grows r r.
Proof. unfold record_grows. repeat split; lia. Qed.

Lemma record_grows_trans r1 r2 r3 :
  record_grows r1 r2 -> record_grows r2 r3 -> record_grows r1 r3.
Proof.
  unfold record_grows. intros (?&?&?&?&?&?) (?&?&?&?&?&?).
  repeat split; try congruence; lia.
Qed.

Lemma record_grows_advance t row :
  record_grows row (set_column (track_column t) (cursor t row + 1) row).
Proof. unfold record_grows. destruct t; cbn; repeat split; lia. Qed.

Lemma sheets_grow_refl w : sheets_grow w w.
Proof.
  split; [| now repeat split].
  induction (user_sheet w); constructor; auto using record_grows_refl.
Qed.

Lemma Forall2_grows_insert us0 us n row row' :
  Forall2 record_grows us0 us ->
  us !! n = Some row -> record_grows row row' ->
  Forall2 record_grows us0 (<[n := row']> us).
Proof.
  intros H. revert n. induction H as [|r0 r l0 l Hr Hl IH]; intros [|n]; cbn;
    try discriminate.
  - intros [= ->] Hg. constructor; [| exact Hl].
    now apply record_grows_trans with row.
  - intros Hn Hg. constructor; [exact Hr |]. now apply IH.
Qed.

Lemma sheets_grow_advance w0 t p :
  preserves (sheets_grow w0) (advance_cursor t p).
Proof.
  intros w (Hu & Hv & Hc & Ho).
  destruct (find_row_index (user_sheet w) p 2) as [i|] eqn:Hi.
  - destruct (registered_row w p (ex_intro _ i Hi))
      as (i' & row & Hi' & Hrow & _).
    assert (i' = i) by congruence. subst i'.
    rewrite (advance_cursor_spec t w p i row Hi Hrow). cbn [snd].
    split; [| now repeat split].
    cbn. apply Forall2_grows_insert with row;
      auto using record_grows_advance.
  - rewrite (advance_cursor_unregistered t p w Hi). now repeat split.
Qed.

(** X22. Handling a message never rewrites who a student is and never
    takes progress back: whatever the message and however the step ends,
    the user sheet afterwards has the same rows with the same phone
    numbers, names and training days, no cursor is lower than before, and
    the three content sheets are the same. *)
Theorem progress_never_goes_back p raw w :
  sheets_grow w (snd (receive_message p raw w)).
Proof.
  apply (student_receive_message_preserves p (sheets_grow w));
    try (intros; assumption).
  - apply (sheets_grow_advance w vocab).
  - apply (sheets_grow_advance w closed).
  - apply (sheets_grow_advance w open).
  - apply sheets_grow_refl.
Qed.

(** * Sessions and cursors *)

Lemma bind_get_user_data {A} q (k : UserRow -> M A) w :
  bind (get_user_data q) k w =
    match fst (get_user_data q w) with
    | Ok u => k u w
    | Raise e => (Raise e, w)
    end.
Proof.
  unfold bind. pose proof (get_user_data_reads q w) as R.
  destruct (get_user_data q w) as [[u|e] x]; cbn in *; now subst.
Qed.

Lemma py_getitem_pure {A} (l : list A) i w w' :
  fst (py_getitem l i w') = fst (py_getitem l i w).
Proof.
  unfold py_getitem. cbv [ret raise].
  destruct (_ || _); [reflexivity |].
  now destruct (_ !! _).
Qed.

Lemma same_pointer_eq t r r' : r' = r -> same_pointer t r r'.
Proof. intros ->. destruct r; cbn; auto. Qed.

Lemma get_current_vocab_row_frame q w w' :
  vocab_sheet w' = vocab_sheet w ->
  same_pointer vocab (fst (get_user_data q w)) (fst (get_user_data q w')) ->
  fst (get_current_vocab_row q w') = fst (get_current_vocab_row q w).
Proof.
  intros Hs Hp. unfold get_current_vocab_row.
  rewrite !bind_get_user_data.
  destruct (fst (get_user_data q w)) as [u|e];
    destruct (fst (get_user_data q w')) as [u'|e'];
    cbn in Hp; try contradiction; [| now subst].
  destruct Hp as [Hd Hc]. cbv [bind get]. cbn. rewrite Hs, Hd, Hc.
  destruct (_ <=? _); [reflexivity |].
  match goal with
  | |- context [py_getitem ?l ?i] =>
      pose proof (py_getitem_pure l i w w') as E;
      pose proof (py_getitem_reads l i w) as R;
      pose proof (py_getitem_reads l i w') as R';
      destruct (py_getitem l i w) as [[?|?] ?];
      destruct (py_getitem l i w') as [[?|?] ?]
  end; cbn in *; congruence.
Qed.

Lemma get_passage_frame t q w w' :
  close_reading_sheet w' = close_reading_sheet w ->
  same_pointer t (fst (get_user_data q w)) (fst (get_user_data q w')) ->
  fst (get_passage q w') = fst (get_passage q w).
Proof.
  intros Hs Hp. unfold get_passage.
  rewrite !bind_get_user_data.
  destruct (fst (get_user_data q w)) as [u|e];
    destruct (fst (get_user_data q w')) as [u'|e'];
    cbn in Hp; try contradiction; [| now subst].
  destruct Hp as [Hd Hc]. cbv [bind get ret raise]. cbn. rewrite Hs, Hd.
  now destruct (List.find _ _).
Qed.

Lemma get_current_question_frame q w w' :
  close_reading_sheet w' = close_reading_sheet w ->
  same_pointer closed (fst (get_user_data q w)) (fst (get_user_data q w')) ->
  fst (get_current_question q w') = fst (get_current_question q w).
Proof.
  intros Hs Hp. unfold get_current_question.
  rewrite !bind_get_user_data.
  destruct (fst (get_user_data q w)) as [u|e];
    destruct (fst (get_user_data q w')) as [u'|e'];
    cbn in Hp; try contradiction; [| now subst].
  destruct Hp as [Hd Hc]. cbv [bind get ret raise]. cbn. rewrite Hs, Hd, Hc.
  now destruct (List.find _ _).
Qed.

Lemma get_open_question_frame q w w' :
  open_reading_sheet w' = open_reading_sheet w ->
  same_pointer open (fst (get_user_data q w)) (fst (get_user_data q w')) ->
  fst (get_open_question q w') = fst (get_open_question q w).
Proof.
  intros Hs Hp. unfold get_open_question.
  rewrite !bind_get_user_data.
  destruct (fst (get_user_data q w)) as [u|e];
    destruct (fst (get_user_data q w')) as [u'|e'];
    cbn in Hp; try contradiction; [| now subst].
  destruct Hp as [Hd Hc]. cbv [bind get ret raise]. cbn. rewrite Hs, Hd, Hc.
  now destruct (List.find _ _).
Qed.

(** The general step: the content sheets are the same, and every session
    of the new world sits on a record that points where it pointed, and
    was there before or holds the item current before. *)
Lemma sessions_current_step w w' :
  sessions_current w ->
  same_content w w' ->
  (forall q s, vocab_sessions w' !! q = Some s ->
     same_pointer vocab (fst (get_user_data q w)) (fst (get_user_data q w'))
     /\ (vocab_sessions w !! q = Some s \/ vocab_session_current w q s)) ->
  (forall q s, reading_sessions w' !! q = Some s ->
     same_pointer closed (fst (get_user_data q w)) (fst (get_user_data q w'))
     /\ (reading_sessions w !! q = Some s \/ reading_session_current w q s)) ->
  (forall q s, open_reading_sessions w' !! q = Some s ->
     same_pointer open (fst (get_user_data q w)) (fst (get_user_data q w'))
     /\ (open_reading_sessions w !! q = Some s \/ open_session_current w q s)) ->
  sessions_current w'.
Proof.
  intros (Iv & Ir & Io) (Cv & Cr & Co) Hv Hr Ho. split; [| split].
  - intros q s Hs. destruct (Hv q s Hs) as [Hp Hc].
    unfold vocab_session_current.
    rewrite (get_current_vocab_row_frame q w w' Cv Hp).
    destruct Hc as [Hc | Hc]; [now apply Iv | exact Hc].
  - intros q s Hs. destruct (Hr q s Hs) as [Hp Hc].
    unfold reading_session_current.
    rewrite (get_passage_frame closed q w w' Cr Hp).
    rewrite (get_current_question_frame q w w' Cr Hp).
    destruct Hc as [Hc | Hc]; [now apply Ir | exact Hc].
  - intros q s Hs. destruct (Ho q s Hs) as [Hp Hc].
    unfold open_session_current.
    rewrite (get_open_question_frame q w w' Co Hp).
    destruct Hc as [Hc | Hc]; [now apply Io | exact Hc].
Qed.

(** A step that keeps the four sheets. *)
Lemma sessions_current_same_sheets w w' :
  sessions_current w ->
  user_sheet w' = user_sheet w ->
  same_content w w' ->
  (forall q s, vocab_sessions w' !! q = Some s ->
     vocab_sessions w !! q = Some s \/ vocab_session_current w q s) ->
  (forall q s, reading_sessions w' !! q = Some s ->
     reading_sessions w !! q = Some s \/ reading_session_current w q s) ->
  (forall q s, open_reading_sessions w' !! q = Some s ->
     open_reading_sessions w !! q = Some s \/ open_session_current w q s) ->
  sessions_current w'.
Proof.
  intros I Hu Hc Hv Hr Ho.
  apply (sessions_current_step w w' I Hc); intros q s Hs;
    (split; [apply same_pointer_eq; now apply get_user_data_same_sheet |]);
    auto.
Qed.

Lemma sessions_current_chat r w :
  sessions_current w -> sessions_current (emit 1 (ChatCompletion r) w).
Proof.
  intros I. apply (sessions_current_same_sheets w); auto.
  now repeat split.
Qed.

Lemma sessions_current_post p m r w :
  sessions_current w -> sessions_current (emit 1 (Post p m r) w).
Proof.
  intros I. apply (sessions_current_same_sheets w); auto.
  now repeat split.
Qed.

Lemma sessions_current_sent f w :
  sessions_current w -> sessions_current (set_last_sent_messages f w).
Proof.
  intros I. apply (sessions_current_same_sheets w); auto.
  now repeat split.
Qed.

Lemma sessions_current_set_vocab g w :
  sessions_current w ->
  (forall q s, g (vocab_sessions w) !! q = Some s ->
     vocab_sessions w !! q = Some s \/ vocab_session_current w q s) ->
  sessions_current (set_vocab_sessions g w).
Proof.
  intros I H. apply (sessions_current_same_sheets w); auto.
  now repeat split.
Qed.

Lemma sessions_current_set_reading g w :
  sessions_current w ->
  (forall q s, g (reading_sessions w) !! q = Some s ->
     reading_sessions w !! q = Some s \/ reading_session_current w q s) ->
  sessions_current (set_reading_sessions g w).
Proof.
  intros I H. apply (sessions_current_same_sheets w); auto.
  now repeat split.
Qed.

Lemma sessions_current_set_open g w :
  sessions_current w ->
  (forall q s, g (open_reading_sessions w) !! q = Some s ->
     open_reading_sessions w !! q = Some s \/ open_session_current w q s) ->
  sessions_current (set_open_reading_sessions g w).
Proof.
  intros I H. apply (sessions_current_same_sheets w); auto.
  now repeat split.
Qed.

(** The record of [p] after one of its cursors is written. *)
Lemma get_user_data_at_insert p i row row' w w' :
  find_row_index (user_sheet w) p 2 = Some i ->
  user_sheet w !! Z.to_nat (i - 2) = Some row ->
  phone_no row' = phone_no row ->
  user_sheet w' = <[Z.to_nat (i - 2) := row']> (user_sheet w) ->
  get_user_data p w' = (Ok row', w').
Proof.
  intros Hi Hrow Hp Hus.
  apply get_user_data_found with i.
  - rewrite Hus. now rewrite (find_row_index_insert _ _ row).
  - rewrite Hus. apply list_lookup_insert_eq.
    now apply lookup_lt_Some with row.
Qed.

(** A step that moves the cursor of [p] in track [t]: every session left
    was there before, and [p] has none left in track [t]. *)
Lemma sessions_current_advanced t p i row w w' :
  sessions_current w ->
  find_row_index (user_sheet w) p 2 = Some i ->
  user_sheet w !! Z.to_nat (i - 2) = Some row ->
  user_sheet w' =
    <[Z.to_nat (i - 2) :=
        set_column (track_column t) (cursor t row + 1) row]> (user_sheet w) ->
  same_content w w' ->
  (forall q s, vocab_sessions w' !! q = Some s ->
     vocab_sessions w !! q = Some s /\ (t = vocab -> q <> p)) ->
  (forall q s, reading_sessions w' !! q = Some s ->
     reading_sessions w !! q = Some s /\ (t = closed -> q <> p)) ->
  (forall q s, open_reading_sessions w' !! q = Some s ->
     open_reading_sessions w !! q = Some s /\ (t = open -> q <> p)) ->
  sessions_current w'.
Proof.
  intros I Hi Hrow Hus Hc Hv Hr Ho.
  assert (P : forall t' q, (t = t' -> q <> p) ->
            same_pointer t' (fst (get_user_data q w))
              (fst (get_user_data q w'))).
  { intros t' q Hq. destruct (Z.eq_dec q p) as [-> | Hne].
    - rewrite (get_user_data_found w p i row Hi Hrow).
      rewrite (get_user_data_at_insert p i row _ w w' Hi Hrow
                 (phone_no_set_column _ _ _) Hus).
      cbn. destruct t, t'; cbn; auto; now destruct Hq.
    - apply same_pointer_eq.
      apply (get_user_data_after_insert p q i row _ (fun _ => w') w Hi Hrow
               (phone_no_set_column _ _ _) Hne Hus). }
  apply (sessions_current_step w w' I Hc); intros q s Hs.
  - destruct (Hv q s Hs). split; [apply P |]; auto.
  - destruct (Hr q s Hs). split; [apply P |]; auto.
  - destruct (Ho q s Hs). split; [apply P |]; auto.
Qed.

(** Closing an item: the cursor is written and the session deleted, with
    nothing in between that could fail and leave a session on a moved
    cursor. *)
Ltac close_item t p :=
  let Hk := fresh "Hk" in
  let w := fresh "w" in
  let I := fresh "I" in
  let i := fresh "i" in
  let Hi := fresh "Hi" in
  let E := fresh "E" in
  intros Hk w I;
  destruct (find_row_index (user_sheet w) p 2) as [i|] eqn:Hi;
  [ let i' := fresh "i'" in
    let row := fresh "row" in
    let Hi' := fresh "Hi'" in
    let Hrow := fresh "Hrow" in
    destruct (registered_row w p (ex_intro _ i Hi))
      as (i' & row & Hi' & Hrow & _);
    assert (i' = i) by congruence; subst i';
    pose proof (advance_cursor_spec t w p i row Hi Hrow) as E;
    cbn [advance_cursor] in E;
    unfold bind at 1; rewrite E;
    unfold bind at 1; cbv [del_vocab_session del_reading_session
      del_open_reading_session py_del]; cbn;
    match goal with
    | |- context [match ?m !! p with _ => _ end] =>
        let Hs := fresh "Hs" in
        destruct (m !! p) eqn:Hs; cbn;
        [ apply Hk |];
        (apply (sessions_current_advanced t p i row w);
         [ exact I | exact Hi | exact Hrow | reflexivity
         | now repeat split | | | ];
         cbn; intros q s0 Hq;
         try (apply lookup_delete_Some in Hq; destruct Hq);
         (split; [assumption |]);
         try discriminate; intros _; congruence)
    end
  | pose proof (advance_cursor_unregistered t p w Hi) as E;
    cbn [advance_cursor] in E;
    unfold bind at 1; rewrite E; exact I ].

Lemma sessions_current_vocab_tail {B} p (k : M B) :
  preserves sessions_current k ->
  preserves sessions_current
    (run advance_vocab_index p; run del_vocab_session p; k).
Proof. close_item vocab p. Qed.

Lemma sessions_current_reading_tail {B} p (k : M B) :
  preserves sessions_current k ->
  preserves sessions_current
    (run advance_question_progress p; run del_reading_session p; k).
Proof. close_item closed p. Qed.

Lemma sessions_current_open_tail {B} p (k : M B) :
  preserves sessions_current k ->
  preserves sessions_current
    (run advance_open_question_progress p; run del_open_reading_session p; k).
Proof. close_item open p. Qed.

Lemma sessions_current_send p m :
  preserves sessions_current (send_whatsapp_message p m).
Proof.
  apply send_whatsapp_message_preserves;
    auto using sessions_current_post, sessions_current_sent.
Qed.

Lemma sessions_current_alter_reading f p :
  (forall s, r_passage (f s) = r_passage s) ->
  (forall s, r_question (f s) = r_question s) ->
  preserves sessions_current (modify (set_reading_sessions (alter f p))).
Proof.
  intros Hp Hq. apply preserves_modify. intros w I.
  apply sessions_current_set_reading; [exact I |].
  intros q s H. destruct (decide (q = p)) as [-> | Hne].
  - rewrite lookup_alter_eq in H.
    destruct (reading_sessions w !! p) as [s0|] eqn:Hs; [| discriminate].
    injection H as <-. right. unfold reading_session_current.
    rewrite Hp, Hq. now apply I.
  - rewrite lookup_alter_ne in H by congruence. now left.
Qed.

Lemma sessions_current_set_attempt p a :
  preserves sessions_current (set_vocab_attempt p a).
Proof.
  intros w I. unfold set_vocab_attempt.
  destruct (vocab_sessions w !! p) as [s0|] eqn:Hs; cbn; [| exact I].
  apply sessions_current_set_vocab; [exact I |].
  intros q s H. destruct (decide (q = p)) as [-> | Hne].
  - rewrite lookup_insert_eq in H. injection H as <-. right.
    unfold vocab_session_current. cbn. now apply I.
  - rewrite lookup_insert_ne in H by congruence. now left.
Qed.

(** Running [m] under a stronger invariant [Q], then going on. *)
Lemma bind_under {A B} (P Q : World -> Prop) (m : M A) (f : A -> M B) :
  preserves Q m ->
  (forall w, Q w -> P w) ->
  (forall a w, Q w -> P (snd (f a w))) ->
  forall w, Q w -> P (snd (bind m f w)).
Proof.
  intros Hm HQ Hf w Hw. unfold bind. specialize (Hm w Hw).
  destruct (m w) as [[a|e] w']; cbn in *; auto.
Qed.

#[local] Hint Resolve sessions_current_chat sessions_current_send
  sessions_current_set_attempt get_row_index_by_phone_reads
  get_student_name_by_phone_reads get_user_data_reads get_passage_reads
  get_current_question_reads get_current_answer_reads
  get_open_question_reads get_open_question_objective_reads
  get_open_question_ans_reads get_current_vocab_row_reads
  preserves_reader : pres.

Ltac follow_step :=
  match goal with
  | |- preserves _ (bind (advance_vocab_index _) _) =>
      apply sessions_current_vocab_tail
  | |- preserves _ (bind (advance_question_progress _) _) =>
      apply sessions_current_reading_tail
  | |- preserves _ (bind (advance_open_question_progress _) _) =>
      apply sessions_current_open_tail
  | |- preserves _ (modify (set_reading_sessions (alter _ _))) =>
      apply sessions_current_alter_reading; reflexivity
  | |- preserves _ (bind _ _) => apply preserves_bind; [| intros ?]
  | |- preserves _ (try_except _ _) => apply preserves_try_except; [| intros ?]
  | |- preserves _ (ret _) => apply preserves_ret
  | |- preserves _ (raise _) => apply preserves_raise
  | |- preserves _ get => apply preserves_get
  | |- preserves _ (if ?b then _ else _) => destruct b
  | |- preserves _ (match ?x with _ => _ end) => destruct x
  | |- preserves _ _ => solve [eauto with pres]
  end.

Ltac follow := cbv zeta; repeat follow_step.

Lemma sessions_current_start_vocab p :
  preserves sessions_current (start_vocab_session p).
Proof.
  intros w I. unfold start_vocab_session.
  pose proof (get_current_vocab_row_reads p w) as R.
  unfold bind at 1.
  destruct (get_current_vocab_row p w) as [[[v|]|e] x] eqn:E;
    cbn in R; subst x; [| | exact I].
  - apply (bind_under sessions_current
             (fun x => sessions_current x
                       /\ fst (get_current_vocab_row p x) = Ok (Some v))).
    + apply ask_vocab_meaning_question_preserves.
      intros r x [Ix Hx]. split; [now apply sessions_current_chat |].
      rewrite <- Hx. apply get_current_vocab_row_frame; [reflexivity |].
      apply same_pointer_eq. now apply get_user_data_same_sheet.
    + now intros x [Ix _].
    + intros msg x [Ix Hx].
      assert (F : preserves sessions_current
                    (run send_whatsapp_message p msg; ret tt)) by follow.
      unfold bind at 1, modify. apply F.
      apply sessions_current_set_vocab; [exact Ix |].
      intros q s H. destruct (decide (q = p)) as [-> | Hne].
      * rewrite lookup_insert_eq in H. injection H as <-. now right.
      * rewrite lookup_insert_ne in H by congruence. now left.
    + split; [exact I | now rewrite E].
  - assert (F : preserves sessions_current
                  (run send_whatsapp_message p vocab_all_done; ret tt))
      by follow.
    now apply F.
Qed.

Lemma sessions_current_start_reading p l :
  preserves sessions_current (start_reading_session p l).
Proof.
  intros w I. unfold start_reading_session. cbv zeta.
  pose proof (get_passage_reads p w) as R1.
  unfold bind at 1.
  destruct (get_passage p w) as [[passage|e] x] eqn:E1;
    cbn in R1; subst x; [| exact I].
  pose proof (get_current_question_reads p w) as R2.
  unfold bind at 1.
  destruct (get_current_question p w) as [[question|e] x] eqn:E2;
    cbn in R2; subst x; [| exact I].
  pose proof (get_student_name_by_phone_reads p w) as R3.
  unfold bind at 1.
  destruct (get_student_name_by_phone p w) as [[name|e] x] eqn:E3;
    cbn in R3; subst x; [| exact I].
  apply (bind_under sessions_current
           (fun x => sessions_current x
                     /\ fst (get_passage p x) = Ok passage
                     /\ fst (get_current_question p x) = Ok question)).
  - apply generate_question_message_preserves.
    intros r x (Ix & Hp & Hq).
    split; [now apply sessions_current_chat |]. split.
    + rewrite <- Hp. apply (get_passage_frame closed); [reflexivity |].
      apply same_pointer_eq. now apply get_user_data_same_sheet.
    + rewrite <- Hq. apply get_current_question_frame; [reflexivity |].
      apply same_pointer_eq. now apply get_user_data_same_sheet.
  - now intros x [Ix _].
  - intros msg x (Ix & Hp & Hq).
    assert (F : preserves sessions_current
                  (run send_whatsapp_message p msg; ret tt)) by follow.
    unfold bind at 1, modify. apply F.
    apply sessions_current_set_reading; [exact Ix |].
    intros q s H. destruct (decide (q = p)) as [-> | Hne].
    + rewrite lookup_insert_eq in H. injection H as <-. right. now split.
    + rewrite lookup_insert_ne in H by congruence. now left.
  - split; [exact I | split; [now rewrite E1 | now rewrite E2]].
Qed.

Lemma sessions_current_start_open p :
  preserves sessions_current (start_open_reading_session p).
Proof.
  intros w I. unfold start_open_reading_session.
  pose proof (get_open_question_reads p w) as R.
  unfold bind at 1.
  destruct (get_open_question p w) as [[question|e] x] eqn:E;
    cbn in R; subst x; [| exact I].
  assert (F : preserves sessions_current
                (do message <- ask_open_question question;
                 run send_whatsapp_message p message; ret tt)) by follow.
  unfold bind at 1, modify. apply F.
  apply sessions_current_set_open; [exact I |].
  intros q s H. destruct (decide (q = p)) as [-> | Hne].
  - rewrite lookup_insert_eq in H. injection H as <-. right.
    unfold open_session_current. cbn. now rewrite E.
  - rewrite lookup_insert_ne in H by congruence. now left.
Qed.

#[local] Hint Resolve sessions_current_start_vocab
  sessions_current_start_reading sessions_current_start_open : pres.

Lemma sessions_current_handle_vocab p r :
  preserves sessions_current (handle_vocab_reply p r).
Proof. unfold handle_vocab_reply. follow. Qed.

Lemma sessions_current_handle_reading p r :
  preserves sessions_current (handle_reading_reply p r).
Proof. unfold handle_reading_reply. follow. Qed.

Lemma sessions_current_handle_open p r :
  preserves sessions_current (handle_open_reading_reply p r).
Proof. unfold handle_open_reading_reply. follow. Qed.

#[local] Hint Resolve sessions_current_handle_vocab
  sessions_current_handle_reading sessions_current_handle_open : pres.

Lemma sessions_current_receive_message p raw :
  preserves sessions_current (receive_message p raw).
Proof. unfold receive_message, default_fallback. follow. Qed.

Lemma sessions_current_without_sessions w :
  vocab_sessions w = ∅ -> reading_sessions w = ∅ ->
  open_reading_sessions w = ∅ -> sessions_current w.
Proof.
  intros Hv Hr Ho. split; [| split]; intros q s H;
    rewrite ?Hv, ?Hr, ?Ho in H; rewrite lookup_empty in H; discriminate.
Qed.

(** X23. Every live session holds the item its student's cursor points
    at, and handling a message keeps it so: if in every track each stored
    session carries what the start function of the track would read from
    the sheets now (the vocabulary row, the passage and closed question,
    the open question), the same is true once [receive_message] is over,
    whatever the message, whoever sends it and however the step ends.
    The cursor of a track is only ever written directly before the
    session of that track is deleted. *)
Theorem live_sessions_hold_the_current_item p raw w :
  sessions_current w ->
  sessions_current (snd (receive_message p raw w)).
Proof. intros I. now apply sessions_current_receive_message. Qed.

Lemma live_sessions_hold_the_current_item_witness :
  sessions_current reading_started
  /\ reading_sessions reading_started !! Classroom.amy
     = Some (mkReadingSession "Tom lives in London." "Where does Tom live?"
               1 EmptyString EmptyString)
  /\ sessions_current
       (snd (receive_message Classroom.amy "in paris" reading_started)).
Proof.
  assert (I : sessions_current reading_started).
  { apply sessions_current_receive_message.
    now apply sessions_current_without_sessions. }
  split; [exact I |]. split; [reflexivity |].
  apply (live_sessions_hold_the_current_item
           Classroom.amy "in paris" reading_started I).
Defined.

(** X24. What a reply is judged against belongs to the question that was
    asked.  Where every session holds the current item, the model answer
    that the closed-reading handler fetches for a student with a session
    is found, and it is the answer cell of a sheet row whose question text
    is the question of the session; likewise the learning objective and
    the model answer that the open-reading handler fetches are found, in a
    row whose question text is the question of the open session. *)
Theorem reply_is_judged_against_the_asked_question p w :
  sessions_current w ->
  (forall s, reading_sessions w !! p = Some s ->
     exists row,
       In row (close_reading_sheet w)
       /\ c_question_text row = r_question s
       /\ get_current_answer p w = (Ok (c_answer_text row), w))
  /\ (forall s, open_reading_sessions w !! p = Some s ->
        exists row,
          In row (open_reading_sheet w)
          /\ o_question_text row = o_question s
          /\ get_open_question_objective p w
             = (Ok (o_learning_objective row), w)
          /\ get_open_question_ans p w = (Ok (o_answer_text row), w)).
Proof.
  intros (_ & Ir & Io). split.
  - intros s Hs. destruct (Ir p s Hs) as [_ Hq].
    unfold get_current_question in Hq. unfold get_current_answer.
    rewrite bind_get_user_data in *.
    destruct (fst (get_user_data p w)) as [u|e]; [| discriminate].
    cbv [bind get ret raise] in *. cbn in *.
    destruct (List.find _ (close_reading_sheet w)) as [row|] eqn:F;
      [| discriminate].
    exists row. apply find_some in F. cbn in Hq.
    repeat split; [tauto | congruence].
  - intros s Hs. pose proof (Io p s Hs) as Hq.
    unfold open_session_current, get_open_question in Hq.
    unfold get_open_question_objective, get_open_question_ans.
    rewrite !bind_get_user_data in *.
    destruct (fst (get_user_data p w)) as [u|e]; [| discriminate].
    cbv [bind get ret raise] in *. cbn in *.
    destruct (List.find _ (open_reading_sheet w)) as [row|] eqn:F;
      [| discriminate].
    exists row. apply find_some in F. cbn in Hq.
    repeat split; [tauto | congruence].
Qed.

Lemma reply_is_judged_against_the_asked_question_witness :
  sessions_current reading_started
  /\ exists row,
       In row (close_reading_sheet reading_started)
       /\ c_question_text row = "Where does Tom live?"
       /\ get_current_answer Classroom.amy reading_started
          = (Ok (c_answer_text row), reading_started).
Proof.
  assert (I : sessions_current reading_started).
  { apply sessions_current_receive_message.
    now apply sessions_current_without_sessions. }
  split; [exact I |].
  exact (proj1 (reply_is_judged_against_the_asked_question
                  Classroom.amy reading_started I)
           (mkReadingSession "Tom lives in London." "Where does Tom live?"
              1 EmptyString EmptyString) eq_refl).
Defined.

(** * Every handled message is answered *)

Lemma extends_refl w : extends (effects w) w.
Proof. exists []. now rewrite app_nil_r. Qed.

Lemma replies_raise p {A} e : replies p (@raise A e).
Proof. intros w a w' H. discriminate. Qed.

Lemma replies_bind_l p {A B} (m : M A) (f : A -> M B) :
  replies p m -> (forall a, grows (f a)) -> replies p (bind m f).
Proof.
  intros Hm Hf w b w'' H. unfold bind in H.
  destruct (m w) as [[a|e] w'] eqn:E; [| discriminate].
  destruct (Hm w a w' E) as (r1 & H1 & X1).
  pose proof (Hf a (effects w') w' (extends_refl w')) as [r2 H2].
  rewrite H in H2. cbn in H2.
  exists (r1 ++ r2). split.
  - rewrite H2, H1. now rewrite app_assoc.
  - apply Exists_app. now left.
Qed.

Lemma replies_bind_r p {A B} (m : M A) (f : A -> M B) :
  grows m -> (forall a, replies p (f a)) -> replies p (bind m f).
Proof.
  intros Hm Hf w b w'' H. unfold bind in H.
  pose proof (Hm (effects w) w (extends_refl w)) as [r1 H1].
  destruct (m w) as [[a|e] w'] eqn:E; [| discriminate]. cbn in H1.
  destruct (Hf a w' b w'' H) as (r2 & H2 & X2).
  exists (r1 ++ r2). split.
  - rewrite H2, H1. now rewrite app_assoc.
  - apply Exists_app. now right.
Qed.

Lemma replies_send p m : replies p (send_whatsapp_message p m).
Proof.
  intros w a w' H. rewrite send_whatsapp_message_spec in H.
  injection H as _ <-.
  exists [Post p m (transport w (clock w) p m)]. split; [reflexivity |].
  now constructor.
Qed.

Lemma grows_reader {A} (m : M A) : (forall w, snd (m w) = w) -> grows m.
Proof. intros H l. now apply preserves_reader. Qed.

Lemma send_whatsapp_message_grows p m : grows (send_whatsapp_message p m).
Proof.
  intros l. apply send_whatsapp_message_preserves; try unread;
    intros; now apply extends_emit.
Qed.

Lemma advance_vocab_index_grows p : grows (advance_vocab_index p).
Proof.
  intros l. apply advance_vocab_index_preserves.
  intros. apply extends_emit. unread.
Qed.

Lemma advance_question_progress_grows p : grows (advance_question_progress p).
Proof.
  intros l. apply advance_question_progress_preserves.
  intros. apply extends_emit. unread.
Qed.

Lemma advance_open_question_progress_grows p :
  grows (advance_open_question_progress p).
Proof.
  intros l. apply advance_open_question_progress_preserves.
  intros. apply extends_emit. unread.
Qed.

Lemma del_vocab_session_grows p : grows (del_vocab_session p).
Proof. intros l. apply del_vocab_session_preserves. unread. Qed.

Lemma del_reading_session_grows p : grows (del_reading_session p).
Proof. intros l. apply del_reading_session_preserves. unread. Qed.

Lemma del_open_reading_session_grows p : grows (del_open_reading_session p).
Proof. intros l. apply del_open_reading_session_preserves. unread. Qed.

Lemma set_vocab_attempt_grows p a : grows (set_vocab_attempt p a).
Proof.
  intros l w H. unfold set_vocab_attempt.
  now destruct (vocab_sessions w !! p).
Qed.

Lemma start_vocab_session_grows p : grows (start_vocab_session p).
Proof.
  intros l. apply start_vocab_session_preserves; try unread;
    intros; now apply extends_emit.
Qed.

Lemma start_reading_session_grows p x : grows (start_reading_session p x).
Proof.
  intros l. apply start_reading_session_preserves; try unread;
    intros; now apply extends_emit.
Qed.

Lemma start_open_reading_session_grows p :
  grows (start_open_reading_session p).
Proof.
  intros l. apply start_open_reading_session_preserves; try unread;
    intros; now apply extends_emit.
Qed.

Lemma grows_bind {A B} (m : M A) (f : A -> M B) :
  grows m -> (forall a, grows (f a)) -> grows (bind m f).
Proof. intros Hm Hf l. apply preserves_bind; [apply Hm | intros a; apply Hf]. Qed.

Lemma grows_ret {A} (a : A) : grows (ret a).
Proof. intros l. apply preserves_ret. Qed.

Lemma grows_raise {A} e : grows (@raise A e).
Proof. intros l. apply preserves_raise. Qed.

Lemma grows_get : grows get.
Proof. intros l. apply preserves_get. Qed.

Lemma grows_llm {A} (m : M A) :
  (forall P : World -> Prop,
     (forall r w, P w -> P (emit 1 (ChatCompletion r) w)) -> preserves P m) ->
  grows m.
Proof. intros H l. apply H. intros. now apply extends_emit. Qed.

Lemma grows_set_vocab g : grows (modify (set_vocab_sessions g)).
Proof. intros l. apply preserves_modify. unread. Qed.

Lemma grows_set_reading g : grows (modify (set_reading_sessions g)).
Proof. intros l. apply preserves_modify. unread. Qed.

Lemma grows_set_open g : grows (modify (set_open_reading_sessions g)).
Proof. intros l. apply preserves_modify. unread. Qed.

Create HintDb grow discriminated.

#[local] Hint Resolve send_whatsapp_message_grows advance_vocab_index_grows
  advance_question_progress_grows advance_open_question_progress_grows
  del_vocab_session_grows del_reading_session_grows
  del_open_reading_session_grows set_vocab_attempt_grows
  start_vocab_session_grows start_reading_session_grows
  start_open_reading_session_grows grows_ret grows_raise grows_get
  grows_set_vocab grows_set_reading grows_set_open : grow.

Ltac grow_leaf :=
  first
    [ solve [eauto with grow]
    | apply grows_reader;
      solve [ apply get_row_index_by_phone_reads
            | apply get_student_name_by_phone_reads
            | apply get_user_data_reads | apply get_passage_reads
            | apply get_current_question_reads
            | apply get_current_answer_reads | apply get_open_question_reads
            | apply get_open_question_objective_reads
            | apply get_open_question_ans_reads
            | apply get_current_vocab_row_reads ]
    | apply grows_llm; intros; solve [eauto with pres] ].

Ltac grow_step :=
  match goal with
  | |- grows (bind _ _) => apply grows_bind; [| intros ?]
  | |- grows (if ?b then _ else _) => destruct b
  | |- grows (match ?x with _ => _ end) => destruct x
  | |- grows _ => grow_leaf
  end.

Ltac grow := cbv zeta; repeat grow_step.

Ltac reply_step :=
  match goal with
  | |- replies _ (bind (send_whatsapp_message _ _) _) =>
      apply replies_bind_l; [apply replies_send | intros ?; grow]
  | |- replies _ (bind _ _) => apply replies_bind_r; [grow | intros ?]
  | |- replies _ (raise _) => apply replies_raise
  | |- replies _ (if ?b then _ else _) => destruct b
  | |- replies _ (match ?x with _ => _ end) => destruct x
  | |- replies _ _ => solve [eauto with grow]
  end.

Ltac reply := cbv zeta; repeat reply_step.

Lemma start_vocab_session_replies p : replies p (start_vocab_session p).
Proof. unfold start_vocab_session. reply. Qed.

Lemma start_reading_session_replies p l :
  replies p (start_reading_session p l).
Proof. unfold start_reading_session. reply. Qed.

Lemma start_open_reading_session_replies p :
  replies p (start_open_reading_session p).
Proof. unfold start_open_reading_session. reply. Qed.

#[local] Hint Resolve start_vocab_session_replies
  start_reading_session_replies start_open_reading_session_replies : grow.

Lemma handle_vocab_reply_replies p r : replies p (handle_vocab_reply p r).
Proof. unfold handle_vocab_reply. reply. Qed.

Lemma handle_reading_reply_replies p r : replies p (handle_reading_reply p r).
Proof. unfold handle_reading_reply. reply. Qed.

Lemma handle_open_reading_reply_replies p r :
  replies p (handle_open_reading_reply p r).
Proof. unfold handle_open_reading_reply. reply. Qed.

#[local] Hint Resolve handle_vocab_reply_replies handle_reading_reply_replies
  handle_open_reading_reply_replies : grow.

Lemma receive_message_replies p raw : replies p (receive_message p raw).
Proof. unfold receive_message, default_fallback. reply. Qed.

(** X25. A message that is handled to the end is answered: whenever
    [receive_message] returns without an exception, at least one message
    for the sender was handed to the bot during the step, whichever branch
    was taken.  (Whether the bot delivered it is another matter: a failed
    delivery is not an exception.) *)
Theorem handled_message_is_answered p raw w :
  fst (receive_message p raw w) = Ok tt ->
  exists rest,
    effects (snd (receive_message p raw w)) = effects w ++ rest
    /\ Exists (posted_to p) rest.
Proof.
  intros H. apply (receive_message_replies p raw w tt).
  destruct (receive_message p raw w) as [r w']. cbn in *. now subst.
Qed.

Lemma handled_message_is_answered_witness :
  fst (receive_message Classroom.amy "reading" Classroom.morning) = Ok tt
  /\ exists rest,
       effects (snd (receive_message Classroom.amy "reading"
                       Classroom.morning))
       = effects Classroom.morning ++ rest
       /\ Exists (posted_to Classroom.amy) rest.
Proof.
  split; [reflexivity |].
  apply (handled_message_is_answered
           Classroom.amy "reading" Classroom.morning).
  reflexivity.
Defined.

(** * The record of the last message *)

Lemma last_posted_snoc q l e :
  last_posted q (l ++ [e]) = note_post q (last_posted q l) e.
Proof. unfold last_posted. now rewrite fold_left_app. Qed.

Lemma last_sent_is_last_posted_emit n e w :
  (forall q m r, e <> Post q m r) ->
  last_sent_is_last_posted w -> last_sent_is_last_posted (emit n e w).
Proof.
  intros He J q.
  change (last_sent_messages w !! q = last_posted q (effects w ++ [e])).
  rewrite last_posted_snoc, <- (J q).
  destruct e; cbn; try reflexivity. now destruct (He _ _ _ eq_refl).
Qed.

Lemma last_sent_is_last_posted_sent p m w :
  last_sent_is_last_posted w -> last_sent_is_last_posted (sent p m w).
Proof.
  intros J q.
  change (<[p := m]> (last_sent_messages w) !! q
          = last_posted q
              (effects w ++ [Post p m (transport w (clock w) p m)])).
  rewrite last_posted_snoc. cbn [note_post].
  destruct (Z.eqb_spec p q) as [-> | Hne].
  - apply lookup_insert_eq.
  - rewrite lookup_insert_ne by exact Hne. apply J.
Qed.

Lemma last_sent_is_last_posted_cell i c d w :
  last_sent_is_last_posted w ->
  last_sent_is_last_posted
    (emit 0 (UpdateCell i c d)
       (set_user_sheet (alter (set_column c d) (Z.to_nat (i - 2))) w)).
Proof.
  intros J. apply last_sent_is_last_posted_emit; [discriminate |].
  exact J.
Qed.

Lemma last_sent_is_last_posted_receive_message p raw :
  preserves last_sent_is_last_posted (receive_message p raw).
Proof.
  apply student_receive_message_preserves; try unread.
  - intros r w J. now apply last_sent_is_last_posted_emit.
  - intros m w. apply last_sent_is_last_posted_sent.
  - apply advance_vocab_index_preserves.
    intros; now apply last_sent_is_last_posted_cell.
  - apply advance_question_progress_preserves.
    intros; now apply last_sent_is_last_posted_cell.
  - apply advance_open_question_progress_preserves.
    intros; now apply last_sent_is_last_posted_cell.
Qed.

Lemma last_sent_is_last_posted_at_first w :
  last_sent_messages w = ∅ -> effects w = [] -> last_sent_is_last_posted w.
Proof. intros Hs He q. rewrite Hs, He. apply lookup_empty. Qed.

(** X26. The record of the last message is the last message.  If
    [last_sent_messages] holds for every student the text of the last
    message handed to the bot for them (and nothing for a student who was
    never written to), this is still so once [receive_message] is over,
    whatever the message and however the step ends: so the prompt that the
    default fallback judges a reply against is always the last thing the
    bot was asked to send to that student. *)
Theorem last_sent_is_the_last_message_posted p raw w :
  last_sent_is_last_posted w ->
  last_sent_is_last_posted (snd (receive_message p raw w))
  /\ last_sent_or_empty w p
     = match last_posted p (effects w) with
       | Some m => m
       | None => EmptyString
       end.
Proof.
  intros J. split.
  - now apply last_sent_is_last_posted_receive_message.
  - unfold last_sent_or_empty. now rewrite (J p).
Qed.

Lemma last_sent_is_the_last_message_posted_witness :
  last_sent_is_last_posted reading_started
  /\ last_posted Classroom.amy (effects reading_started)
     = Some ("ready?" +:+ newline +:+ "Where does Tom live?")
  /\ last_sent_is_last_posted
       (snd (receive_message Classroom.amy "in paris" reading_started)).
Proof.
  assert (J : last_sent_is_last_posted reading_started).
  { apply last_sent_is_last_posted_receive_message.
    now apply last_sent_is_last_posted_at_first. }
  split; [exact J |]. split; [reflexivity |].
  exact (proj1 (last_sent_is_the_last_message_posted
                  Classroom.amy "in paris" reading_started J)).
Defined.

(** * The exceptions that cannot leave the dispatcher *)

Create HintDb escapes discriminated.

Section Escapes.
Variable e : Exn.
Hypothesis He : bookkeeping_or_delivery e.

Ltac other_exception :=
  let H := fresh "H" in
  let K := fresh "K" in
  intros H; try (injection H as H); pose proof He as K;
  rewrite <- H in K; destruct K as [K | [K | K]]; discriminate K.

Lemma raise_escapes_not {A} e' :
  ~ bookkeeping_or_delivery e' -> never_raises e (@raise A e').
Proof. intros H w. cbn. intros [= ->]. now apply H. Qed.

Lemma value_error_is_neither k : ~ bookkeeping_or_delivery (ValueError k).
Proof. intros [K | [K | K]]; discriminate K. Qed.

Lemma index_error_is_neither : ~ bookkeeping_or_delivery IndexError.
Proof. intros [K | [K | K]]; discriminate K. Qed.

Lemma chat_completion_escapes_not r : never_raises e (chat_completion r).
Proof.
  intros w. unfold chat_completion.
  destruct (llm w (clock w) r); cbn; [discriminate | other_exception].
Qed.

Lemma send_whatsapp_message_escapes_not p m :
  never_raises e (send_whatsapp_message p m).
Proof. intros w. rewrite send_whatsapp_message_spec. discriminate. Qed.

Lemma py_getitem_escapes_not {A} (l : list A) i :
  never_raises e (py_getitem l i).
Proof.
  intros w. unfold py_getitem. cbv [ret raise].
  destruct (_ || _); cbn; [other_exception |].
  destruct (_ !! _); cbn; [discriminate | other_exception].
Qed.

Lemma get_row_index_by_phone_escapes_not p :
  never_raises e (get_row_index_by_phone p).
Proof.
  intros w. unfold get_row_index_by_phone. cbv [bind get ret raise].
  destruct (find_row_index _ _ _); cbn; [discriminate | other_exception].
Qed.

Lemma get_student_name_by_phone_escapes_not p :
  never_raises e (get_student_name_by_phone p).
Proof.
  intros w. unfold get_student_name_by_phone. cbv [bind get ret raise].
  destruct (List.find _ _); cbn; [discriminate | other_exception].
Qed.

Hint Resolve chat_completion_escapes_not send_whatsapp_message_escapes_not
  py_getitem_escapes_not get_row_index_by_phone_escapes_not
  get_student_name_by_phone_escapes_not value_error_is_neither
  index_error_is_neither never_raises_ret : escapes.

Lemma get_never_raises e' : never_raises e' get.
Proof. intros w. discriminate. Qed.

Lemma modify_never_raises e' f : never_raises e' (modify f).
Proof. intros w. discriminate. Qed.

Ltac esc_step :=
  match goal with
  | |- never_raises _ (bind _ _) => apply never_raises_bind; [| intros ?]
  | |- never_raises _ (ret _) => apply never_raises_ret
  | |- never_raises _ (try_except _ _) =>
      apply never_raises_try_except; [| intros ? ?]
  | |- never_raises _ (raise _) =>
      first [ apply never_raises_raise; assumption
            | apply raise_escapes_not; solve [eauto with escapes] ]
  | |- never_raises _ get => apply get_never_raises
  | |- never_raises _ (modify _) => apply modify_never_raises
  | |- never_raises _ (if ?b then _ else _) => destruct b
  | |- never_raises _ (match ?x with _ => _ end) => destruct x
  | |- never_raises _ _ => solve [eauto with escapes]
  end.

Ltac esc := cbv zeta; repeat esc_step.

Ltac unfold_llm :=
  unfold greet_student, evaluate_answer, is_student_answering_question,
    is_reply_relevant_to_learning, generate_answer_to_student_question,
    handle_irrelevant_input_with_llm, generate_question_message,
    give_hint_or_explanation, ask_why_correct, respond_to_reflection,
    ask_open_question, respond_to_open_answer, ask_vocab_meaning_question,
    give_vocab_correct_reply, give_vocab_hint_or_explanation.

Lemma get_user_data_escapes_not p : never_raises e (get_user_data p).
Proof. unfold get_user_data. esc. Qed.
Hint Resolve get_user_data_escapes_not : escapes.

Lemma update_sheet_escapes_not p c d : never_raises e (update_sheet p c d).
Proof. unfold update_sheet, update_cell. esc. Qed.
Hint Resolve update_sheet_escapes_not : escapes.

Lemma advance_vocab_index_escapes_not p :
  never_raises e (advance_vocab_index p).
Proof. unfold advance_vocab_index. esc. Qed.

Lemma advance_question_progress_escapes_not p :
  never_raises e (advance_question_progress p).
Proof. unfold advance_question_progress. esc. Qed.

Lemma advance_open_question_progress_escapes_not p :
  never_raises e (advance_open_question_progress p).
Proof. unfold advance_open_question_progress. esc. Qed.

Lemma get_passage_escapes_not p : never_raises e (get_passage p).
Proof. unfold get_passage. esc. Qed.

Lemma get_current_question_escapes_not p :
  never_raises e (get_current_question p).
Proof. unfold get_current_question. esc. Qed.

Lemma get_current_answer_escapes_not p :
  never_raises e (get_current_answer p).
Proof. unfold get_current_answer. esc. Qed.

Lemma get_open_question_escapes_not p : never_raises e (get_open_question p).
Proof. unfold get_open_question. esc. Qed.

Lemma get_open_question_objective_escapes_not p :
  never_raises e (get_open_question_objective p).
Proof. unfold get_open_question_objective. esc. Qed.

Lemma get_open_question_ans_escapes_not p :
  never_raises e (get_open_question_ans p).
Proof. unfold get_open_question_ans. esc. Qed.

Lemma get_current_vocab_row_escapes_not p :
  never_raises e (get_current_vocab_row p).
Proof. unfold get_current_vocab_row. esc. Qed.

Hint Resolve advance_vocab_index_escapes_not
  advance_question_progress_escapes_not
  advance_open_question_progress_escapes_not get_passage_escapes_not
  get_current_question_escapes_not get_current_answer_escapes_not
  get_open_question_escapes_not get_open_question_objective_escapes_not
  get_open_question_ans_escapes_not get_current_vocab_row_escapes_not
  : escapes.

Lemma start_vocab_session_escapes_not p :
  never_raises e (start_vocab_session p).
Proof. unfold start_vocab_session. unfold_llm. esc. Qed.

Lemma start_reading_session_escapes_not p l :
  never_raises e (start_reading_session p l).
Proof. unfold start_reading_session. unfold_llm. esc. Qed.

Lemma start_open_reading_session_escapes_not p :
  never_raises e (start_open_reading_session p).
Proof. unfold start_open_reading_session. unfold_llm. esc. Qed.

Hint Resolve start_vocab_session_escapes_not
  start_reading_session_escapes_not start_open_reading_session_escapes_not
  : escapes.

(** ** With the session in place *)

Lemma from_any Q {A} (m : M A) :
  never_raises e m -> never_raises_from Q e m.
Proof. intros H w _. apply H. Qed.

Lemma from_bind Q {A B} (m : M A) (f : A -> M B) :
  preserves Q m -> never_raises_from Q e m ->
  (forall a, never_raises_from Q e (f a)) ->
  never_raises_from Q e (bind m f).
Proof.
  intros Hp Hm Hf w Hw. unfold bind.
  specialize (Hp w Hw). specialize (Hm w Hw).
  destruct (m w) as [[a|e'] w']; cbn in *; [now apply Hf | congruence].
Qed.

Lemma from_del_vocab p {B} (k : M B) :
  never_raises e k ->
  never_raises_from (fun x => is_Some (vocab_sessions x !! p)) e
    (run del_vocab_session p; k).
Proof.
  intros Hk w [s Hs]. unfold bind, del_vocab_session, py_del.
  rewrite Hs. apply Hk.
Qed.

Lemma from_set_vocab_attempt p a {B} (k : M B) :
  never_raises e k ->
  never_raises_from (fun x => is_Some (vocab_sessions x !! p)) e
    (run set_vocab_attempt p a; k).
Proof.
  intros Hk w [s Hs]. unfold bind, set_vocab_attempt.
  rewrite Hs. apply Hk.
Qed.

Lemma from_del_reading p {B} (k : M B) :
  never_raises e k ->
  never_raises_from (fun x => is_Some (reading_sessions x !! p)) e
    (run del_reading_session p; k).
Proof.
  intros Hk w [s Hs]. unfold bind, del_reading_session, py_del.
  rewrite Hs. apply Hk.
Qed.

Lemma from_del_open p {B} (k : M B) :
  never_raises e k ->
  never_raises_from (fun x => is_Some (open_reading_sessions x !! p)) e
    (run del_open_reading_session p; k).
Proof.
  intros Hk w [s Hs]. unfold bind, del_open_reading_session, py_del.
  rewrite Hs. apply Hk.
Qed.

(** What runs between the lookup of the session and its deletion leaves
    the session maps alone. *)
Ltac keeps_session :=
  first
    [ apply preserves_reader;
      solve [ apply get_current_answer_reads
            | apply get_open_question_objective_reads
            | apply get_open_question_ans_reads ]
    | apply send_whatsapp_message_preserves; unread
    | apply advance_vocab_index_preserves; unread
    | apply advance_question_progress_preserves; unread
    | apply advance_open_question_progress_preserves; unread
    | solve [eauto with pres]
    | (let H := fresh "H" in
       match goal with
       | |- preserves ?Q _ =>
           assert (H : forall r w, Q w -> Q (emit 1 (ChatCompletion r) w))
             by unread;
           solve [eauto with pres]
       end) ].

Ltac from_step :=
  match goal with
  | |- never_raises_from _ _ (bind (del_vocab_session _) _) =>
      apply from_del_vocab; unfold_llm; solve [esc]
  | |- never_raises_from _ _ (bind (set_vocab_attempt _ _) _) =>
      apply from_set_vocab_attempt; unfold_llm; solve [esc]
  | |- never_raises_from _ _ (bind (del_reading_session _) _) =>
      apply from_del_reading; unfold_llm; solve [esc]
  | |- never_raises_from _ _ (bind (del_open_reading_session _) _) =>
      apply from_del_open; unfold_llm; solve [esc]
  | |- never_raises_from _ _ (bind _ _) =>
      apply from_bind;
      [ keeps_session | apply from_any; unfold_llm; solve [esc] | intros ? ]
  | |- never_raises_from _ _ (if ?b then _ else _) => destruct b
  | |- never_raises_from _ _ (match ?x with _ => _ end) => destruct x
  | |- never_raises_from _ _ _ => apply from_any; unfold_llm; solve [esc]
  end.

Ltac from := cbv zeta; repeat from_step.

Lemma handle_vocab_reply_escapes_not p r :
  never_raises e (handle_vocab_reply p r).
Proof.
  intros w. unfold handle_vocab_reply. unfold bind at 1. cbn [get].
  destruct (vocab_sessions w !! p) as [s|] eqn:Hs.
  - refine ((_ : never_raises_from
                   (fun x => is_Some (vocab_sessions x !! p)) e _) w _);
      [from | now exists s].
  - refine ((_ : never_raises e _) w). esc.
Qed.

Lemma handle_reading_reply_escapes_not p r :
  never_raises e (handle_reading_reply p r).
Proof.
  intros w. unfold handle_reading_reply. unfold bind at 1. cbn [get].
  destruct (reading_sessions w !! p) as [s|] eqn:Hs.
  - refine ((_ : never_raises_from
                   (fun x => is_Some (reading_sessions x !! p)) e _) w _);
      [from | now exists s].
  - refine ((_ : never_raises e _) w). esc.
Qed.

Lemma handle_open_reading_reply_escapes_not p r :
  never_raises e (handle_open_reading_reply p r).
Proof.
  intros w. unfold handle_open_reading_reply. unfold bind at 1. cbn [get].
  destruct (open_reading_sessions w !! p) as [s|] eqn:Hs.
  - refine ((_ : never_raises_from
                   (fun x => is_Some (open_reading_sessions x !! p)) e _) w _);
      [from | now exists s].
  - refine ((_ : never_raises e _) w). esc.
Qed.

Hint Resolve handle_vocab_reply_escapes_not handle_reading_reply_escapes_not
  handle_open_reading_reply_escapes_not : escapes.

Lemma receive_message_escapes_not p raw :
  never_raises e (receive_message p raw).
Proof. unfold receive_message, default_fallback. unfold_llm. esc. Qed.
End Escapes.

(** X27. Neither the session bookkeeping nor the delivery can make the
    dispatcher fail.  [receive_message] never ends in the [KeyError] of a
    [del] or update of a missing session: wherever a handler deletes or
    updates the session of the sender, that session is still in place.
    And it never ends in an exception of [requests.post] or of
    [response.json()]: [send_whatsapp_message] catches them all.  What
    can leave the dispatcher is a failed sheet lookup, an index out of
    range, or a failure of the chat-completion client. *)
Theorem bookkeeping_and_delivery_never_fail_the_dispatcher p raw w e :
  fst (receive_message p raw w) = Raise e ->
  e = IndexError \/ e = ClientError \/ exists k, e = ValueError k.
Proof.
  intros H.
  destruct e as [k | | | | |]; eauto;
    exfalso; revert H; apply receive_message_escapes_not;
    unfold bookkeeping_or_delivery; auto.
Qed.

Lemma bookkeeping_and_delivery_never_fail_the_dispatcher_witness :
  fst (receive_message Classroom.amy "reading" silent_judge)
    = Raise ClientError
  /\ (ClientError = IndexError \/ ClientError = ClientError
      \/ exists k, ClientError = ValueError k).
Proof.
  split; [reflexivity |].
  apply (bookkeeping_and_delivery_never_fail_the_dispatcher
           Classroom.amy "reading" silent_judge ClientError).
  reflexivity.
Defined.
